(** * mermaidcn zoom/pan engine: a shallow embedding and its properties

    The repository ships several implementations of the same ZoomPan
    component.  Each one is embedded in a module of its own:

    - [Registry] : src/registry/mermaidcn/zoom-pan.tsx (React state drives the
      CSS transform, a separate momentum loop);
    - [Eased]    : src/components/zoom-pan.tsx, first version (target/current
      refs, fixed per-frame easing);
    - [Physics]  : src/components/zoom-pan.tsx, second version (delta-time
      physics loop with a final snap);
    - [Canvas]   : src/components/zoom-pan.tsx, third version (bitmap canvas,
      immediate and smooth update modes).

    JavaScript numbers are modelled as real numbers (no rounding); the part
    of the wheel handler whose behaviour on NaN and Infinity matters is
    modelled a second time over an extended number type in [JSNum]. *)

From Stdlib Require Import Reals Lra Psatz Lia ZArith List Bool.
Import ListNotations.
Local Open Scope R_scope.

(** ** JavaScript primitives used by the component *)

Definition Math_min (a b : R) : R := Rmin a b.
Definition Math_max (a b : R) : R := Rmax a b.
Definition Math_abs (a : R) : R := Rabs a.
Definition Math_exp (a : R) : R := exp a.
Definition Math_sqrt (a : R) : R := sqrt a.
(** [Math.pow] is only used with the positive bases 0.95 and 0.88. *)
Definition Math_pow (b t : R) : R := Rpower b t.

(** Comparisons as booleans, the way [if] and [||] consume them. *)
Definition gtb (a b : R) : bool := if Rgt_dec a b then true else false.
Definition ltb (a b : R) : bool := if Rlt_dec a b then true else false.
Definition eqb (a b : R) : bool := if Req_dec_T a b then true else false.

(** ** Data shared by all versions *)

(** [{ x, y }] object literals. *)
Record Point : Type := mkPoint { x : R; y : R }.

(** [ZoomPanState], the React state of the component. *)
Record ZoomPanState : Type := mkZoomPanState {
  scale : R;
  translateX : R;
  translateY : R;
  isImmediate : bool
}.

(** The numeric props of [ZoomPanProps], and [isLoading]. *)
Record ZoomPanProps : Type := mkProps {
  minScale : R;
  maxScale : R;
  initialScale : R;
  zoomStep : R;
  isLoading : bool
}.

(** The defaults of the destructured props. *)
Definition defaultProps : ZoomPanProps :=
  {| minScale := 0.1; maxScale := 5; initialScale := 1; zoomStep := 0.1;
     isLoading := false |}.

(** [getBoundingClientRect()]. *)
Record DOMRect : Type := mkRect { left : R; top : R; width : R; height : R }.

(** The fields of a [WheelEvent] the handlers read. *)
Record WheelEvent : Type := mkWheel {
  clientX : R;
  clientY : R;
  deltaY : R;
  deltaMode : nat
}.

(** A [TouchList]: the [clientX]/[clientY] of each active touch. *)
Definition TouchList : Type := list Point.

(** The gesture-start snapshot kept in [touchStartRef]. *)
Record TouchStart : Type := mkTouchStart {
  touches : list Point;
  distance : R;
  center : Point;
  startScale : R;
  startTranslateX : R;
  startTranslateY : R
}.

(** Every write site spells the clamp out as
    [Math.min(maxScale, Math.max(minScale, v))]. *)
Definition clampScale (props : ZoomPanProps) (v : R) : R :=
  Math_min (maxScale props) (Math_max (minScale props) v).

(** [getTouchDistance] and [getTouchCenter] of the registry and of the first
    two component versions (with the [touches.length < 2] guard). *)
Definition getTouchDistance (ts : TouchList) : R :=
  match ts with
  | t0 :: t1 :: _ =>
      let dx := x t0 - x t1 in
      let dy := y t0 - y t1 in
      Math_sqrt (dx * dx + dy * dy)
  | _ => 0
  end.

Definition getTouchCenter (ts : TouchList) : Point :=
  match ts with
  | t0 :: t1 :: _ => {| x := (x t0 + x t1) / 2; y := (y t0 + y t1) / 2 |}
  | _ => {| x := 0; y := 0 |}
  end.


(** ** The registry component: src/registry/mermaidcn/zoom-pan.tsx *)

Module Registry.

(** What the DOM reports for the container: its bounding rect, its client
    size, and the scroll size of its first element child, if any. *)
Record Container : Type := mkContainer {
  rect : DOMRect;
  clientWidth : R;
  clientHeight : R;
  firstElementChild : option (R * R)   (* scrollWidth, scrollHeight *)
}.

(** The state and the refs of one mounted component.  [rafRef] is [true]
    while an animation frame of the momentum loop is pending. *)
Record Component : Type := mkComponent {
  zoomPan : ZoomPanState;
  isDragging : bool;
  panStartRef : Point;
  lastTranslateRef : Point;
  velocityRef : Point;
  rafRef : bool;
  touchStartRef : option TouchStart
}.

Definition setZoomPan (s : ZoomPanState) (c : Component) : Component :=
  {| zoomPan := s; isDragging := isDragging c; panStartRef := panStartRef c;
     lastTranslateRef := lastTranslateRef c; velocityRef := velocityRef c;
     rafRef := rafRef c; touchStartRef := touchStartRef c |}.

Definition setVelocity (v : Point) (c : Component) : Component :=
  {| zoomPan := zoomPan c; isDragging := isDragging c;
     panStartRef := panStartRef c; lastTranslateRef := lastTranslateRef c;
     velocityRef := v; rafRef := rafRef c;
     touchStartRef := touchStartRef c |}.

Definition setRaf (b : bool) (c : Component) : Component :=
  {| zoomPan := zoomPan c; isDragging := isDragging c;
     panStartRef := panStartRef c; lastTranslateRef := lastTranslateRef c;
     velocityRef := velocityRef c; rafRef := b;
     touchStartRef := touchStartRef c |}.

Definition setTouchStart (t : option TouchStart) (c : Component) : Component :=
  {| zoomPan := zoomPan c; isDragging := isDragging c;
     panStartRef := panStartRef c; lastTranslateRef := lastTranslateRef c;
     velocityRef := velocityRef c; rafRef := rafRef c;
     touchStartRef := t |}.

Definition setDragging (b : bool) (c : Component) : Component :=
  {| zoomPan := zoomPan c; isDragging := b; panStartRef := panStartRef c;
     lastTranslateRef := lastTranslateRef c; velocityRef := velocityRef c;
     rafRef := rafRef c; touchStartRef := touchStartRef c |}.

(** The component right after mounting. *)
Definition mount (props : ZoomPanProps) : Component :=
  {| zoomPan := {| scale := initialScale props; translateX := 0;
                   translateY := 0; isImmediate := false |};
     isDragging := false;
     panStartRef := {| x := 0; y := 0 |};
     lastTranslateRef := {| x := 0; y := 0 |};
     velocityRef := {| x := 0; y := 0 |};
     rafRef := false;
     touchStartRef := None |}.

(** *** Momentum panning *)

(** [step], the frame callback of [startMomentum]. *)
Definition step (c : Component) : Component :=
  let vx := x (velocityRef c) in
  let vy := y (velocityRef c) in
  if ltb (Math_abs vx) 0.05 && ltb (Math_abs vy) 0.05 then
    setRaf false c                     (* return: nothing is rescheduled *)
  else
    let prev := zoomPan c in
    setRaf true
      (setVelocity {| x := vx * 0.95; y := vy * 0.95 |}
         (setZoomPan {| scale := scale prev;
                        translateX := translateX prev + vx;
                        translateY := translateY prev + vy;
                        isImmediate := true |} c)).

Definition startMomentum (c : Component) : Component := setRaf true c.

Definition stopMomentum (c : Component) : Component :=
  setVelocity {| x := 0; y := 0 |} (setRaf false c).

(** The browser runs the pending frame, if there is one. *)
Definition frame (c : Component) : Component :=
  if rafRef c then step c else c.

Fixpoint frames (n : nat) (c : Component) : Component :=
  match n with
  | O => c
  | S k => frames k (frame c)
  end.

(** *** Zoom controls *)

Definition getContainerCenter (container : option Container) : Point :=
  match container with
  | None => {| x := 0; y := 0 |}
  | Some el => {| x := width (rect el) / 2; y := height (rect el) / 2 |}
  end.

Definition applyZoomToPoint (props : ZoomPanProps) (delta : R)
    (point : Point) (c : Component) : Component :=
  let c1 := stopMomentum c in
  let prev := zoomPan c1 in
  let newScale := Math_min (maxScale props)
                    (Math_max (minScale props) (scale prev + delta)) in
  let ratio := newScale / scale prev in
  let newTranslateX := x point - (x point - translateX prev) * ratio in
  let newTranslateY := y point - (y point - translateY prev) * ratio in
  setZoomPan {| scale := newScale; translateX := newTranslateX;
                translateY := newTranslateY; isImmediate := false |} c1.

Definition zoomIn (props : ZoomPanProps) (container : option Container)
    (c : Component) : Component :=
  applyZoomToPoint props (zoomStep props) (getContainerCenter container) c.

Definition zoomOut (props : ZoomPanProps) (container : option Container)
    (c : Component) : Component :=
  applyZoomToPoint props (- zoomStep props) (getContainerCenter container) c.

Definition resetZoom (props : ZoomPanProps) (c : Component) : Component :=
  setZoomPan {| scale := initialScale props; translateX := 0;
                translateY := 0; isImmediate := false |} (stopMomentum c).

Definition centerView (props : ZoomPanProps) (container : option Container)
    (c : Component) : Component :=
  match container with
  | None => c
  | Some el =>
    match firstElementChild el with
    | None => c
    | Some (contentWidth, contentHeight) =>
      let containerWidth := clientWidth el in
      let containerHeight := clientHeight el in
      if eqb contentWidth 0 || eqb contentHeight 0 then c
      else
        let padding := 40 in
        let availableWidth := containerWidth - padding in
        let availableHeight := containerHeight - padding in
        let scaleX := availableWidth / contentWidth in
        let scaleY := availableHeight / contentHeight in
        let fitScale := Math_min (maxScale props)
                          (Math_max (minScale props)
                             (Math_min scaleX scaleY)) in
        let newTranslateX := (containerWidth - contentWidth * fitScale) / 2 in
        let newTranslateY := (containerHeight - contentHeight * fitScale) / 2 in
        setZoomPan {| scale := fitScale; translateX := newTranslateX;
                      translateY := newTranslateY; isImmediate := false |}
          (stopMomentum c)
    end
  end.

(** *** Wheel and touch handlers (installed on a mounted container) *)

Definition ZOOM_SENSITIVITY : R := 0.002.

(** The normalised wheel delta: line mode times 40, page mode times 800. *)
Definition wheelDelta (e : WheelEvent) : R :=
  let delta := deltaY e in
  let delta := if Nat.eqb (deltaMode e) 1 then delta * 40 else delta in
  let delta := if Nat.eqb (deltaMode e) 2 then delta * 800 else delta in
  delta.

Definition scaleFactor (e : WheelEvent) : R :=
  Math_exp (- wheelDelta e * ZOOM_SENSITIVITY).

Definition onWheel (props : ZoomPanProps) (el : Container) (e : WheelEvent)
    (c : Component) : Component :=
  let c1 := stopMomentum c in
  let mouseX := clientX e - left (rect el) in
  let mouseY := clientY e - top (rect el) in
  let prev := zoomPan c1 in
  let newScale := Math_min (maxScale props)
                    (Math_max (minScale props) (scale prev * scaleFactor e)) in
  let ratio := newScale / scale prev in
  let newTranslateX := mouseX - (mouseX - translateX prev) * ratio in
  let newTranslateY := mouseY - (mouseY - translateY prev) * ratio in
  setZoomPan {| scale := newScale; translateX := newTranslateX;
                translateY := newTranslateY; isImmediate := true |} c1.

Definition onTouchStart (e : TouchList) (c : Component) : Component :=
  let c1 := stopMomentum c in
  let zp := zoomPan c1 in
  let c2 :=
    match e with
    | [t0] =>
        setTouchStart
          (Some {| touches := [t0]; distance := 0;
                   center := {| x := 0; y := 0 |};
                   startScale := scale zp;
                   startTranslateX := translateX zp;
                   startTranslateY := translateY zp |}) c1
    | [t0; t1] =>
        setTouchStart
          (Some {| touches := [t0; t1]; distance := getTouchDistance e;
                   center := getTouchCenter e;
                   startScale := scale zp;
                   startTranslateX := translateX zp;
                   startTranslateY := translateY zp |}) c1
    | _ => c1
    end in
  let prev := zoomPan c2 in
  setZoomPan {| scale := scale prev; translateX := translateX prev;
                translateY := translateY prev; isImmediate := true |} c2.

Definition onTouchMove (props : ZoomPanProps) (el : Container)
    (e : TouchList) (c : Component) : Component :=
  match touchStartRef c with
  | None => c
  | Some st =>
    match e, touches st with
    | [t0], [s0] =>                                   (* pan *)
        let dx := x t0 - x s0 in
        let dy := y t0 - y s0 in
        setZoomPan {| scale := startScale st;
                      translateX := startTranslateX st + dx;
                      translateY := startTranslateY st + dy;
                      isImmediate := true |} c
    | [_; _], _ =>
        if gtb (distance st) 0 then                   (* pinch zoom *)
          let newDist := getTouchDistance e in
          let newCenter := getTouchCenter e in
          let scaleRatio := newDist / distance st in
          let newScale := Math_min (maxScale props)
                            (Math_max (minScale props)
                               (startScale st * scaleRatio)) in
          let oldScale := startScale st in
          let oldTranslateX := startTranslateX st in
          let oldTranslateY := startTranslateY st in
          let oldCenterXRel := x (center st) - left (rect el) in
          let oldCenterYRel := y (center st) - top (rect el) in
          let newCenterXRel := x newCenter - left (rect el) in
          let newCenterYRel := y newCenter - top (rect el) in
          let contentX := (oldCenterXRel - oldTranslateX) / oldScale in
          let contentY := (oldCenterYRel - oldTranslateY) / oldScale in
          let newTranslateX := newCenterXRel - contentX * newScale in
          let newTranslateY := newCenterYRel - contentY * newScale in
          setZoomPan {| scale := newScale; translateX := newTranslateX;
                        translateY := newTranslateY; isImmediate := true |} c
        else c
    | _, _ => c
    end
  end.

Definition onTouchEnd (c : Component) : Component := setTouchStart None c.

(** *** Mouse panning *)

Definition setPan (start lastTranslate : Point) (c : Component) : Component :=
  {| zoomPan := zoomPan c; isDragging := isDragging c; panStartRef := start;
     lastTranslateRef := lastTranslate; velocityRef := velocityRef c;
     rafRef := rafRef c; touchStartRef := touchStartRef c |}.

(** [button] is [e.button], [p] the pointer position. *)
Definition handleMouseDown (props : ZoomPanProps) (button : nat) (p : Point)
    (c : Component) : Component :=
  if isLoading props then c
  else if negb (Nat.eqb button 0) && negb (Nat.eqb button 1) then c
  else
    let c1 := setDragging true (stopMomentum c) in
    let c2 := setPan p {| x := translateX (zoomPan c1);
                          y := translateY (zoomPan c1) |} c1 in
    let c3 := setVelocity {| x := 0; y := 0 |} c2 in
    let prev := zoomPan c3 in
    setZoomPan {| scale := scale prev; translateX := translateX prev;
                  translateY := translateY prev; isImmediate := true |} c3.

(** The window listener, installed while dragging; [movement] is
    [(e.movementX, e.movementY)] and [dt] the time since the last event. *)
Definition handleWindowMouseMove (dt : R) (p movement : Point)
    (c : Component) : Component :=
  if isDragging c then
    let dx := x p - x (panStartRef c) in
    let dy := y p - y (panStartRef c) in
    let c1 := if gtb dt 0 then setVelocity movement c else c in
    let prev := zoomPan c1 in
    setZoomPan {| scale := scale prev;
                  translateX := x (lastTranslateRef c1) + dx;
                  translateY := y (lastTranslateRef c1) + dy;
                  isImmediate := true |} c1
  else c.

Definition handleWindowMouseUp (c : Component) : Component :=
  if isDragging c then startMomentum (setDragging false c) else c.

(** The two button operations, as data, to run sequences of them. *)
Inductive Button : Type := ZoomIn | ZoomOut.

Definition press (props : ZoomPanProps) (container : option Container)
    (b : Button) (c : Component) : Component :=
  match b with
  | ZoomIn => zoomIn props container c
  | ZoomOut => zoomOut props container c
  end.

Fixpoint pressAll (props : ZoomPanProps) (container : option Container)
    (bs : list Button) (c : Component) : Component :=
  match bs with
  | [] => c
  | b :: rest => pressAll props container rest (press props container b c)
  end.

(** The callbacks handed to the controls, across renders.  [zoomIn] is
    memoised on [maxScale, zoomStep] and [zoomOut] on [minScale, zoomStep],
    around an [applyZoomToPoint] that every render creates anew: each of the
    two keeps the closure, and with it the props, of the render in which one
    of its own dependencies last changed. *)
Record Render : Type := mkRender {
  currentProps : ZoomPanProps;
  zoomInClosure : ZoomPanProps;
  zoomOutClosure : ZoomPanProps
}.

Definition firstRender (props : ZoomPanProps) : Render :=
  mkRender props props props.

(** A render with new props: [useCallback] keeps the stored callback when
    every dependency equals the stored one. *)
Definition rerender (props : ZoomPanProps) (r : Render) : Render :=
  mkRender props
    (if eqb (maxScale props) (maxScale (zoomInClosure r)) &&
        eqb (zoomStep props) (zoomStep (zoomInClosure r))
     then zoomInClosure r else props)
    (if eqb (minScale props) (minScale (zoomOutClosure r)) &&
        eqb (zoomStep props) (zoomStep (zoomOutClosure r))
     then zoomOutClosure r else props).

(** The [zoomIn] and [zoomOut] that the controls of a render call. *)
Definition controlsZoomIn (r : Render) (container : option Container)
    (c : Component) : Component :=
  zoomIn (zoomInClosure r) container c.

Definition controlsZoomOut (r : Render) (container : option Container)
    (c : Component) : Component :=
  zoomOut (zoomOutClosure r) container c.

(** The wheel and touch listeners are added by an effect that returns
    before [addEventListener] while [isLoading] is set: an event then
    reaches no handler. *)
Definition wheelEvent (props : ZoomPanProps) (el : Container)
    (e : WheelEvent) (c : Component) : Component :=
  if isLoading props then c else onWheel props el e c.

Definition touchStartEvent (props : ZoomPanProps) (e : TouchList)
    (c : Component) : Component :=
  if isLoading props then c else onTouchStart e c.

End Registry.

(** ** State shared by the first two versions of src/components/zoom-pan.tsx *)

(** The [{ scale, x, y }] objects held by [currentRef] and [targetRef]. *)
Record Transform : Type := mkTransform { tscale : R; tx : R; ty : R }.

Definition stateTransform (s : ZoomPanState) : Transform :=
  {| tscale := scale s; tx := translateX s; ty := translateY s |}.

Module Loop.

(** The React state and the refs of a mounted component.  [rafRef] is
    [true] while a frame of the animation loop is pending.  The two refs
    never share an object in these versions: every assignment stores a
    fresh literal or a spread copy. *)
Record Component : Type := mkComponent {
  zoomPan : ZoomPanState;
  currentRef : Transform;
  targetRef : Transform;
  isDragging : bool;
  isPinching : bool;
  panStartRef : Point;
  targetStartRef : Point;
  velocityRef : Point;
  lastInteractionTimeRef : Point;
  rafRef : bool
}.

Definition setZoomPan (s : ZoomPanState) (c : Component) : Component :=
  mkComponent s (currentRef c) (targetRef c) (isDragging c) (isPinching c)
    (panStartRef c) (targetStartRef c) (velocityRef c)
    (lastInteractionTimeRef c) (rafRef c).

Definition setCurrent (t : Transform) (c : Component) : Component :=
  mkComponent (zoomPan c) t (targetRef c) (isDragging c) (isPinching c)
    (panStartRef c) (targetStartRef c) (velocityRef c)
    (lastInteractionTimeRef c) (rafRef c).

Definition setTarget (t : Transform) (c : Component) : Component :=
  mkComponent (zoomPan c) (currentRef c) t (isDragging c) (isPinching c)
    (panStartRef c) (targetStartRef c) (velocityRef c)
    (lastInteractionTimeRef c) (rafRef c).

Definition setDragging (b : bool) (c : Component) : Component :=
  mkComponent (zoomPan c) (currentRef c) (targetRef c) b (isPinching c)
    (panStartRef c) (targetStartRef c) (velocityRef c)
    (lastInteractionTimeRef c) (rafRef c).

Definition setPanStart (p q : Point) (c : Component) : Component :=
  mkComponent (zoomPan c) (currentRef c) (targetRef c) (isDragging c)
    (isPinching c) p q (velocityRef c) (lastInteractionTimeRef c) (rafRef c).

Definition setVelocity (v : Point) (c : Component) : Component :=
  mkComponent (zoomPan c) (currentRef c) (targetRef c) (isDragging c)
    (isPinching c) (panStartRef c) (targetStartRef c) v
    (lastInteractionTimeRef c) (rafRef c).

Definition setLastInteraction (p : Point) (c : Component) : Component :=
  mkComponent (zoomPan c) (currentRef c) (targetRef c) (isDragging c)
    (isPinching c) (panStartRef c) (targetStartRef c) (velocityRef c) p
    (rafRef c).

Definition setRaf (b : bool) (c : Component) : Component :=
  mkComponent (zoomPan c) (currentRef c) (targetRef c) (isDragging c)
    (isPinching c) (panStartRef c) (targetStartRef c) (velocityRef c)
    (lastInteractionTimeRef c) b.

Definition mount (props : ZoomPanProps) : Component :=
  let t := {| tscale := initialScale props; tx := 0; ty := 0 |} in
  mkComponent
    {| scale := initialScale props; translateX := 0; translateY := 0;
       isImmediate := false |}
    t t false false (mkPoint 0 0) (mkPoint 0 0) (mkPoint 0 0) (mkPoint 0 0)
    false.

(** [commitToState]: the state takes the values of [currentRef] and keeps
    its transition mode. *)
Definition commitToState (c : Component) : Component :=
  setZoomPan {| scale := tscale (currentRef c);
                translateX := tx (currentRef c);
                translateY := ty (currentRef c);
                isImmediate := isImmediate (zoomPan c) |} c.

(** [startAnimation]: schedules a frame unless one is pending. *)
Definition startAnimation (c : Component) : Component :=
  if rafRef c then c else setRaf true c.

(** What the DOM reports: the container's bounding rect and client size,
    and the bounding rect of the content element. *)
Record Layout : Type := mkLayout {
  containerRect : DOMRect;
  clientWidth : R;
  clientHeight : R;
  contentRect : DOMRect
}.

Definition getContainerCenter (dom : option Layout) : Point :=
  match dom with
  | None => {| x := 0; y := 0 |}
  | Some l => {| x := width (containerRect l) / 2;
                 y := height (containerRect l) / 2 |}
  end.

End Loop.

(** ** First version of src/components/zoom-pan.tsx: fixed per-frame easing *)

Module Eased.
Import Loop.

(** The effect that follows every change of the React state. *)
Definition zoomPanEffect (c : Component) : Component :=
  let c1 := setTarget (stateTransform (zoomPan c)) c in
  if isImmediate (zoomPan c1) then startAnimation c1
  else setCurrent (targetRef c1) c1.

(** [step], the frame callback of [startAnimation]. *)
Definition step (c : Component) : Component :=
  let target := targetRef c in
  let current := currentRef c in
  let velocity := velocityRef c in
  (* 1. momentum *)
  let '(target, velocity) :=
    if negb (isDragging c) && negb (isPinching c) then
      if gtb (Math_abs (x velocity)) 0.01 || gtb (Math_abs (y velocity)) 0.01
      then ({| tscale := tscale target; tx := tx target + x velocity;
               ty := ty target + y velocity |},
            {| x := x velocity * 0.92; y := y velocity * 0.92 |})
      else (target, {| x := 0; y := 0 |})
    else (target, velocity) in
  (* 2. interpolation *)
  let lerpPan := 0.1 in
  let lerpZoom := 0.06 in
  let dx := tx target - tx current in
  let dy := ty target - ty current in
  let ds := tscale target - tscale current in
  let current := {| tscale := tscale current + ds * lerpZoom;
                    tx := tx current + dx * lerpPan;
                    ty := ty current + dy * lerpPan |} in
  let c1 := setCurrent current (setVelocity velocity (setTarget target c)) in
  (* 3. stop check *)
  let isStillMoving :=
    gtb (Math_abs dx) 0.1 || gtb (Math_abs dy) 0.1 ||
    gtb (Math_abs ds) 0.001 ||
    gtb (Math_abs (x velocity)) 0.1 || gtb (Math_abs (y velocity)) 0.1 in
  if isStillMoving || isDragging c || isPinching c then setRaf true c1
  else commitToState (setRaf false c1).

(** The browser runs the pending frame; when the frame commits, the effect
    on the React state runs after it. *)
Definition frame (c : Component) : Component :=
  if rafRef c then
    let c1 := step c in
    if rafRef c1 then c1 else zoomPanEffect c1
  else c.

Definition applyZoomToPoint (props : ZoomPanProps) (delta : R)
    (point : Point) (c : Component) : Component :=
  let prevScale := scale (zoomPan c) in
  let prevX := translateX (zoomPan c) in
  let prevY := translateY (zoomPan c) in
  let newScale := Math_min (maxScale props)
                    (Math_max (minScale props) (prevScale + delta)) in
  let ratio := newScale / prevScale in
  let newX := x point - (x point - prevX) * ratio in
  let newY := y point - (y point - prevY) * ratio in
  zoomPanEffect
    (setZoomPan {| scale := newScale; translateX := newX;
                   translateY := newY; isImmediate := false |} c).

Definition zoomIn (props : ZoomPanProps) (dom : option Layout)
    (c : Component) : Component :=
  applyZoomToPoint props (zoomStep props) (getContainerCenter dom) c.

Definition zoomOut (props : ZoomPanProps) (dom : option Layout)
    (c : Component) : Component :=
  applyZoomToPoint props (- zoomStep props) (getContainerCenter dom) c.

Definition ZOOM_SENSITIVITY : R := 0.002.

Definition wheelDelta (e : WheelEvent) : R :=
  let delta := deltaY e in
  let delta := if Nat.eqb (deltaMode e) 1 then delta * 40 else delta in
  let delta := if Nat.eqb (deltaMode e) 2 then delta * 800 else delta in
  delta.

Definition scaleFactor (e : WheelEvent) : R :=
  Math_exp (- wheelDelta e * ZOOM_SENSITIVITY).

Definition onWheel (props : ZoomPanProps) (l : Layout) (e : WheelEvent)
    (c : Component) : Component :=
  let mouseX := clientX e - left (containerRect l) in
  let mouseY := clientY e - top (containerRect l) in
  let target := targetRef c in
  let newScale := Math_min (maxScale props)
                    (Math_max (minScale props)
                       (tscale target * scaleFactor e)) in
  let ratio := newScale / tscale target in
  startAnimation
    (setTarget {| tscale := newScale;
                  tx := mouseX - (mouseX - tx target) * ratio;
                  ty := mouseY - (mouseY - ty target) * ratio |} c).

Definition resetZoom (props : ZoomPanProps) (c : Component) : Component :=
  zoomPanEffect
    (setZoomPan {| scale := initialScale props; translateX := 0;
                   translateY := 0; isImmediate := false |} c).

(** [n] frames of the loop. *)
Fixpoint frames (n : nat) (c : Component) : Component :=
  match n with
  | O => c
  | S k => frames k (frame c)
  end.

End Eased.

(** ** Second version of src/components/zoom-pan.tsx: delta-time physics *)

Module Physics.
Import Loop.

(** The effect that follows every change of the React state. *)
Definition zoomPanEffect (c : Component) : Component :=
  if negb (rafRef c) then
    let c1 := setTarget (stateTransform (zoomPan c)) c in
    if negb (isImmediate (zoomPan c1)) then setCurrent (targetRef c1) c1
    else c1
  else
    if negb (isImmediate (zoomPan c)) then
      setTarget (stateTransform (zoomPan c)) c
    else c.

(** [step], the frame callback; [dt] is the time since the previous
    frame, in milliseconds. *)
Definition step (dt : R) (c : Component) : Component :=
  if gtb dt 100 then setRaf true c     (* skipped frame, rescheduled *)
  else
  let timeScale := dt / 16.667 in
  let target := targetRef c in
  let current := currentRef c in
  let velocity := velocityRef c in
  (* 1. momentum *)
  let '(target, velocity) :=
    if negb (isDragging c) && negb (isPinching c) then
      let friction := Math_pow 0.95 timeScale in
      if gtb (Math_abs (x velocity)) 0.05 || gtb (Math_abs (y velocity)) 0.05
      then ({| tscale := tscale target;
               tx := tx target + x velocity * timeScale;
               ty := ty target + y velocity * timeScale |},
            {| x := x velocity * friction; y := y velocity * friction |})
      else (target, {| x := 0; y := 0 |})
    else (target, velocity) in
  (* 2. interpolation *)
  let panFactor := 1 - Math_pow (1 - 0.12) timeScale in
  let zoomFactor := 1 - Math_pow (1 - 0.12) timeScale in
  let dx := tx target - tx current in
  let dy := ty target - ty current in
  let ds := tscale target - tscale current in
  let current := {| tscale := tscale current + ds * zoomFactor;
                    tx := tx current + dx * panFactor;
                    ty := ty current + dy * panFactor |} in
  let c1 := setCurrent current (setVelocity velocity (setTarget target c)) in
  (* 3. stop condition *)
  let isStillMoving :=
    gtb (Math_abs dx) 0.1 || gtb (Math_abs dy) 0.1 ||
    gtb (Math_abs ds) 0.0001 ||
    gtb (Math_abs (x velocity)) 0.1 || gtb (Math_abs (y velocity)) 0.1 in
  if isStillMoving || isDragging c || isPinching c then setRaf true c1
  else
    (* snap to target, then commit *)
    commitToState (setCurrent target (setRaf false c1)).

(** The browser runs the pending frame; when the frame commits, the effect
    on the React state runs after it. *)
Definition frame (dt : R) (c : Component) : Component :=
  if rafRef c then
    let c1 := step dt c in
    if rafRef c1 then c1 else zoomPanEffect c1
  else c.

(** [n] frames, each [dt] milliseconds after the previous one. *)
Fixpoint frames (dt : R) (n : nat) (c : Component) : Component :=
  match n with
  | O => c
  | S k => frames dt k (frame dt c)
  end.

Definition applyZoomToPoint (props : ZoomPanProps) (delta : R)
    (point : Point) (c : Component) : Component :=
  let prevScale := tscale (targetRef c) in
  let prevX := tx (targetRef c) in
  let prevY := ty (targetRef c) in
  let newScale := Math_min (maxScale props)
                    (Math_max (minScale props) (prevScale + delta)) in
  let ratio := newScale / prevScale in
  let newX := x point - (x point - prevX) * ratio in
  let newY := y point - (y point - prevY) * ratio in
  let c1 := setTarget {| tscale := newScale; tx := newX; ty := newY |} c in
  let c2 := startAnimation c1 in
  zoomPanEffect
    (setZoomPan {| scale := newScale; translateX := newX;
                   translateY := newY; isImmediate := false |} c2).

Definition zoomIn (props : ZoomPanProps) (dom : option Layout)
    (c : Component) : Component :=
  applyZoomToPoint props (zoomStep props) (getContainerCenter dom) c.

Definition zoomOut (props : ZoomPanProps) (dom : option Layout)
    (c : Component) : Component :=
  applyZoomToPoint props (- zoomStep props) (getContainerCenter dom) c.

(** [startAnimation] runs in the handler, the effect on the new state after
    it. *)
Definition resetZoom (props : ZoomPanProps) (c : Component) : Component :=
  let c1 := setTarget {| tscale := initialScale props; tx := 0; ty := 0 |} c in
  let c2 := setZoomPan {| scale := initialScale props; translateX := 0;
                          translateY := 0; isImmediate := false |} c1 in
  zoomPanEffect (startAnimation c2).

Definition centerView (props : ZoomPanProps) (dom : option Layout)
    (c : Component) : Component :=
  match dom with
  | None => c
  | Some l =>
    let currentScale := tscale (currentRef c) in
    let contentWidth := width (contentRect l) / currentScale in
    let contentHeight := height (contentRect l) / currentScale in
    let containerWidth := clientWidth l in
    let containerHeight := clientHeight l in
    if eqb contentWidth 0 || eqb contentHeight 0 then c
    else
      let padding := 40 in
      let availableWidth := containerWidth - padding in
      let availableHeight := containerHeight - padding in
      let scaleX := availableWidth / contentWidth in
      let scaleY := availableHeight / contentHeight in
      let fitScale := Math_min (maxScale props)
                        (Math_max (minScale props) (Math_min scaleX scaleY)) in
      let newX := (containerWidth - contentWidth * fitScale) / 2 in
      let newY := (containerHeight - contentHeight * fitScale) / 2 in
      let c1 := setTarget {| tscale := fitScale; tx := newX; ty := newY |} c in
      let c2 := setZoomPan {| scale := fitScale; translateX := newX;
                              translateY := newY; isImmediate := false |} c1 in
      zoomPanEffect (startAnimation c2)
  end.

Definition ZOOM_SENSITIVITY : R := 0.0015.

Definition wheelDelta (e : WheelEvent) : R :=
  let delta := deltaY e in
  let delta := if Nat.eqb (deltaMode e) 1 then delta * 40 else delta in
  let delta := if Nat.eqb (deltaMode e) 2 then delta * 800 else delta in
  delta.

Definition scaleFactor (e : WheelEvent) : R :=
  Math_exp (- wheelDelta e * ZOOM_SENSITIVITY).

Definition onWheel (props : ZoomPanProps) (l : Layout) (e : WheelEvent)
    (c : Component) : Component :=
  let mouseX := clientX e - left (containerRect l) in
  let mouseY := clientY e - top (containerRect l) in
  let target := targetRef c in
  let newScale := Math_min (maxScale props)
                    (Math_max (minScale props)
                       (tscale target * scaleFactor e)) in
  let ratio := newScale / tscale target in
  startAnimation
    (setTarget {| tscale := newScale;
                  tx := mouseX - (mouseX - tx target) * ratio;
                  ty := mouseY - (mouseY - ty target) * ratio |} c).

(** Mouse dragging: press, move to a pointer position, release. *)
Definition handleMouseDown (props : ZoomPanProps) (button : nat)
    (p : Point) (c : Component) : Component :=
  if isLoading props || (negb (Nat.eqb button 0) && negb (Nat.eqb button 1))
  then c
  else
    let c1 := setDragging true c in
    let c2 := setVelocity {| x := 0; y := 0 |} c1 in
    let c3 := setPanStart p {| x := tx (targetRef c2);
                               y := ty (targetRef c2) |} c2 in
    startAnimation (setLastInteraction p c3).

(** [a || b] on numbers: [b] when [a] is zero. *)
Definition orElse (a b : R) : R := if eqb a 0 then b else a.

(** [dt] is the time since the previous pointer event. *)
Definition handleWindowMouseMove (dt : R) (p : Point) (c : Component)
    : Component :=
  if negb (isDragging c) || isPinching c then c
  else
    let dx := x p - x (panStartRef c) in
    let dy := y p - y (panStartRef c) in
    let c1 :=
      if gtb dt 0 then
        let moveX := x p - orElse (x (lastInteractionTimeRef c)) (x p) in
        let moveY := y p - orElse (y (lastInteractionTimeRef c)) (y p) in
        setVelocity {| x := moveX * 0.5; y := moveY * 0.5 |} c
      else c in
    let c2 := setTarget {| tscale := tscale (targetRef c1);
                           tx := x (targetStartRef c1) + dx;
                           ty := y (targetStartRef c1) + dy |} c1 in
    startAnimation (setLastInteraction p c2).

Definition handleWindowMouseUp (c : Component) : Component :=
  if isDragging c then setDragging false c else c.

End Physics.

(** ** Third version of src/components/zoom-pan.tsx: bitmap canvas *)

Module Canvas.

(** The canvas element as the DOM reports it, and a loaded image. *)
Record CanvasElement : Type := mkCanvas {
  rect : DOMRect;
  clientWidth : R;
  clientHeight : R
}.

Record Image : Type := mkImage { imageWidth : R; imageHeight : R }.

(** The object held by [targetRef].  The initial centring stores one object
    in both refs ([targetRef.current = center; currentRef.current = center]);
    [Shared] records that [targetRef] holds the very object of
    [currentRef], so that a write through one is seen through the other. *)
Inductive TargetObject : Type :=
| Shared
| Own (t : Transform).

(** What [rafRef] holds: nothing, the one-shot frame of [updateImmediate],
    or a frame of the [updateSmooth] loop. *)
Inductive Pending : Type := NoFrame | ImmediateFrame | SmoothFrame.

Record Component : Type := mkComponent {
  currentRef : Transform;
  targetRef : TargetObject;
  isDragging : bool;
  isPinching : bool;
  panStartRef : Point;
  targetStartRef : Point;
  rafRef : Pending;
  hasCentered : bool;
  imageRef : option Image
}.

Definition mount (props : ZoomPanProps) : Component :=
  mkComponent {| tscale := initialScale props; tx := 0; ty := 0 |}
    (Own {| tscale := initialScale props; tx := 0; ty := 0 |})
    false false (mkPoint 0 0) (mkPoint 0 0) NoFrame false None.

(** Reading [targetRef.current]. *)
Definition target (c : Component) : Transform :=
  match targetRef c with
  | Shared => currentRef c
  | Own t => t
  end.

(** Assigning the fields of the object in [targetRef]. *)
Definition writeTarget (t : Transform) (c : Component) : Component :=
  match targetRef c with
  | Shared =>
      mkComponent t Shared (isDragging c) (isPinching c) (panStartRef c)
        (targetStartRef c) (rafRef c) (hasCentered c) (imageRef c)
  | Own _ =>
      mkComponent (currentRef c) (Own t) (isDragging c) (isPinching c)
        (panStartRef c) (targetStartRef c) (rafRef c) (hasCentered c)
        (imageRef c)
  end.

(** Assigning the fields of the object in [currentRef]. *)
Definition writeCurrent (t : Transform) (c : Component) : Component :=
  mkComponent t (targetRef c) (isDragging c) (isPinching c) (panStartRef c)
    (targetStartRef c) (rafRef c) (hasCentered c) (imageRef c).

(** [targetRef.current = obj] with a fresh object. *)
Definition setTargetRef (o : TargetObject) (c : Component) : Component :=
  mkComponent (currentRef c) o (isDragging c) (isPinching c) (panStartRef c)
    (targetStartRef c) (rafRef c) (hasCentered c) (imageRef c).

Definition setRaf (p : Pending) (c : Component) : Component :=
  mkComponent (currentRef c) (targetRef c) (isDragging c) (isPinching c)
    (panStartRef c) (targetStartRef c) p (hasCentered c) (imageRef c).

(** [updateImmediate] and [updateSmooth] cancel the pending frame and
    request their own. *)
Definition updateImmediate (c : Component) : Component :=
  setRaf ImmediateFrame c.

Definition updateSmooth (c : Component) : Component :=
  setRaf SmoothFrame c.

(** [loop], the frame callback of [updateSmooth]. *)
Definition loop (c : Component) : Component :=
  let tgt := target c in
  let current := currentRef c in
  let lerp := 0.3 in
  let dist_x := tx tgt - tx current in
  let dist_y := ty tgt - ty current in
  let dist_s := tscale tgt - tscale current in
  if ltb (Math_abs dist_x) 0.5 && ltb (Math_abs dist_y) 0.5 &&
     ltb (Math_abs dist_s) 0.001
  then setRaf NoFrame (writeCurrent tgt c)
  else
    setRaf SmoothFrame
      (writeCurrent {| tscale := tscale current + dist_s * lerp;
                       tx := tx current + dist_x * lerp;
                       ty := ty current + dist_y * lerp |} c).

(** The browser runs the pending frame, if there is one. *)
Definition frame (c : Component) : Component :=
  match rafRef c with
  | NoFrame => c
  | ImmediateFrame => setRaf NoFrame (writeCurrent (target c) c)
  | SmoothFrame => loop c
  end.

(** [applyZoom]; [container] is the bounding rect of the container, when
    it is mounted. *)
Definition applyZoom (props : ZoomPanProps) (container : option DOMRect)
    (delta : R) (c : Component) : Component :=
  let tgt := target c in
  match container with
  | None => c
  | Some r =>
    let centerX := width r / 2 in
    let centerY := height r / 2 in
    let newScale := Math_min (maxScale props)
                      (Math_max (minScale props) (tscale tgt + delta)) in
    let ratio := newScale / tscale tgt in
    updateSmooth
      (writeTarget {| tscale := newScale;
                      tx := centerX - (centerX - tx tgt) * ratio;
                      ty := centerY - (centerY - ty tgt) * ratio |} c)
  end.

Definition zoomIn (props : ZoomPanProps) (container : option DOMRect)
    (c : Component) : Component :=
  applyZoom props container (zoomStep props) c.

Definition zoomOut (props : ZoomPanProps) (container : option DOMRect)
    (c : Component) : Component :=
  applyZoom props container (- zoomStep props) c.

Definition resetZoom (props : ZoomPanProps) (c : Component) : Component :=
  updateSmooth
    (setTargetRef (Own {| tscale := initialScale props; tx := 0; ty := 0 |}) c).

(** [getCenterTransform]: the transform that shows the whole image at 90%
    of the canvas.  The divisions are those of the source on an image of
    non-zero width and height; for an image of width or height 0 JavaScript
    gives Infinity or NaN, which the real numbers used here do not
    represent. *)
Definition getCenterTransform (canvas : option CanvasElement)
    (image : option Image) : option Transform :=
  match canvas, image with
  | Some cv, Some img =>
      let scaleX := clientWidth cv / imageWidth img in
      let scaleY := clientHeight cv / imageHeight img in
      let s := Math_min scaleX scaleY * 0.9 in
      let cx := (clientWidth cv - imageWidth img * s) / 2 in
      let cy := (clientHeight cv - imageHeight img * s) / 2 in
      Some {| tscale := s; tx := cx; ty := cy |}
  | _, _ => None
  end.

Definition centerView (canvas : option CanvasElement) (c : Component)
    : Component :=
  match getCenterTransform canvas (imageRef c) with
  | None => c
  | Some center => updateSmooth (setTargetRef (Own center) c)
  end.

(** The [onload] handler of the image: stores the image and, when the
    canvas has a size, puts one centred transform object in both refs.  As
    for [getCenterTransform], the divisions are the source's on an image of
    non-zero width and height only. *)
Definition onImageLoad (canvas : option CanvasElement) (img : Image)
    (c : Component) : Component :=
  let loaded :=
    mkComponent (currentRef c) (targetRef c) (isDragging c) (isPinching c)
      (panStartRef c) (targetStartRef c) (rafRef c) (hasCentered c)
      (Some img) in
  match canvas with
  | Some cv =>
      if gtb (clientWidth cv) 0 && gtb (clientHeight cv) 0 then
        let scaleX := clientWidth cv / imageWidth img in
        let scaleY := clientHeight cv / imageHeight img in
        let s := Math_min scaleX scaleY * 0.9 in
        let cx := (clientWidth cv - imageWidth img * s) / 2 in
        let cy := (clientHeight cv - imageHeight img * s) / 2 in
        mkComponent {| tscale := s; tx := cx; ty := cy |} Shared
          (isDragging c) (isPinching c) (panStartRef c) (targetStartRef c)
          (rafRef c) true (Some img)
      else loaded
  | None => loaded
  end.

(** Mouse dragging on the canvas: only the primary button starts a drag.
    The target becomes a copy of the displayed transform. *)
Definition handleMouseDown (button : nat) (p : Point) (c : Component)
    : Component :=
  if negb (Nat.eqb button 0) then c
  else
    updateImmediate
      (mkComponent (currentRef c) (Own (currentRef c)) true (isPinching c)
         p {| x := tx (currentRef c); y := ty (currentRef c) |}
         (rafRef c) (hasCentered c) (imageRef c)).

Definition handleMouseMove (p : Point) (c : Component) : Component :=
  if negb (isDragging c) then c
  else
    let dx := x p - x (panStartRef c) in
    let dy := y p - y (panStartRef c) in
    updateImmediate
      (writeTarget {| tscale := tscale (target c);
                      tx := x (targetStartRef c) + dx;
                      ty := y (targetStartRef c) + dy |} c).

Definition handleMouseUp (c : Component) : Component :=
  mkComponent (currentRef c) (targetRef c) false (isPinching c) (panStartRef c)
    (targetStartRef c) (rafRef c) (hasCentered c) (imageRef c).

(** The callback of the [ResizeObserver]: the first time the container has a
    size and an image is loaded, one centred transform object goes to both
    refs. *)
Definition onResize (canvas : option CanvasElement) (w h : R)
    (c : Component) : Component :=
  match canvas with
  | None => c
  | Some cv =>
    if negb (hasCentered c) && gtb w 0 && gtb h 0 then
      match getCenterTransform (Some cv) (imageRef c) with
      | Some ctr =>
          mkComponent ctr Shared (isDragging c) (isPinching c) (panStartRef c)
            (targetStartRef c) (rafRef c) true (imageRef c)
      | None => c
      end
    else c
  end.

(** [n] animation frames. *)
Fixpoint frames (n : nat) (c : Component) : Component :=
  match n with
  | O => c
  | S k => frames k (frame c)
  end.

Definition ZOOM_SENSITIVITY : R := 0.0015.

(** Only the line mode is scaled here. *)
Definition wheelDelta (e : WheelEvent) : R :=
  let delta := deltaY e in
  let delta := if Nat.eqb (deltaMode e) 1 then delta * 40 else delta in
  delta.

Definition scaleFactor (e : WheelEvent) : R :=
  Math_exp (- wheelDelta e * ZOOM_SENSITIVITY).

Definition onWheel (props : ZoomPanProps) (cv : CanvasElement)
    (e : WheelEvent) (c : Component) : Component :=
  let mouseX := clientX e - left (rect cv) in
  let mouseY := clientY e - top (rect cv) in
  let current := currentRef c in
  let effectiveScale := Math_min (maxScale props)
                          (Math_max (minScale props)
                             (tscale current * scaleFactor e)) in
  let ratio := effectiveScale / tscale current in
  updateImmediate
    (writeTarget {| tscale := effectiveScale;
                    tx := mouseX - (mouseX - tx current) * ratio;
                    ty := mouseY - (mouseY - ty current) * ratio |} c).

End Canvas.

(** ** The standalone hook [useZoomPan] of the registry file *)

Module Hook.

(** The hook keeps only the React state; its bounds and step are literals. *)
Definition initial (initialScale : R) : ZoomPanState :=
  {| scale := initialScale; translateX := 0; translateY := 0;
     isImmediate := false |}.

Definition zoomIn (prev : ZoomPanState) : ZoomPanState :=
  {| scale := Math_min 5 (scale prev + 0.1);
     translateX := translateX prev; translateY := translateY prev;
     isImmediate := false |}.

Definition zoomOut (prev : ZoomPanState) : ZoomPanState :=
  {| scale := Math_max 0.1 (scale prev - 0.1);
     translateX := translateX prev; translateY := translateY prev;
     isImmediate := false |}.

Definition resetZoom (initialScale : R) (prev : ZoomPanState) : ZoomPanState :=
  initial initialScale.

Inductive Button : Type := ZoomIn | ZoomOut.

Definition press (b : Button) (s : ZoomPanState) : ZoomPanState :=
  match b with
  | ZoomIn => zoomIn s
  | ZoomOut => zoomOut s
  end.

Fixpoint pressAll (bs : list Button) (s : ZoomPanState) : ZoomPanState :=
  match bs with
  | [] => s
  | b :: rest => pressAll rest (press b s)
  end.

End Hook.

(** [Math.round]: the integer nearest to [a], halves rounded up. *)
Definition Math_round (a : R) : Z := (up (a + 0.5) - 1)%Z.

(** [scalePercent] as every version computes it. *)
Definition scalePercent (s : R) : Z := Math_round (s * 100).

(** ** Wheel zoom over JavaScript's extended numbers

    The scale computed by [onWheel], once more, over numbers that include
    [NaN] and the two infinities, with the rules of IEEE arithmetic and of
    [Math.min], [Math.max] and [Math.exp] on them.  Finite values are exact
    reals: rounding, overflow and underflow are not modelled. *)

Module JSNum.

Inductive num : Type :=
| NaN
| NegInf
| Fin (r : R)
| PosInf.

Inductive sign : Type := Neg | Zero | Pos.

Definition signR (r : R) : sign :=
  if Rlt_dec 0 r then Pos else if Rlt_dec r 0 then Neg else Zero.

Definition signOf (a : num) : sign :=
  match a with
  | NaN => Zero
  | NegInf => Neg
  | Fin r => signR r
  | PosInf => Pos
  end.

Definition signMul (s t : sign) : sign :=
  match s, t with
  | Zero, _ | _, Zero => Zero
  | Pos, Pos | Neg, Neg => Pos
  | _, _ => Neg
  end.

(** An infinity of the given sign; zero times infinity is [NaN]. *)
Definition inf (s : sign) : num :=
  match s with
  | Pos => PosInf
  | Neg => NegInf
  | Zero => NaN
  end.

Definition neg (a : num) : num :=
  match a with
  | NaN => NaN
  | NegInf => PosInf
  | Fin r => Fin (- r)
  | PosInf => NegInf
  end.

Definition mul (a b : num) : num :=
  match a, b with
  | NaN, _ | _, NaN => NaN
  | Fin p, Fin q => Fin (p * q)
  | _, _ => inf (signMul (signOf a) (signOf b))
  end.

Definition Math_exp (a : num) : num :=
  match a with
  | NaN => NaN
  | NegInf => Fin 0
  | Fin r => Fin (exp r)
  | PosInf => PosInf
  end.

(** [Math.max] and [Math.min] return [NaN] as soon as an argument is. *)
Definition Math_max (a b : num) : num :=
  match a, b with
  | NaN, _ | _, NaN => NaN
  | PosInf, _ | _, PosInf => PosInf
  | NegInf, c | c, NegInf => c
  | Fin p, Fin q => Fin (Rmax p q)
  end.

Definition Math_min (a b : num) : num :=
  match a, b with
  | NaN, _ | _, NaN => NaN
  | NegInf, _ | _, NegInf => NegInf
  | PosInf, c | c, PosInf => c
  | Fin p, Fin q => Fin (Rmin p q)
  end.

(** The normalised delta of the registry and of the first two component
    versions. *)
Definition wheelDelta (deltaY : num) (deltaMode : nat) : num :=
  let delta := deltaY in
  let delta := if Nat.eqb deltaMode 1 then mul delta (Fin 40) else delta in
  let delta := if Nat.eqb deltaMode 2 then mul delta (Fin 800) else delta in
  delta.

(** [prev.scale * scaleFactor] of [onWheel], for a given
    [ZOOM_SENSITIVITY]: the resulting scale before the clamp. *)
Definition rawScale (sensitivity : R) (prevScale deltaY : num)
    (deltaMode : nat) : num :=
  let scaleFactor :=
    Math_exp (mul (neg (wheelDelta deltaY deltaMode)) (Fin sensitivity)) in
  mul prevScale scaleFactor.

(** [newScale] of [onWheel]: the scale that is written. *)
Definition newScale (sensitivity : R) (props : ZoomPanProps)
    (prevScale deltaY : num) (deltaMode : nat) : num :=
  Math_min (Fin (maxScale props))
    (Math_max (Fin (minScale props))
       (rawScale sensitivity prevScale deltaY deltaMode)).

(** The written scale is a usable one: a real within the bounds. *)
Definition inBounds (props : ZoomPanProps) (a : num) : Prop :=
  match a with
  | Fin r => minScale props <= r <= maxScale props
  | _ => False
  end.

Definition isZeroOrNaN (a : num) : Prop :=
  match a with
  | NaN => True
  | Fin r => r = 0
  | _ => False
  end.

End JSNum.

(** ** Concrete inputs used by the examples below *)

Definition origin : Point := {| x := 0; y := 0 |}.

(** An 800 by 600 container at the top-left corner of the viewport, with a
    1000 by 500 content element. *)
Definition container800x600 : Registry.Container :=
  {| Registry.rect := {| left := 0; top := 0; width := 800; height := 600 |};
     Registry.clientWidth := 800;
     Registry.clientHeight := 600;
     Registry.firstElementChild := Some (1000, 500) |}.

(** The same content in a container that has no width yet. *)
Definition container0x600 : Registry.Container :=
  {| Registry.rect := {| left := 0; top := 0; width := 0; height := 600 |};
     Registry.clientWidth := 0;
     Registry.clientHeight := 600;
     Registry.firstElementChild := Some (1000, 500) |}.

(** A canvas of 800 by 600 and a rasterised diagram of 16000 by 12000. *)
Definition canvas800x600 : Canvas.CanvasElement :=
  {| Canvas.rect := {| left := 0; top := 0; width := 800; height := 600 |};
     Canvas.clientWidth := 800;
     Canvas.clientHeight := 600 |}.

Definition hugeImage : Canvas.Image :=
  {| Canvas.imageWidth := 16000; Canvas.imageHeight := 12000 |}.

(** The canvas component once [hugeImage] has loaded, before the canvas was
    laid out. *)
Definition canvasWithHugeImage : Canvas.Component :=
  Canvas.onImageLoad None hugeImage (Canvas.mount defaultProps).

(** ** Vocabulary of the statements *)





(** ** More concrete inputs *)

(** Two fingers land 100 pixels apart around the centre of the container,
    on a freshly mounted registry component. *)
Definition pinchStart100 : Registry.Component :=
  Registry.onTouchStart [ {| x := 350; y := 300 |}; {| x := 450; y := 300 |} ]
    (Registry.mount defaultProps).

(** The fingers, now 200 pixels apart around the same midpoint. *)
Definition touches200 : TouchList :=
  [ {| x := 300; y := 300 |}; {| x := 500; y := 300 |} ].

(** One notch of a mouse wheel, zooming in, at the centre of the container. *)
Definition wheelIn100 : WheelEvent :=
  {| clientX := 400; clientY := 300; deltaY := -100; deltaMode := 0 |}.

(** An 800 by 600 container whose content element has no width yet. *)
Definition containerEmptyContent : Registry.Container :=
  {| Registry.rect := {| left := 0; top := 0; width := 800; height := 600 |};
     Registry.clientWidth := 800;
     Registry.clientHeight := 600;
     Registry.firstElementChild := Some (0, 500) |}.

(** A wheel event in page mode (deltaMode 2): one page down. *)
Definition pageDown : WheelEvent :=
  {| clientX := 400; clientY := 300; deltaY := 1; deltaMode := 2 |}.

(** The default props with the upper bound raised to 10 and the initial
    scale to 8. *)
Definition deepZoomProps : ZoomPanProps :=
  {| minScale := 0.1; maxScale := 10; initialScale := 8; zoomStep := 0.1;
     isLoading := false |}.

(** The default props while the diagram is loading. *)
Definition loadingProps : ZoomPanProps :=
  {| minScale := 0.1; maxScale := 5; initialScale := 1; zoomStep := 0.1;
     isLoading := true |}.

(** The frame interval at which [timeScale] is 1. *)
Definition referenceFrameInterval : R := 16.667.

(** The speed of a velocity vector. *)
Definition speed (v : Point) : R := sqrt (x v * x v + y v * y v).

(** How far the target is ahead of the displayed transform, horizontally. *)
Definition lag (c : Loop.Component) : R :=
  tx (Loop.targetRef c) - tx (Loop.currentRef c).

(** No drag and no pinch is in progress. *)
Definition idle (c : Loop.Component) : Prop :=
  Loop.isDragging c = false /\ Loop.isPinching c = false.

(** The loop is running, no gesture is active, and the velocity is what [k]
    decays leave of (10, 0); the displayed transform trails the target. *)
Definition coastingAt (k : nat) (c : Loop.Component) : Prop :=
  Loop.rafRef c = true /\ idle c /\
  x (Loop.velocityRef c) = 10 * 0.95 ^ k /\
  y (Loop.velocityRef c) = 0 /\
  0 <= lag c /\
  ((1 <= k)%nat -> 0.9 * (10 * 0.95 ^ k) <= lag c) /\
  ((2 <= k)%nat -> 1.7 * (10 * 0.95 ^ k) <= lag c).

(** The loop has stopped on the transform [t]: no frame is pending, and the
    displayed transform, the target and the React state all equal [t]. *)
Definition settledAt (t : Transform) (c : Loop.Component) : Prop :=
  Loop.rafRef c = false /\
  Loop.currentRef c = t /\
  Loop.targetRef c = t /\
  stateTransform (Loop.zoomPan c) = t.

(** A drag released at ten pixels per frame to the right: the registry
    component and the physics version, each driven by its own handlers. *)
Definition flungRegistry : Registry.Component :=
  Registry.handleWindowMouseUp
    (Registry.handleWindowMouseMove 16 {| x := 11; y := 1 |}
       {| x := 10; y := 0 |}
       (Registry.handleMouseDown defaultProps 0 {| x := 1; y := 1 |}
          (Registry.mount defaultProps))).

Definition flungPhysics : Loop.Component :=
  Physics.handleWindowMouseUp
    (Physics.handleWindowMouseMove 16 {| x := 21; y := 1 |}
       (Physics.handleMouseDown defaultProps 0 {| x := 1; y := 1 |}
          (Loop.mount defaultProps))).

(** The 800 by 600 container with its 1000 by 500 content, as the component
    versions measure it. *)
Definition layout800x600 : Loop.Layout :=
  {| Loop.containerRect := {| left := 0; top := 0; width := 800; height := 600 |};
     Loop.clientWidth := 800;
     Loop.clientHeight := 600;
     Loop.contentRect := {| left := 0; top := 0; width := 1000; height := 500 |} |}.

(** A light trackpad scroll at the top-left corner of the container: a
    quarter of a pixel, zooming in. *)
Definition trackpadNudge : WheelEvent :=
  {| clientX := 0; clientY := 0; deltaY := -0.25; deltaMode := 0 |}.

(** A displayed coordinate that went from [before] to [after] has not moved
    away from the target coordinate [goal] nor past it. *)
Definition noOvershoot (goal before after : R) : Prop :=
  0 <= (goal - after) * (goal - before) /\
  Rabs (goal - after) <= Rabs (goal - before).
(** * Properties *)

(** ** Comparisons and the clamp *)

Lemma gtb_true (a b : R) : gtb a b = true <-> a > b.
Proof. unfold gtb. destruct (Rgt_dec a b); split; intros; try easy. Qed.

Lemma gtb_false (a b : R) : gtb a b = false <-> a <= b.
Proof.
  unfold gtb. destruct (Rgt_dec a b); split; intros; try easy; lra.
Qed.

Lemma ltb_true (a b : R) : ltb a b = true <-> a < b.
Proof. unfold ltb. destruct (Rlt_dec a b); split; intros; try easy. Qed.

Lemma ltb_false (a b : R) : ltb a b = false <-> b <= a.
Proof.
  unfold ltb. destruct (Rlt_dec a b); split; intros; try easy; lra.
Qed.

Lemma eqb_true (a b : R) : eqb a b = true <-> a = b.
Proof. unfold eqb. destruct (Req_dec_T a b); split; intros; try easy. Qed.

Lemma eqb_false (a b : R) : eqb a b = false <-> a <> b.
Proof. unfold eqb. destruct (Req_dec_T a b); split; intros; try easy. Qed.

(** Decides the comparisons, minima, maxima and absolute values of a goal
    by cases, innermost first, and closes the cases with linear arithmetic. *)
Ltac no_dec t :=
  lazymatch t with
  | context [Rle_dec _ _] => fail
  | context [Rgt_dec _ _] => fail
  | context [Rlt_dec _ _] => fail
  | context [Req_dec_T _ _] => fail
  | context [Rcase_abs _] => fail
  | _ => idtac
  end.

Ltac case_dec :=
  match goal with
  | |- context [Rle_dec ?a ?b] => no_dec a; no_dec b; destruct (Rle_dec a b)
  | |- context [Rgt_dec ?a ?b] => no_dec a; no_dec b; destruct (Rgt_dec a b)
  | |- context [Rlt_dec ?a ?b] => no_dec a; no_dec b; destruct (Rlt_dec a b)
  | |- context [Req_dec_T ?a ?b] => no_dec a; no_dec b; destruct (Req_dec_T a b)
  | |- context [Rcase_abs ?a] => no_dec a; destruct (Rcase_abs a)
  end.

Ltac cases_lra :=
  unfold clampScale, Math_min, Math_max, Math_abs, Rmin, Rmax, Rabs,
         gtb, ltb, eqb in *;
  simpl in *;
  repeat (case_dec; simpl in *; try lra);
  try lra.

Lemma clampScale_bounds (props : ZoomPanProps) (v : R) :
  minScale props <= maxScale props ->
  minScale props <= clampScale props v <= maxScale props.
Proof. intros H. cases_lra. Qed.

Lemma clampScale_id (props : ZoomPanProps) (v : R) :
  minScale props <= v <= maxScale props -> clampScale props v = v.
Proof. intros H. cases_lra. Qed.

Lemma clampScale_pos (props : ZoomPanProps) (v : R) :
  0 < minScale props -> minScale props <= maxScale props ->
  0 < clampScale props v.
Proof. intros H0 H. pose proof (clampScale_bounds props v H). lra. Qed.

(** ** Scale bounds at the write sites *)

Section ScaleBounds.
Variable props : ZoomPanProps.
Hypothesis bounds_ordered : minScale props <= maxScale props.

Let inRange (s : R) : Prop := minScale props <= s <= maxScale props.

Lemma Registry_applyZoomToPoint_in_range delta point c :
  inRange (scale (Registry.zoomPan (Registry.applyZoomToPoint props delta point c))).
Proof. apply clampScale_bounds, bounds_ordered. Qed.

Lemma Registry_press_in_range container b c :
  inRange (scale (Registry.zoomPan (Registry.press props container b c))).
Proof. destruct b; apply Registry_applyZoomToPoint_in_range. Qed.

(** Every state reached by a sequence of zoomIn and zoomOut calls from a
    scale within the bounds has its scale within the bounds. *)
Lemma Registry_pressAll_in_range container bs : forall c,
  inRange (scale (Registry.zoomPan c)) ->
  inRange (scale (Registry.zoomPan (Registry.pressAll props container bs c))).
Proof.
  induction bs as [|b rest IH]; intros c Hc; simpl.
  - exact Hc.
  - apply IH, Registry_press_in_range.
Qed.

Lemma Registry_onWheel_in_range el e c :
  inRange (scale (Registry.zoomPan (Registry.onWheel props el e c))).
Proof. apply clampScale_bounds, bounds_ordered. Qed.

(** A touch move writes either the snapshot scale (pan), a clamped scale
    (pinch), or nothing. *)
Lemma Registry_onTouchMove_in_range el e c st :
  Registry.touchStartRef c = Some st ->
  inRange (startScale st) ->
  inRange (scale (Registry.zoomPan c)) ->
  inRange (scale (Registry.zoomPan (Registry.onTouchMove props el e c))).
Proof.
  intros Hst Hs Hc. unfold Registry.onTouchMove. rewrite Hst.
  destruct e as [|t0 [|t1 [|t2 e]]]; try exact Hc.
  - destruct (touches st) as [|s0 [|s1 l]]; try exact Hc. exact Hs.
  - destruct (gtb (distance st) 0); try exact Hc.
    apply clampScale_bounds, bounds_ordered.
Qed.

Lemma Registry_centerView_in_range container c :
  inRange (scale (Registry.zoomPan c)) ->
  inRange (scale (Registry.zoomPan (Registry.centerView props container c))).
Proof.
  intros Hc. unfold Registry.centerView.
  destruct container as [el|]; try exact Hc.
  destruct (Registry.firstElementChild el) as [[w h]|]; try exact Hc.
  destruct (eqb w 0 || eqb h 0); try exact Hc.
  apply clampScale_bounds, bounds_ordered.
Qed.

Lemma Physics_applyZoomToPoint_in_range delta point c :
  inRange (tscale (Loop.targetRef (Physics.applyZoomToPoint props delta point c))).
Proof.
  unfold Physics.applyZoomToPoint, Physics.zoomPanEffect, Loop.startAnimation.
  simpl.
  destruct (Loop.rafRef c) eqn:E; simpl; rewrite ?E; simpl;
    apply clampScale_bounds, bounds_ordered.
Qed.

Lemma Physics_onWheel_in_range l e c :
  inRange (tscale (Loop.targetRef (Physics.onWheel props l e c))).
Proof.
  unfold Physics.onWheel, Loop.startAnimation. simpl.
  destruct (Loop.rafRef c); simpl; apply clampScale_bounds, bounds_ordered.
Qed.

Lemma Canvas_applyZoom_in_range r delta c :
  inRange (tscale (Canvas.target (Canvas.applyZoom props (Some r) delta c))).
Proof.
  unfold Canvas.applyZoom, Canvas.updateSmooth, Canvas.writeTarget,
    Canvas.target.
  destruct (Canvas.targetRef c); simpl; apply clampScale_bounds, bounds_ordered.
Qed.

Lemma Canvas_onWheel_in_range cv e c :
  inRange (tscale (Canvas.target (Canvas.onWheel props cv e c))).
Proof.
  unfold Canvas.onWheel, Canvas.updateImmediate, Canvas.writeTarget,
    Canvas.target.
  destruct (Canvas.targetRef c); simpl; apply clampScale_bounds, bounds_ordered.
Qed.

End ScaleBounds.

(** C1.  Button zoom, wheel zoom and pinch zoom clamp the scale they write,
    and so does fit-to-view in the registry; the canvas version's fit-to-view
    does not.  With the default props (minScale 0.1), [centerView] on an
    800 by 600 canvas showing a 16000 by 12000 image writes the scale 0.045,
    below [minScale], into the target; the next [zoomOut] then raises the
    scale to 0.1. *)
Theorem Canvas_centerView_writes_unclamped_scale :
  let c := Canvas.centerView (Some canvas800x600) canvasWithHugeImage in
  tscale (Canvas.target c) = 0.045 /\
  tscale (Canvas.target c) < minScale defaultProps /\
  tscale (Canvas.target (Canvas.zoomOut defaultProps
                           (Some (Canvas.rect canvas800x600)) c)) = 0.1.
Proof.
  simpl. repeat split; cases_lra.
Qed.

(** ** Anchored zoom *)





Lemma getTouchDistance_touches200 : getTouchDistance touches200 = 200.
Proof.
  unfold getTouchDistance, touches200, Math_sqrt. simpl.
  replace ((300 - 500) * (300 - 500) + (300 - 300) * (300 - 300))
    with (200 * 200) by lra.
  apply sqrt_square. lra.
Qed.

Lemma pinchStart100_snapshot :
  Registry.touchStartRef pinchStart100 =
  Some {| touches := [ {| x := 350; y := 300 |}; {| x := 450; y := 300 |} ];
          distance := 100;
          center := {| x := 400; y := 300 |};
          startScale := 1; startTranslateX := 0; startTranslateY := 0 |}.
Proof.
  unfold pinchStart100, Registry.onTouchStart. simpl.
  unfold getTouchDistance, Math_sqrt. simpl.
  replace ((350 - 450) * (350 - 450) + (300 - 300) * (300 - 300))
    with (100 * 100) by lra.
  rewrite sqrt_square by lra.
  replace ((350 + 450) / 2) with 400 by lra.
  replace ((300 + 300) / 2) with 300 by lra.
  reflexivity.
Qed.


(** ** Fit to view *)

Lemma Registry_centerView_fit props el w h c :
  Registry.firstElementChild el = Some (w, h) ->
  w <> 0 -> h <> 0 ->
  let fitScale :=
    clampScale props
      (Math_min ((Registry.clientWidth el - 40) / w)
                ((Registry.clientHeight el - 40) / h)) in
  Registry.zoomPan (Registry.centerView props (Some el) c) =
  {| scale := fitScale;
     translateX := (Registry.clientWidth el - w * fitScale) / 2;
     translateY := (Registry.clientHeight el - h * fitScale) / 2;
     isImmediate := false |}.
Proof.
  intros Hchild Hw Hh. unfold Registry.centerView. rewrite Hchild.
  apply eqb_false in Hw, Hh. rewrite Hw, Hh. reflexivity.
Qed.

(** C3, as stated: on the 800 by 600 container with 1000 by 500 content the
    horizontal offset is not 52. *)
Lemma Registry_centerView_example_not_52 :
  ~ (let s := Registry.zoomPan
                (Registry.centerView defaultProps (Some container800x600)
                   (Registry.mount defaultProps)) in
     scale s = 0.76 /\ translateX s = 52 /\ translateY s = 110).
Proof.
  rewrite (Registry_centerView_fit defaultProps container800x600 1000 500)
    by (try reflexivity; lra).
  simpl. intros (_ & H & _). revert H. cases_lra.
Qed.

(** C3, amended.  [centerView] of the registry computes
    fitScale = clamp(min((containerWidth - 40) / contentWidth,
    (containerHeight - 40) / contentHeight), minScale, maxScale) and the
    offset (containerSize - contentSize * fitScale) / 2 on each axis; for a
    container of 800 by 600 and content of 1000 by 500 with the default
    bounds this is fitScale = 0.76, offsetX = 20 and offsetY = 110. *)
Theorem Registry_centerView_fit_to_view :
  (forall props el w h c,
     Registry.firstElementChild el = Some (w, h) ->
     w <> 0 -> h <> 0 ->
     let fitScale :=
       clampScale props
         (Math_min ((Registry.clientWidth el - 40) / w)
                   ((Registry.clientHeight el - 40) / h)) in
     let s := Registry.zoomPan (Registry.centerView props (Some el) c) in
     scale s = fitScale /\
     translateX s = (Registry.clientWidth el - w * fitScale) / 2 /\
     translateY s = (Registry.clientHeight el - h * fitScale) / 2) /\
  (let s := Registry.zoomPan
              (Registry.centerView defaultProps (Some container800x600)
                 (Registry.mount defaultProps)) in
   scale s = 0.76 /\ translateX s = 20 /\ translateY s = 110).
Proof.
  split.
  - intros props el w h c Hchild Hw Hh fitScale s. subst s.
    rewrite (Registry_centerView_fit props el w h c Hchild Hw Hh).
    simpl. auto.
  - rewrite (Registry_centerView_fit defaultProps container800x600 1000 500)
      by (try reflexivity; lra).
    simpl. repeat split; cases_lra.
Qed.

Lemma Registry_centerView_fit_to_view_witness :
  let s := Registry.zoomPan
             (Registry.centerView defaultProps (Some container800x600)
                (Registry.mount defaultProps)) in
  scale s =
    clampScale defaultProps (Math_min ((800 - 40) / 1000) ((600 - 40) / 500)).
Proof.
  apply (proj1 Registry_centerView_fit_to_view defaultProps container800x600
           1000 500 (Registry.mount defaultProps)).
  - reflexivity.
  - lra.
  - lra.
Defined.

(** ** Pinch zoom *)

(** C7.  A pinch move with a snapshot whose start distance is positive writes
    the scale clamp(startScale * newDistance / startDistance, minScale,
    maxScale); the transform it writes is computed from the snapshot alone,
    whatever the state was just before the move; a pinch from distance 100
    to distance 200 with startScale 1 and bounds [0.1, 5] yields scale 2. *)
Theorem Registry_pinch_scale :
  (forall props el t0 t1 st c,
     Registry.touchStartRef c = Some st ->
     distance st > 0 ->
     scale (Registry.zoomPan (Registry.onTouchMove props el [t0; t1] c)) =
       clampScale props
         (startScale st * getTouchDistance [t0; t1] / distance st) /\
     (forall s',
        Registry.zoomPan
          (Registry.onTouchMove props el [t0; t1] (Registry.setZoomPan s' c)) =
        Registry.zoomPan (Registry.onTouchMove props el [t0; t1] c))) /\
  scale (Registry.zoomPan
           (Registry.onTouchMove defaultProps container800x600 touches200
              pinchStart100)) = 2.
Proof.
  assert (G : forall props el t0 t1 st c,
     Registry.touchStartRef c = Some st ->
     distance st > 0 ->
     scale (Registry.zoomPan (Registry.onTouchMove props el [t0; t1] c)) =
       clampScale props
         (startScale st * getTouchDistance [t0; t1] / distance st) /\
     (forall s',
        Registry.zoomPan
          (Registry.onTouchMove props el [t0; t1] (Registry.setZoomPan s' c)) =
        Registry.zoomPan (Registry.onTouchMove props el [t0; t1] c))).
  { intros props el t0 t1 st c Hst Hd. apply gtb_true in Hd. split.
    - unfold Registry.onTouchMove. rewrite Hst, Hd. simpl.
      unfold clampScale. do 2 f_equal. unfold Rdiv. ring.
    - intros s'. unfold Registry.onTouchMove. simpl. rewrite Hst, Hd.
      reflexivity. }
  split; [exact G|].
  destruct (G defaultProps container800x600 {| x := 300; y := 300 |}
              {| x := 500; y := 300 |} _ pinchStart100
              pinchStart100_snapshot) as [Hscale _].
  { simpl. lra. }
  unfold touches200. rewrite Hscale.
  change (getTouchDistance _) with (getTouchDistance touches200).
  rewrite getTouchDistance_touches200. clear. simpl. cases_lra.
Qed.

Lemma Registry_pinch_scale_witness :
  scale (Registry.zoomPan
           (Registry.onTouchMove defaultProps container800x600 touches200
              pinchStart100)) =
  clampScale defaultProps (1 * getTouchDistance touches200 / 100).
Proof.
  apply (proj1 Registry_pinch_scale defaultProps container800x600
           {| x := 300; y := 300 |} {| x := 500; y := 300 |}
           _ pinchStart100 pinchStart100_snapshot).
  simpl. lra.
Defined.

(** ** Round trip of the zoom buttons *)

Lemma clamp_inactive (props : ZoomPanProps) (v : R) :
  minScale props <= v <= maxScale props ->
  Math_min (maxScale props) (Math_max (minScale props) v) = v.
Proof. exact (clampScale_id props v). Qed.

Lemma Registry_zoomIn_zoomOut props container c :
  0 <= zoomStep props ->
  0 < scale (Registry.zoomPan c) ->
  minScale props <= scale (Registry.zoomPan c) ->
  scale (Registry.zoomPan c) + zoomStep props <= maxScale props ->
  let c' := Registry.zoomOut props container (Registry.zoomIn props container c) in
  scale (Registry.zoomPan c') = scale (Registry.zoomPan c) /\
  translateX (Registry.zoomPan c') = translateX (Registry.zoomPan c) /\
  translateY (Registry.zoomPan c') = translateY (Registry.zoomPan c).
Proof.
  intros Hz Hs Hmin Hmax.
  unfold Registry.zoomOut, Registry.zoomIn, Registry.applyZoomToPoint. simpl.
  set (s := scale (Registry.zoomPan c)) in *.
  set (z := zoomStep props) in *.
  rewrite (clamp_inactive props (s + z)) by lra.
  rewrite (clamp_inactive props (s + z + - z)) by lra.
  repeat split; try field; lra.
Qed.

(** A button zoom of the physics version: the clamped scale and the anchored
    offsets go to the target and to the React state, and a frame is pending. *)
Lemma Physics_applyZoomToPoint_eq props delta point c :
  Physics.applyZoomToPoint props delta point c =
  let newScale := clampScale props (tscale (Loop.targetRef c) + delta) in
  let ratio := newScale / tscale (Loop.targetRef c) in
  let newX := x point - (x point - tx (Loop.targetRef c)) * ratio in
  let newY := y point - (y point - ty (Loop.targetRef c)) * ratio in
  Loop.mkComponent
    {| scale := newScale; translateX := newX; translateY := newY;
       isImmediate := false |}
    (Loop.currentRef c)
    {| tscale := newScale; tx := newX; ty := newY |}
    (Loop.isDragging c) (Loop.isPinching c) (Loop.panStartRef c)
    (Loop.targetStartRef c) (Loop.velocityRef c)
    (Loop.lastInteractionTimeRef c) true.
Proof.
  destruct c as [zp cur tgt dr pi ps tsr v li raf].
  destruct raf; reflexivity.
Qed.

Lemma Physics_zoomIn_zoomOut props dom c :
  0 <= zoomStep props ->
  0 < tscale (Loop.targetRef c) ->
  minScale props <= tscale (Loop.targetRef c) ->
  tscale (Loop.targetRef c) + zoomStep props <= maxScale props ->
  let c' := Physics.zoomOut props dom (Physics.zoomIn props dom c) in
  Loop.targetRef c' = Loop.targetRef c /\
  stateTransform (Loop.zoomPan c') = Loop.targetRef c.
Proof.
  intros Hz Hs Hmin Hmax.
  unfold Physics.zoomOut, Physics.zoomIn.
  rewrite !Physics_applyZoomToPoint_eq. simpl.
  set (s := tscale (Loop.targetRef c)) in *.
  set (z := zoomStep props) in *.
  rewrite (clampScale_id props (s + z)) by lra.
  rewrite (clampScale_id props (s + z + - z)) by lra.
  unfold stateTransform. simpl.
  destruct (Loop.targetRef c) as [s0 x0 y0] eqn:Ht. subst s. simpl in *.
  split; f_equal; try field; lra.
Qed.

(** After the parent raises [maxScale] from 5 to 10 (and the initial scale
    to 8), the memoised [zoomIn] is replaced, its dependency [maxScale]
    having changed, while [zoomOut], memoised on [minScale, zoomStep], is
    the one of the first render and clamps at 5. *)
Lemma Registry_rerender_deepZoom :
  let r := Registry.rerender deepZoomProps (Registry.firstRender defaultProps) in
  Registry.currentProps r = deepZoomProps /\
  Registry.zoomInClosure r = deepZoomProps /\
  Registry.zoomOutClosure r = defaultProps.
Proof.
  cbv zeta. unfold Registry.rerender, Registry.firstRender.
  cbn [Registry.zoomInClosure Registry.zoomOutClosure Registry.currentProps].
  assert (E1 : eqb (maxScale deepZoomProps) (maxScale defaultProps) = false)
    by (apply eqb_false; simpl; lra).
  assert (E2 : eqb (minScale deepZoomProps) (minScale defaultProps) = true)
    by (apply eqb_true; reflexivity).
  assert (E3 : eqb (zoomStep deepZoomProps) (zoomStep defaultProps) = true)
    by (apply eqb_true; reflexivity).
  rewrite E1, E2, E3. repeat split.
Qed.

(** While no render has changed a bound or the step, both callbacks hold
    the props of the first render, and the round trip of the buttons is the
    one of [Registry_zoomIn_zoomOut]. *)
Lemma Registry_controls_round_trip_first_render props container c :
  0 <= zoomStep props ->
  0 < scale (Registry.zoomPan c) ->
  minScale props <= scale (Registry.zoomPan c) ->
  scale (Registry.zoomPan c) + zoomStep props <= maxScale props ->
  let r := Registry.firstRender props in
  let c' := Registry.controlsZoomOut r container
              (Registry.controlsZoomIn r container c) in
  scale (Registry.zoomPan c') = scale (Registry.zoomPan c) /\
  translateX (Registry.zoomPan c') = translateX (Registry.zoomPan c) /\
  translateY (Registry.zoomPan c') = translateY (Registry.zoomPan c).
Proof. exact (Registry_zoomIn_zoomOut props container c). Qed.

(** C10.  The round trip of the zoom buttons fails in the registry
    component once a bound has changed.  The component is mounted with the
    default props and rendered again with [maxScale] 10 and [initialScale]
    8; [resetZoom] puts the scale at 8, where 0.1 <= 8 and 8 + 0.1 <= 10, so
    that neither step should clamp.  [zoomIn], of the second render, gives
    8.1; [zoomOut], still the callback of the first render, clamps
    8.1 - 0.1 with the old upper bound and leaves (5, 150, 112.5), not the
    (8, 0, 0) from before the two presses. *)
Theorem Registry_round_trip_broken_by_stale_zoomOut :
  let r := Registry.rerender deepZoomProps (Registry.firstRender defaultProps) in
  let c := Registry.resetZoom (Registry.currentProps r)
             (Registry.mount defaultProps) in
  let c1 := Registry.controlsZoomIn r (Some container800x600) c in
  let c2 := Registry.controlsZoomOut r (Some container800x600) c1 in
  Registry.zoomPan c =
    {| scale := 8; translateX := 0; translateY := 0; isImmediate := false |} /\
  minScale (Registry.currentProps r) <= scale (Registry.zoomPan c) /\
  scale (Registry.zoomPan c) + zoomStep (Registry.currentProps r)
    <= maxScale (Registry.currentProps r) /\
  Registry.zoomPan c1 =
    {| scale := 8.1; translateX := -5; translateY := -3.75;
       isImmediate := false |} /\
  Registry.zoomPan c2 =
    {| scale := 5; translateX := 150; translateY := 112.5;
       isImmediate := false |} /\
  scale (Registry.zoomPan c2) <> scale (Registry.zoomPan c) /\
  translateX (Registry.zoomPan c2) <> translateX (Registry.zoomPan c) /\
  translateY (Registry.zoomPan c2) <> translateY (Registry.zoomPan c).
Proof.
  destruct Registry_rerender_deepZoom as (Hp & Hin & Hout).
  cbv zeta. unfold Registry.controlsZoomOut, Registry.controlsZoomIn.
  rewrite Hp, Hin, Hout.
  assert (Hc : Registry.zoomPan
                 (Registry.resetZoom deepZoomProps
                    (Registry.mount defaultProps)) =
               {| scale := 8; translateX := 0; translateY := 0;
                  isImmediate := false |}) by reflexivity.
  remember (Registry.resetZoom deepZoomProps (Registry.mount defaultProps))
    as c eqn:Ec.
  assert (S1 : clampScale deepZoomProps (8 + 0.1) = 8.1)
    by (rewrite clampScale_id; simpl; lra).
  assert (H1 : Registry.zoomPan
                 (Registry.zoomIn deepZoomProps (Some container800x600) c) =
               {| scale := 8.1; translateX := -5; translateY := -3.75;
                  isImmediate := false |}).
  { unfold Registry.zoomIn, Registry.applyZoomToPoint. cbn.
    rewrite Hc. cbn [scale translateX translateY].
    change (Math_min 10 (Math_max 0.1 (8 + 0.1)))
      with (clampScale deepZoomProps (8 + 0.1)).
    rewrite S1. f_equal; lra. }
  remember (Registry.zoomIn deepZoomProps (Some container800x600) c)
    as c1 eqn:Ec1.
  assert (S2 : clampScale defaultProps (8.1 + Ropp 0.1) = 5)
    by (unfold clampScale; cases_lra).
  assert (H2 : Registry.zoomPan
                 (Registry.zoomOut defaultProps (Some container800x600) c1) =
               {| scale := 5; translateX := 150; translateY := 112.5;
                  isImmediate := false |}).
  { unfold Registry.zoomOut, Registry.applyZoomToPoint. cbn.
    rewrite H1. cbn [scale translateX translateY].
    change (Math_min 5 (Math_max 0.1 (8.1 + Ropp 0.1)))
      with (clampScale defaultProps (8.1 + Ropp 0.1)).
    rewrite S2. f_equal; lra. }
  rewrite H2, H1, Hc. cbn [scale translateX translateY].
  refine (conj eq_refl (conj _ (conj _ (conj eq_refl (conj eq_refl
            (conj _ (conj _ _))))))); simpl; lra.
Qed.

(** ** Degenerate geometry *)

(** C9, as stated: a container of width zero does not make [centerView] a
    no-op.  With content of 1000 by 500 the freshly mounted component goes
    from scale 1 to scale 0.1. *)
Lemma Registry_centerView_zero_container_not_noop :
  Registry.clientWidth container0x600 = 0 /\
  Registry.centerView defaultProps (Some container0x600)
    (Registry.mount defaultProps) <> Registry.mount defaultProps.
Proof.
  split; [reflexivity|]. intros H.
  apply (f_equal (fun c => scale (Registry.zoomPan c))) in H.
  revert H.
  rewrite (Registry_centerView_fit defaultProps container0x600 1000 500)
    by (try reflexivity; lra).
  cases_lra.
Qed.

(** C9, amended.  When the measured content width or height is zero, or the
    container or its content element is missing, [centerView] of the registry
    returns before any division and leaves the component unchanged.  A
    container of width or height zero is not detected: with content of a
    positive size the only divisors are the content width and height, both
    non-zero, and [centerView] writes the clamped fit scale, which is
    [minScale] when 0 <= minScale <= maxScale, with the centring offsets. *)
Theorem Registry_centerView_degenerate_geometry props c :
  Registry.centerView props None c = c /\
  (forall el, Registry.firstElementChild el = None ->
     Registry.centerView props (Some el) c = c) /\
  (forall el w h,
     Registry.firstElementChild el = Some (w, h) ->
     w = 0 \/ h = 0 ->
     Registry.centerView props (Some el) c = c) /\
  (forall el w h,
     Registry.firstElementChild el = Some (w, h) ->
     0 < w -> 0 < h ->
     Registry.clientWidth el = 0 \/ Registry.clientHeight el = 0 ->
     0 <= minScale props <= maxScale props ->
     Registry.zoomPan (Registry.centerView props (Some el) c) =
     {| scale := minScale props;
        translateX := (Registry.clientWidth el - w * minScale props) / 2;
        translateY := (Registry.clientHeight el - h * minScale props) / 2;
        isImmediate := false |}).
Proof.
  split; [reflexivity|]. split; [|split].
  - intros el Hchild. unfold Registry.centerView. now rewrite Hchild.
  - intros el w h Hchild Hzero. unfold Registry.centerView. rewrite Hchild.
    destruct Hzero as [Hw|Hh].
    + apply eqb_true in Hw. now rewrite Hw.
    + apply eqb_true in Hh. rewrite Hh. now rewrite orb_true_r.
  - intros el w h Hchild Hw Hh Hzero Hb.
    rewrite (Registry_centerView_fit props el w h c Hchild) by lra.
    assert (E : clampScale props
                  (Math_min ((Registry.clientWidth el - 40) / w)
                            ((Registry.clientHeight el - 40) / h))
                = minScale props).
    { assert (Hneg : Math_min ((Registry.clientWidth el - 40) / w)
                              ((Registry.clientHeight el - 40) / h) < 0).
      { assert (Hiw : 0 < / w) by now apply Rinv_0_lt_compat.
        assert (Hih : 0 < / h) by now apply Rinv_0_lt_compat.
        unfold Math_min, Rdiv.
        destruct Hzero as [Hz|Hz]; rewrite Hz.
        - eapply Rle_lt_trans; [apply Rmin_l|]. nra.
        - eapply Rle_lt_trans; [apply Rmin_r|]. nra. }
      revert Hneg. generalize (Math_min ((Registry.clientWidth el - 40) / w)
                                 ((Registry.clientHeight el - 40) / h)).
      intros v Hv. cases_lra. }
    simpl. rewrite E. reflexivity.
Qed.

Lemma Registry_centerView_degenerate_geometry_witness :
  Registry.centerView defaultProps (Some containerEmptyContent)
    (Registry.mount defaultProps) = Registry.mount defaultProps /\
  scale (Registry.zoomPan
           (Registry.centerView defaultProps (Some container0x600)
              (Registry.mount defaultProps))) = 0.1.
Proof.
  destruct (Registry_centerView_degenerate_geometry defaultProps
              (Registry.mount defaultProps)) as (_ & _ & Hnoop & Hmin).
  split.
  - apply (Hnoop containerEmptyContent 0 500).
    + reflexivity.
    + left. reflexivity.
  - rewrite (Hmin container0x600 1000 500).
    + reflexivity.
    + reflexivity.
    + lra.
    + lra.
    + left. reflexivity.
    + simpl. lra.
Defined.

(** ** Wheel zoom *)

Lemma exp_mult_nat (n : nat) (a : R) : exp (INR n * a) = exp a ^ n.
Proof.
  induction n as [|n IH].
  - simpl. rewrite Rmult_0_l. apply exp_0.
  - rewrite S_INR, Rmult_plus_distr_r, Rmult_1_l, exp_plus, IH. simpl. ring.
Qed.

(** exp(0.2) is 1.221 to three decimals. *)
Lemma exp_one_fifth_bounds : 1.221 < exp 0.2 < 1.222.
Proof.
  replace 0.2 with (INR 128 * (1 / 640)) by (simpl; lra).
  rewrite exp_mult_nat.
  assert (Hlo : 1 + 1 / 640 < exp (1 / 640)) by (apply exp_ineq1; lra).
  assert (Hhi : exp (1 / 640) < 640 / 639).
  { assert (H : 1 + - (1 / 640) < exp (- (1 / 640))) by (apply exp_ineq1; lra).
    rewrite exp_Ropp in H.
    assert (Hpos : 0 < exp (1 / 640)) by apply exp_pos.
    assert (Hinv : exp (1 / 640) * / exp (1 / 640) = 1) by (field; lra).
    assert (Hipos : 0 < / exp (1 / 640)) by now apply Rinv_0_lt_compat.
    nra. }
  split.
  - apply Rlt_le_trans with ((1 + 1 / 640) ^ 128); [lra|].
    apply pow_incr. lra.
  - apply Rle_lt_trans with ((640 / 639) ^ 128); [|lra].
    apply pow_incr. pose proof (exp_pos (1 / 640)). lra.
Qed.

Lemma Registry_wheelDelta_modes e :
  Registry.wheelDelta e =
  match deltaMode e with
  | 1%nat => deltaY e * 40
  | 2%nat => deltaY e * 800
  | _ => deltaY e
  end.
Proof.
  unfold Registry.wheelDelta.
  destruct (deltaMode e) as [|[|[|m]]]; reflexivity.
Qed.

(** The wheel handler of the registry: line-mode deltas are multiplied by 40
    and page-mode deltas by 800, the scale is multiplied by
    exp(-delta * 0.002) and then clamped; one wheel notch of -100 in pixel
    mode from scale 1 gives exp(0.2), about 1.221, before and after the
    clamp. *)
Lemma Registry_wheel_zoom_response :
  (forall props el e c,
     scale (Registry.zoomPan (Registry.onWheel props el e c)) =
     clampScale props
       (scale (Registry.zoomPan c) *
        exp (- Registry.wheelDelta e * Registry.ZOOM_SENSITIVITY))) /\
  (forall e,
     Registry.wheelDelta e =
     match deltaMode e with
     | 1%nat => deltaY e * 40
     | 2%nat => deltaY e * 800
     | _ => deltaY e
     end) /\
  Registry.ZOOM_SENSITIVITY = 0.002 /\
  scale (Registry.zoomPan (Registry.mount defaultProps)) *
    Registry.scaleFactor wheelIn100 = exp 0.2 /\
  scale (Registry.zoomPan
           (Registry.onWheel defaultProps container800x600 wheelIn100
              (Registry.mount defaultProps))) = exp 0.2 /\
  1.221 < exp 0.2 < 1.222.
Proof.
  assert (E : scale (Registry.zoomPan (Registry.mount defaultProps)) *
              Registry.scaleFactor wheelIn100 = exp 0.2).
  { unfold Registry.scaleFactor, Registry.wheelDelta, Registry.ZOOM_SENSITIVITY,
      Math_exp. simpl. rewrite Rmult_1_l. f_equal. lra. }
  repeat split; try reflexivity; try apply exp_one_fifth_bounds.
  - apply Registry_wheelDelta_modes.
  - exact E.
  - unfold Registry.onWheel. simpl. simpl in E. rewrite E.
    apply (clamp_inactive defaultProps). pose proof exp_one_fifth_bounds.
    simpl. lra.
Qed.

(** C6.  The canvas version normalises the line mode only.  A page-mode
    wheel event (deltaMode 2) with deltaY = 1 gets the scale factor
    exp(-0.0015), as if it were one pixel, instead of exp(-800 * 0.0015):
    from scale 1 the scale written is exp(-0.0015), more than 0.998, while
    the page-mode normalisation of the other versions would give less than
    0.5. *)
Theorem Canvas_onWheel_page_mode_not_normalised :
  Canvas.wheelDelta pageDown = 1 /\
  Registry.wheelDelta pageDown = 800 /\
  Physics.wheelDelta pageDown = 800 /\
  tscale (Canvas.target
            (Canvas.onWheel defaultProps canvas800x600 pageDown
               (Canvas.mount defaultProps))) = exp (- 0.0015) /\
  0.998 < exp (- 0.0015) /\
  exp (- (800 * 0.0015)) < 0.5.
Proof.
  assert (Hlo : 0.998 < exp (- 0.0015)).
  { pose proof (exp_ineq1 (- 0.0015)). lra. }
  assert (Hhi : exp (- 0.0015) < 1).
  { rewrite <- exp_0. apply exp_increasing. lra. }
  assert (Hw : tscale (Canvas.target
            (Canvas.onWheel defaultProps canvas800x600 pageDown
               (Canvas.mount defaultProps))) = exp (- 0.0015)).
  { unfold Canvas.onWheel, Canvas.scaleFactor, Canvas.wheelDelta,
      Canvas.ZOOM_SENSITIVITY, Math_exp. simpl.
    match goal with
    | |- context [exp ?a] => replace a with (- 0.0015) by lra
    end.
    rewrite Rmult_1_l. apply (clamp_inactive defaultProps). simpl. lra. }
  refine (conj _ (conj _ (conj _ (conj Hw (conj Hlo _))))).
  - unfold Canvas.wheelDelta. simpl. lra.
  - unfold Registry.wheelDelta. simpl. lra.
  - unfold Physics.wheelDelta. simpl. lra.
  - rewrite exp_Ropp.
    assert (H : 1 + 800 * 0.0015 < exp (800 * 0.0015))
      by (apply exp_ineq1; lra).
    assert (Hpos : 0 < exp (800 * 0.0015)) by apply exp_pos.
    assert (Hinv : exp (800 * 0.0015) * / exp (800 * 0.0015) = 1)
      by (field; lra).
    assert (Hipos : 0 < / exp (800 * 0.0015)) by now apply Rinv_0_lt_compat.
    nra.
Qed.

(** ** Wheel zoom on NaN and infinite deltas *)

Lemma signR_pos (r : R) : 0 < r -> JSNum.signR r = JSNum.Pos.
Proof.
  intros H. unfold JSNum.signR. destruct (Rlt_dec 0 r); [reflexivity|lra].
Qed.

Lemma JSNum_wheelDelta_PosInf mode :
  JSNum.wheelDelta JSNum.PosInf mode = JSNum.PosInf.
Proof.
  unfold JSNum.wheelDelta.
  destruct mode as [|[|[|m]]]; simpl; rewrite ?signR_pos by lra; reflexivity.
Qed.

Lemma JSNum_wheelDelta_NegInf mode :
  JSNum.wheelDelta JSNum.NegInf mode = JSNum.NegInf.
Proof.
  unfold JSNum.wheelDelta.
  destruct mode as [|[|[|m]]]; simpl; rewrite ?signR_pos by lra; reflexivity.
Qed.

Lemma JSNum_wheelDelta_Fin d mode :
  JSNum.wheelDelta (JSNum.Fin d) mode =
  JSNum.Fin (Registry.wheelDelta
               {| clientX := 0; clientY := 0; deltaY := d; deltaMode := mode |}).
Proof.
  unfold JSNum.wheelDelta, Registry.wheelDelta.
  destruct mode as [|[|[|m]]]; reflexivity.
Qed.

(** On finite numbers the extended model computes what the real-number
    model of the handlers computes. *)
Lemma JSNum_newScale_finite sens props s d mode :
  JSNum.newScale sens props (JSNum.Fin s) (JSNum.Fin d) mode =
  JSNum.Fin
    (clampScale props
       (s * exp (- Registry.wheelDelta
                     {| clientX := 0; clientY := 0; deltaY := d;
                        deltaMode := mode |} * sens))).
Proof.
  unfold JSNum.newScale, JSNum.rawScale. rewrite JSNum_wheelDelta_Fin.
  reflexivity.
Qed.

Lemma JSNum_newScale_Registry props el e c :
  JSNum.newScale Registry.ZOOM_SENSITIVITY props
    (JSNum.Fin (scale (Registry.zoomPan c))) (JSNum.Fin (deltaY e))
    (deltaMode e) =
  JSNum.Fin (scale (Registry.zoomPan (Registry.onWheel props el e c))).
Proof.
  rewrite JSNum_newScale_finite. reflexivity.
Qed.

Lemma JSNum_newScale_Physics props l e c :
  JSNum.newScale Physics.ZOOM_SENSITIVITY props
    (JSNum.Fin (tscale (Loop.targetRef c))) (JSNum.Fin (deltaY e))
    (deltaMode e) =
  JSNum.Fin (tscale (Loop.targetRef (Physics.onWheel props l e c))).
Proof.
  rewrite JSNum_newScale_finite.
  unfold Physics.onWheel, Loop.startAnimation. simpl.
  destruct (Loop.rafRef c); reflexivity.
Qed.

(** C8, as stated: a wheel event whose deltaY is NaN has a NaN resulting
    scale, and NaN is what the handler writes. *)
Lemma wheel_NaN_is_not_rejected :
  JSNum.isZeroOrNaN
    (JSNum.rawScale Registry.ZOOM_SENSITIVITY (JSNum.Fin 1) JSNum.NaN 0) /\
  ~ JSNum.inBounds defaultProps
      (JSNum.newScale Registry.ZOOM_SENSITIVITY defaultProps (JSNum.Fin 1)
         JSNum.NaN 0).
Proof.
  split.
  - exact I.
  - intros H. exact H.
Qed.

(** C8, amended.  With 0 < minScale <= maxScale and a positive sensitivity
    (0.002 in the registry, 0.0015 in the physics version), a wheel event
    whose deltaY is not NaN, be it finite or infinite, on a finite positive
    previous scale writes a real scale within [minScale, maxScale], hence
    neither zero nor NaN: a zero product (deltaY = +Infinity) is clamped up
    to minScale and an infinite one (deltaY = -Infinity) down to maxScale.
    A NaN deltaY or a NaN previous scale is not rejected: [Math.max] and
    [Math.min] return NaN and NaN is written. *)
Theorem wheel_clamp_on_extended_numbers sens props :
  0 < sens ->
  0 < minScale props <= maxScale props ->
  (forall s deltaY mode,
     0 < s -> deltaY <> JSNum.NaN ->
     JSNum.inBounds props
       (JSNum.newScale sens props (JSNum.Fin s) deltaY mode) /\
     ~ JSNum.isZeroOrNaN
         (JSNum.newScale sens props (JSNum.Fin s) deltaY mode)) /\
  (forall s mode,
     0 < s ->
     JSNum.rawScale sens (JSNum.Fin s) JSNum.PosInf mode = JSNum.Fin 0 /\
     JSNum.newScale sens props (JSNum.Fin s) JSNum.PosInf mode =
       JSNum.Fin (minScale props) /\
     JSNum.newScale sens props (JSNum.Fin s) JSNum.NegInf mode =
       JSNum.Fin (maxScale props)) /\
  (forall prev mode,
     JSNum.newScale sens props prev JSNum.NaN mode = JSNum.NaN) /\
  (forall deltaY mode,
     JSNum.newScale sens props JSNum.NaN deltaY mode = JSNum.NaN).
Proof.
  intros Hsens Hb.
  assert (Hinf : forall s mode, 0 < s ->
     JSNum.rawScale sens (JSNum.Fin s) JSNum.PosInf mode = JSNum.Fin 0 /\
     JSNum.newScale sens props (JSNum.Fin s) JSNum.PosInf mode =
       JSNum.Fin (minScale props) /\
     JSNum.newScale sens props (JSNum.Fin s) JSNum.NegInf mode =
       JSNum.Fin (maxScale props)).
  { intros s mode Hs.
    unfold JSNum.newScale, JSNum.rawScale.
    rewrite JSNum_wheelDelta_PosInf, JSNum_wheelDelta_NegInf. simpl.
    rewrite !signR_pos by lra. simpl.
    rewrite Rmult_0_r. repeat split; f_equal.
    - rewrite Rmax_left by lra. apply Rmin_right. lra. }
  assert (Hfin : forall s d mode,
     JSNum.inBounds props
       (JSNum.newScale sens props (JSNum.Fin s) (JSNum.Fin d) mode)).
  { intros s d mode. rewrite JSNum_newScale_finite. simpl.
    apply clampScale_bounds. lra. }
  assert (Hin : forall s deltaY mode, 0 < s -> deltaY <> JSNum.NaN ->
     JSNum.inBounds props
       (JSNum.newScale sens props (JSNum.Fin s) deltaY mode)).
  { intros s deltaY mode Hs HN.
    destruct deltaY as [| |d|]; [congruence| | apply Hfin |].
    - destruct (Hinf s mode Hs) as (_ & _ & E). rewrite E. simpl. lra.
    - destruct (Hinf s mode Hs) as (_ & E & _). rewrite E. simpl. lra. }
  split; [|split; [exact Hinf|split]].
  - intros s deltaY mode Hs HN. split; [now apply Hin|].
    pose proof (Hin s deltaY mode Hs HN) as H.
    destruct (JSNum.newScale sens props (JSNum.Fin s) deltaY mode);
      simpl in *; try tauto. lra.
  - intros prev mode. unfold JSNum.newScale, JSNum.rawScale, JSNum.wheelDelta.
    destruct mode as [|[|[|m]]]; destruct prev; reflexivity.
  - intros deltaY mode. unfold JSNum.newScale, JSNum.rawScale. reflexivity.
Qed.

Lemma wheel_clamp_on_extended_numbers_witness :
  JSNum.inBounds defaultProps
    (JSNum.newScale Registry.ZOOM_SENSITIVITY defaultProps (JSNum.Fin 1)
       JSNum.PosInf 0).
Proof.
  assert (Hsens : 0 < Registry.ZOOM_SENSITIVITY)
    by (unfold Registry.ZOOM_SENSITIVITY; lra).
  assert (Hb : 0 < minScale defaultProps <= maxScale defaultProps)
    by (simpl; lra).
  apply (proj1 (wheel_clamp_on_extended_numbers Registry.ZOOM_SENSITIVITY
                  defaultProps Hsens Hb) 1 JSNum.PosInf 0%nat).
  - lra.
  - discriminate.
Defined.

(** ** The physics loop at the reference frame rate *)

Lemma timeScale_reference : referenceFrameInterval / 16.667 = 1.
Proof. unfold referenceFrameInterval. lra. Qed.

Lemma friction_reference : Math_pow 0.95 1 = 0.95.
Proof. unfold Math_pow. apply Rpower_1. lra. Qed.

Lemma lerp_reference : 1 - Math_pow (1 - 0.12) 1 = 0.12.
Proof. unfold Math_pow. rewrite Rpower_1 by lra. lra. Qed.

(** One frame of the physics loop, [referenceFrameInterval] after the
    previous one, while no gesture is active. *)
Lemma Physics_step_idle c :
  Loop.isDragging c = false ->
  Loop.isPinching c = false ->
  Physics.step referenceFrameInterval c =
  let v := Loop.velocityRef c in
  let coasting := gtb (Math_abs (x v)) 0.05 || gtb (Math_abs (y v)) 0.05 in
  let target :=
    if coasting then
      {| tscale := tscale (Loop.targetRef c);
         tx := tx (Loop.targetRef c) + x v * 1;
         ty := ty (Loop.targetRef c) + y v * 1 |}
    else Loop.targetRef c in
  let velocity :=
    if coasting then {| x := x v * 0.95; y := y v * 0.95 |}
    else {| x := 0; y := 0 |} in
  let dx := tx target - tx (Loop.currentRef c) in
  let dy := ty target - ty (Loop.currentRef c) in
  let ds := tscale target - tscale (Loop.currentRef c) in
  let current :=
    {| tscale := tscale (Loop.currentRef c) + ds * 0.12;
       tx := tx (Loop.currentRef c) + dx * 0.12;
       ty := ty (Loop.currentRef c) + dy * 0.12 |} in
  let isStillMoving :=
    gtb (Math_abs dx) 0.1 || gtb (Math_abs dy) 0.1 ||
    gtb (Math_abs ds) 0.0001 ||
    gtb (Math_abs (x velocity)) 0.1 || gtb (Math_abs (y velocity)) 0.1 in
  if isStillMoving then
    Loop.mkComponent (Loop.zoomPan c) current target false false
      (Loop.panStartRef c) (Loop.targetStartRef c) velocity
      (Loop.lastInteractionTimeRef c) true
  else
    Loop.mkComponent
      {| scale := tscale target; translateX := tx target;
         translateY := ty target;
         isImmediate := isImmediate (Loop.zoomPan c) |}
      target target false false
      (Loop.panStartRef c) (Loop.targetStartRef c) velocity
      (Loop.lastInteractionTimeRef c) false.
Proof.
  destruct c as [zp cur tgt dr pi ps tsr v li raf]. simpl.
  intros -> ->. unfold Physics.step.
  assert (Hdt : gtb referenceFrameInterval 100 = false)
    by (apply gtb_false; unfold referenceFrameInterval; lra).
  rewrite Hdt, timeScale_reference, friction_reference, lerp_reference.
  cbn [Loop.isDragging Loop.isPinching Loop.velocityRef Loop.targetRef
       Loop.currentRef negb andb].
  destruct (gtb (Math_abs (x v)) 0.05 || gtb (Math_abs (y v)) 0.05);
    cbv zeta; cbn [orb];
    match goal with
    | |- (if ?b || false || false then _ else _) = _ => destruct b
    end; reflexivity.
Qed.

(** ** Momentum decay *)

Lemma pow_095_decreasing (m n : nat) : (m <= n)%nat -> 0.95 ^ n <= 0.95 ^ m.
Proof.
  induction 1 as [|n Hle IH].
  - lra.
  - simpl. assert (0 < 0.95 ^ n) by (apply pow_lt; lra). lra.
Qed.

Lemma pow_095_pos (n : nat) : 0 < 0.95 ^ n.
Proof. apply pow_lt. lra. Qed.

(** The velocity after [k] decays is above the epsilon exactly for
    [k <= 103]. *)
Lemma coasting_above_epsilon (k : nat) : (k <= 103)%nat -> 0.05 < 10 * 0.95 ^ k.
Proof.
  intros Hk. pose proof (pow_095_decreasing k 103 Hk).
  assert (0.05 < 10 * 0.95 ^ 103) by lra. lra.
Qed.

Lemma coasting_below_epsilon : 10 * 0.95 ^ 104 < 0.05.
Proof. lra. Qed.

Lemma Rabs_pos_id (a : R) : 0 <= a -> Math_abs a = a.
Proof. intros H. unfold Math_abs. apply Rabs_right. lra. Qed.

Lemma speed_horizontal (v : Point) : 0 <= x v -> y v = 0 -> speed v = x v.
Proof.
  intros Hx Hy. unfold speed. rewrite Hy, Rmult_0_l, Rplus_0_r.
  now apply sqrt_square.
Qed.

(** *** The momentum loop of the registry *)

(** One frame while the horizontal velocity is at least the epsilon. *)
Lemma Registry_frame_coasting c :
  Registry.rafRef c = true ->
  0.05 <= x (Registry.velocityRef c) ->
  let c' := Registry.frame c in
  Registry.rafRef c' = true /\
  x (Registry.velocityRef c') = x (Registry.velocityRef c) * 0.95 /\
  y (Registry.velocityRef c') = y (Registry.velocityRef c) * 0.95 /\
  scale (Registry.zoomPan c') = scale (Registry.zoomPan c) /\
  translateX (Registry.zoomPan c') =
    translateX (Registry.zoomPan c) + x (Registry.velocityRef c) /\
  translateY (Registry.zoomPan c') =
    translateY (Registry.zoomPan c) + y (Registry.velocityRef c).
Proof.
  intros Hraf Hv. unfold Registry.frame. rewrite Hraf. unfold Registry.step.
  assert (E : ltb (Math_abs (x (Registry.velocityRef c))) 0.05 = false).
  { apply ltb_false. rewrite Rabs_pos_id; lra. }
  rewrite E. simpl. repeat split.
Qed.

(** One frame once both velocity components are below the epsilon: the loop
    returns, and nothing but the pending-frame flag changes. *)
Lemma Registry_frame_stops c :
  Registry.rafRef c = true ->
  Math_abs (x (Registry.velocityRef c)) < 0.05 ->
  Math_abs (y (Registry.velocityRef c)) < 0.05 ->
  Registry.frame c = Registry.setRaf false c.
Proof.
  intros Hraf Hx Hy. unfold Registry.frame. rewrite Hraf. unfold Registry.step.
  apply ltb_true in Hx, Hy. now rewrite Hx, Hy.
Qed.

Lemma Registry_frames_stopped n c :
  Registry.rafRef c = false -> Registry.frames n c = c.
Proof.
  intros H. induction n as [|n IH]; simpl.
  - reflexivity.
  - unfold Registry.frame. rewrite H. exact IH.
Qed.

Lemma Registry_frames_add m n c :
  Registry.frames (m + n) c = Registry.frames n (Registry.frames m c).
Proof.
  revert c. induction m as [|m IH]; intros c; simpl.
  - reflexivity.
  - apply IH.
Qed.

Lemma Registry_frames_S n c :
  Registry.frames (S n) c = Registry.frame (Registry.frames n c).
Proof.
  replace (S n) with (n + 1)%nat by lia. now rewrite Registry_frames_add.
Qed.

(** The state after [n <= 104] frames of coasting from velocity (10, 0). *)
Lemma Registry_coasting_frames c n :
  Registry.rafRef c = true ->
  x (Registry.velocityRef c) = 10 ->
  y (Registry.velocityRef c) = 0 ->
  (n <= 104)%nat ->
  let c' := Registry.frames n c in
  Registry.rafRef c' = true /\
  x (Registry.velocityRef c') = 10 * 0.95 ^ n /\
  y (Registry.velocityRef c') = 0 /\
  translateX (Registry.zoomPan c') =
    translateX (Registry.zoomPan c) + 200 * (1 - 0.95 ^ n).
Proof.
  intros Hraf Hx Hy. induction n as [|n IH]; intros Hn.
  - simpl. repeat split; try assumption; lra.
  - destruct IH as (Iraf & Ix & Iy & It); [lia|].
    cbv zeta. rewrite Registry_frames_S.
    destruct (Registry_frame_coasting (Registry.frames n c) Iraf)
      as (Fraf & Fx & Fy & _ & Ft & _).
    { rewrite Ix. assert (Hk : (n <= 103)%nat) by lia.
      pose proof (coasting_above_epsilon n Hk). lra. }
    repeat split.
    + exact Fraf.
    + rewrite Fx, Ix. simpl. lra.
    + rewrite Fy, Iy. lra.
    + rewrite Ft, It, Ix. simpl. lra.
Qed.

(** *** The momentum step of the physics loop *)

(** Turns boolean tests in the hypotheses into comparisons. *)
Ltac bool_hyps :=
  repeat match goal with
         | H : _ || _ = false |- _ => apply orb_false_iff in H; destruct H
         | H : _ && _ = true |- _ => apply andb_true_iff in H; destruct H
         | H : gtb _ _ = false |- _ => apply gtb_false in H
         | H : gtb _ _ = true |- _ => apply gtb_true in H
         | H : ltb _ _ = false |- _ => apply ltb_false in H
         | H : ltb _ _ = true |- _ => apply ltb_true in H
         end.

(** Splits the absolute values of the context and of the goal by sign. *)
Ltac abs_lra :=
  unfold Math_abs, Rabs in *;
  repeat match goal with
         | H : context [Rcase_abs ?a] |- _ => destruct (Rcase_abs a)
         | |- context [Rcase_abs ?a] => destruct (Rcase_abs a)
         end;
  lra.

Lemma Physics_frames_add dt m n c :
  Physics.frames dt (m + n) c = Physics.frames dt n (Physics.frames dt m c).
Proof.
  revert c. induction m as [|m IH]; intros c; simpl.
  - reflexivity.
  - apply IH.
Qed.

Lemma Physics_frames_S dt n c :
  Physics.frames dt (S n) c = Physics.frame dt (Physics.frames dt n c).
Proof.
  replace (S n) with (n + 1)%nat by lia. now rewrite Physics_frames_add.
Qed.

Lemma Physics_frames_stopped dt n c :
  Loop.rafRef c = false -> Physics.frames dt n c = c.
Proof.
  intros H. induction n as [|n IH]; simpl.
  - reflexivity.
  - unfold Physics.frame. rewrite H. exact IH.
Qed.

(** A coasting frame: the target advances by the velocity, the velocity
    decays by the friction, and the loop reschedules itself. *)
Lemma Physics_frame_coasting k c :
  (k <= 103)%nat ->
  coastingAt k c ->
  let c' := Physics.frame referenceFrameInterval c in
  coastingAt (S k) c' /\
  tx (Loop.targetRef c') = tx (Loop.targetRef c) + 10 * 0.95 ^ k.
Proof.
  intros Hk (Hraf & (Hdr & Hpi) & Hx & Hy & Hlag0 & Hlag1 & Hlag2).
  pose proof (coasting_above_epsilon k Hk) as Hv.
  pose proof (pow_095_pos k) as Hpos.
  unfold lag in *.
  assert (Hstep : exists cur,
    Physics.step referenceFrameInterval c =
    Loop.mkComponent (Loop.zoomPan c) cur
      {| tscale := tscale (Loop.targetRef c);
         tx := tx (Loop.targetRef c) + x (Loop.velocityRef c) * 1;
         ty := ty (Loop.targetRef c) + y (Loop.velocityRef c) * 1 |}
      false false (Loop.panStartRef c) (Loop.targetStartRef c)
      {| x := x (Loop.velocityRef c) * 0.95;
         y := y (Loop.velocityRef c) * 0.95 |}
      (Loop.lastInteractionTimeRef c) true /\
    tx cur = tx (Loop.currentRef c) +
             (tx (Loop.targetRef c) + x (Loop.velocityRef c) * 1 -
              tx (Loop.currentRef c)) * 0.12).
  { rewrite (Physics_step_idle c Hdr Hpi). cbv zeta.
    assert (E : gtb (Math_abs (x (Loop.velocityRef c))) 0.05 = true).
    { apply gtb_true. rewrite Hx. rewrite Rabs_pos_id; lra. }
    rewrite E. cbn [orb tx ty tscale x y].
    match goal with
    | |- exists _, (if ?b then _ else _) = _ /\ _ => destruct b eqn:Hmoving
    end.
    - eexists. split; [reflexivity|]. reflexivity.
    - exfalso. bool_hyps. rewrite Hx in *.
      destruct (le_lt_dec 2 k) as [Hk2|Hk2].
      + specialize (Hlag2 Hk2). abs_lra.
      + assert (Hnine : 9 <= 10 * 0.95 ^ k).
        { destruct k as [|[|k]]; simpl; try lra. lia. }
        abs_lra. }
  destruct Hstep as (cur & Hstep & Hcur).
  cbv zeta. unfold Physics.frame. rewrite Hraf, Hstep.
  cbn [Loop.rafRef]. unfold coastingAt, idle, lag.
  cbn [Loop.rafRef Loop.isDragging Loop.isPinching Loop.velocityRef
       Loop.targetRef Loop.currentRef tx x y].
  rewrite Hcur, Hx, Hy. simpl pow.
  repeat split; try lra.
  intros Hk2. assert (Hk1 : (1 <= k)%nat) by lia.
  specialize (Hlag1 Hk1). lra.
Qed.

Lemma Transform_eta (t : Transform) :
  {| tscale := tscale t; tx := tx t; ty := ty t |} = t.
Proof. destruct t; reflexivity. Qed.

(** The state after [n <= 104] coasting frames. *)
Lemma Physics_coasting_frames c n :
  coastingAt 0 c ->
  (n <= 104)%nat ->
  let c' := Physics.frames referenceFrameInterval n c in
  coastingAt n c' /\
  tx (Loop.targetRef c') = tx (Loop.targetRef c) + 200 * (1 - 0.95 ^ n).
Proof.
  intros Hc. induction n as [|n IH]; intros Hn.
  - simpl. split; [exact Hc|lra].
  - destruct IH as (Ic & It); [lia|].
    cbv zeta. rewrite Physics_frames_S.
    destruct (Physics_frame_coasting n
                (Physics.frames referenceFrameInterval n c)) as (Fc & Ft);
      [lia|exact Ic|].
    split; [exact Fc|]. rewrite Ft, It. simpl. lra.
Qed.

(** A frame with no gesture and a velocity at or below the epsilon: the
    velocity is set to zero exactly and the target is left where it is;
    the loop either keeps easing or stops on the target. *)
Lemma Physics_frame_below_epsilon c :
  Loop.rafRef c = true ->
  idle c ->
  Math_abs (x (Loop.velocityRef c)) <= 0.05 ->
  Math_abs (y (Loop.velocityRef c)) <= 0.05 ->
  let c' := Physics.frame referenceFrameInterval c in
  let dx := tx (Loop.targetRef c) - tx (Loop.currentRef c) in
  let dy := ty (Loop.targetRef c) - ty (Loop.currentRef c) in
  let ds := tscale (Loop.targetRef c) - tscale (Loop.currentRef c) in
  idle c' /\
  Loop.velocityRef c' = {| x := 0; y := 0 |} /\
  Loop.targetRef c' = Loop.targetRef c /\
  ((Math_abs dx > 0.1 \/ Math_abs dy > 0.1 \/ Math_abs ds > 0.0001) ->
   Loop.rafRef c' = true /\
   Loop.zoomPan c' = Loop.zoomPan c /\
   Loop.currentRef c' =
     {| tscale := tscale (Loop.currentRef c) + ds * 0.12;
        tx := tx (Loop.currentRef c) + dx * 0.12;
        ty := ty (Loop.currentRef c) + dy * 0.12 |}) /\
  (Math_abs dx <= 0.1 -> Math_abs dy <= 0.1 -> Math_abs ds <= 0.0001 ->
   settledAt (Loop.targetRef c) c').
Proof.
  intros Hraf (Hdr & Hpi) Hvx Hvy.
  cbv zeta. unfold Physics.frame. rewrite Hraf.
  rewrite (Physics_step_idle c Hdr Hpi). cbv zeta.
  apply gtb_false in Hvx, Hvy. rewrite Hvx, Hvy.
  cbn [orb tx ty tscale x y].
  assert (Hz1 : gtb (Math_abs 0) 0.1 = false)
    by (apply gtb_false; abs_lra).
  rewrite Hz1, !orb_false_r.
  match goal with
  | |- context [if ?b then Loop.mkComponent _ _ _ _ _ _ _ _ _ true else _] =>
      destruct b eqn:Hmoving
  end.
  - cbn [Loop.rafRef]. unfold idle. cbn.
    refine (conj (conj eq_refl eq_refl) (conj eq_refl (conj eq_refl
              (conj (fun _ => conj eq_refl (conj eq_refl eq_refl)) _)))).
    intros Hx Hy Hs. exfalso.
    apply orb_true_iff in Hmoving. destruct Hmoving as [Hmoving|Hmoving].
    + apply orb_true_iff in Hmoving. destruct Hmoving as [Hmoving|Hmoving];
        apply gtb_true in Hmoving; lra.
    + apply gtb_true in Hmoving. lra.
  - cbn [Loop.rafRef]. unfold Physics.zoomPanEffect.
    cbn [Loop.rafRef negb Loop.zoomPan Loop.setTarget Loop.setCurrent
         isImmediate Loop.targetRef].
    bool_hyps.
    destruct (isImmediate (Loop.zoomPan c)); unfold idle, settledAt;
      cbn; unfold stateTransform; cbn; rewrite !Transform_eta;
      (refine (conj (conj eq_refl eq_refl) (conj eq_refl (conj eq_refl
                 (conj _ (fun _ _ _ => conj eq_refl (conj eq_refl
                    (conj eq_refl eq_refl))))))));
      intros [Hc|[Hc|Hc]]; lra.
Qed.

Lemma Physics_frame_velocity_zero c :
  idle c ->
  Loop.velocityRef c = {| x := 0; y := 0 |} ->
  let c' := Physics.frame referenceFrameInterval c in
  idle c' /\
  Loop.velocityRef c' = {| x := 0; y := 0 |} /\
  Loop.targetRef c' = Loop.targetRef c.
Proof.
  intros Hidle Hv. destruct (Loop.rafRef c) eqn:Hraf.
  - destruct (Physics_frame_below_epsilon c Hraf Hidle)
      as (Fi & Fv & Ft & _).
    + rewrite Hv. simpl. abs_lra.
    + rewrite Hv. simpl. abs_lra.
    + auto.
  - cbv zeta. unfold Physics.frame. rewrite Hraf. auto.
Qed.

Lemma Physics_frames_velocity_zero n : forall c,
  idle c ->
  Loop.velocityRef c = {| x := 0; y := 0 |} ->
  let c' := Physics.frames referenceFrameInterval n c in
  idle c' /\
  Loop.velocityRef c' = {| x := 0; y := 0 |} /\
  Loop.targetRef c' = Loop.targetRef c.
Proof.
  induction n as [|n IH]; intros c Hidle Hv.
  - simpl. auto.
  - simpl.
    destruct (Physics_frame_velocity_zero c Hidle Hv) as (Fi & Fv & Ft).
    destruct (IH _ Fi Fv) as (Gi & Gv & Gt).
    repeat split; try apply Gi; try exact Gv. now rewrite Gt.
Qed.

(** Momentum decay in the physics loop: 104 coasting frames, then the
    velocity is zeroed and the target rests. *)
Lemma Physics_momentum_decay c :
  Loop.rafRef c = true ->
  idle c ->
  x (Loop.velocityRef c) = 10 ->
  y (Loop.velocityRef c) = 0 ->
  tx (Loop.currentRef c) <= tx (Loop.targetRef c) ->
  let after n := Physics.frames referenceFrameInterval n c in
  (forall n, (n < 104)%nat ->
     Loop.rafRef (after (S n)) = true /\
     tx (Loop.targetRef (after n)) < tx (Loop.targetRef (after (S n))) /\
     speed (Loop.velocityRef (after (S n))) < speed (Loop.velocityRef (after n)) /\
     0.05 < speed (Loop.velocityRef (after n))) /\
  speed (Loop.velocityRef (after 104%nat)) < 0.05 /\
  (forall n, (105 <= n)%nat ->
     Loop.velocityRef (after n) = {| x := 0; y := 0 |}) /\
  (forall n, (104 <= n)%nat ->
     tx (Loop.targetRef (after n)) = tx (Loop.targetRef (after 104%nat))).
Proof.
  intros Hraf Hidle Hx Hy Hlag after.
  assert (Hc : coastingAt 0 c).
  { unfold coastingAt, lag. rewrite Hx, Hy. simpl.
    repeat split; try apply Hidle; try assumption; try lra; intros; lia. }
  assert (Hsp : forall n, (n <= 104)%nat ->
            speed (Loop.velocityRef (after n)) = 10 * 0.95 ^ n).
  { intros n Hn. destruct (Physics_coasting_frames c n Hc Hn)
      as ((_ & _ & Vx & Vy & _) & _).
    unfold after. rewrite speed_horizontal; [exact Vx| |exact Vy].
    rewrite Vx. pose proof (pow_095_pos n). lra. }
  destruct (Physics_coasting_frames c 104 Hc (le_n _))
    as ((Lraf & Lidle & Lx & Ly & _) & Lt).
  assert (Hrest : idle (after 105%nat) /\
                  Loop.velocityRef (after 105%nat) = {| x := 0; y := 0 |} /\
                  Loop.targetRef (after 105%nat) = Loop.targetRef (after 104%nat)).
  { unfold after. rewrite Physics_frames_S.
    destruct (Physics_frame_below_epsilon _ Lraf Lidle) as (Fi & Fv & Ft & _).
    - rewrite Lx. pose proof coasting_below_epsilon.
      pose proof (pow_095_pos 104). abs_lra.
    - rewrite Ly. abs_lra.
    - auto. }
  destruct Hrest as (Ri & Rv & Rt).
  assert (Hlater : forall m,
            Loop.velocityRef (after (105 + m)%nat) = {| x := 0; y := 0 |} /\
            Loop.targetRef (after (105 + m)%nat) = Loop.targetRef (after 104%nat)).
  { intros m. unfold after in *. rewrite Physics_frames_add.
    destruct (Physics_frames_velocity_zero m _ Ri Rv) as (_ & Gv & Gt).
    split; [exact Gv|]. rewrite Gt. exact Rt. }
  repeat split.
  - destruct (Physics_coasting_frames c (S n) Hc) as ((R & _) & _); [lia|].
    exact R.
  - destruct (Physics_coasting_frames c n Hc) as (_ & Tn); [lia|].
    destruct (Physics_coasting_frames c (S n) Hc) as (_ & Tm); [lia|].
    unfold after. rewrite Tn, Tm. simpl. pose proof (pow_095_pos n). lra.
  - rewrite !Hsp by lia. simpl. pose proof (pow_095_pos n). lra.
  - rewrite Hsp by lia. apply coasting_above_epsilon. lia.
  - rewrite Hsp by lia. apply coasting_below_epsilon.
  - intros n Hn. replace n with (105 + (n - 105))%nat by lia. apply Hlater.
  - intros n Hn. destruct (Nat.eq_dec n 104) as [->|Hne]; [reflexivity|].
    replace n with (105 + (n - 105))%nat by lia. now rewrite (proj2 (Hlater _)).
Qed.

Lemma Registry_setRaf_projections b c :
  Registry.rafRef (Registry.setRaf b c) = b /\
  Registry.zoomPan (Registry.setRaf b c) = Registry.zoomPan c /\
  Registry.velocityRef (Registry.setRaf b c) = Registry.velocityRef c.
Proof. repeat split. Qed.

(** Once the loop has returned, no later frame changes anything. *)
Lemma Registry_frames_after_stop k c :
  Registry.rafRef c = true ->
  Math_abs (x (Registry.velocityRef c)) < 0.05 ->
  Math_abs (y (Registry.velocityRef c)) < 0.05 ->
  Registry.frames (S k) c = Registry.setRaf false c.
Proof.
  intros Hraf Hx Hy.
  change (Registry.frames (S k) c) with (Registry.frames k (Registry.frame c)).
  rewrite (Registry_frame_stops c Hraf Hx Hy).
  apply Registry_frames_stopped. reflexivity.
Qed.

(** Momentum decay in the registry: 104 coasting frames, then the loop
    returns and leaves the velocity it found. *)
Lemma Registry_momentum_decay c :
  Registry.rafRef c = true ->
  x (Registry.velocityRef c) = 10 ->
  y (Registry.velocityRef c) = 0 ->
  let after n := Registry.frames n c in
  (forall n, (n < 104)%nat ->
     Registry.rafRef (after (S n)) = true /\
     translateX (Registry.zoomPan (after n)) <
       translateX (Registry.zoomPan (after (S n))) /\
     speed (Registry.velocityRef (after (S n))) <
       speed (Registry.velocityRef (after n)) /\
     0.05 < speed (Registry.velocityRef (after n))) /\
  speed (Registry.velocityRef (after 104%nat)) < 0.05 /\
  (forall n, (105 <= n)%nat ->
     after n = Registry.setRaf false (after 104%nat)) /\
  (forall n, x (Registry.velocityRef (after n)) <> 0).
Proof.
  intros Hraf Hx Hy after. subst after. cbv beta.
  pose proof (fun n Hn => Registry_coasting_frames c n Hraf Hx Hy Hn) as Hco.
  cbv zeta in Hco.
  pose proof coasting_below_epsilon as Hbelow.
  pose proof (pow_095_pos 104) as Hpos.
  assert (Hlast : (104 <= 104)%nat) by lia.
  assert (Hsp : forall n, (n <= 104)%nat ->
            speed (Registry.velocityRef (Registry.frames n c)) = 10 * 0.95 ^ n).
  { intros n Hn. destruct (Hco n Hn) as (_ & Vx & Vy & _).
    rewrite speed_horizontal; [exact Vx| |exact Vy].
    rewrite Vx. pose proof (pow_095_pos n). lra. }
  assert (Hstop : forall n, (105 <= n)%nat ->
            Registry.frames n c =
            Registry.setRaf false (Registry.frames 104 c)).
  { intros n Hn. destruct (Hco 104%nat Hlast) as (Lraf & Lx & Ly & _).
    replace n with (104 + S (n - 105))%nat by lia.
    rewrite Registry_frames_add.
    apply Registry_frames_after_stop.
    - exact Lraf.
    - rewrite Lx, Rabs_pos_id; lra.
    - rewrite Ly, Rabs_pos_id; lra. }
  split; [|split; [|split]].
  - intros n Hn.
    destruct (Hco n) as (_ & _ & _ & Tn); [lia|].
    destruct (Hco (S n)) as (Rm & _ & _ & Tm); [lia|].
    pose proof (pow_095_pos n).
    split; [exact Rm|]. split; [|split].
    + rewrite Tn, Tm. simpl pow. lra.
    + rewrite !Hsp by lia. simpl pow. lra.
    + rewrite Hsp by lia. apply coasting_above_epsilon. lia.
  - rewrite Hsp by lia. exact Hbelow.
  - exact Hstop.
  - intros n. destruct (le_lt_dec n 104) as [Hn|Hn].
    + destruct (Hco n Hn) as (_ & Vx & _).
      rewrite Vx. pose proof (pow_095_pos n). lra.
    + rewrite (Hstop n) by lia.
      rewrite (proj2 (proj2 (Registry_setRaf_projections false _))).
      destruct (Hco 104%nat Hlast) as (_ & Lx & _). rewrite Lx. lra.
Qed.

Lemma flungRegistry_start :
  Registry.rafRef flungRegistry = true /\
  x (Registry.velocityRef flungRegistry) = 10 /\
  y (Registry.velocityRef flungRegistry) = 0.
Proof.
  unfold flungRegistry, Registry.handleWindowMouseUp,
    Registry.handleWindowMouseMove, Registry.handleMouseDown.
  simpl. assert (E : gtb 16 0 = true) by (apply gtb_true; lra).
  rewrite E. simpl. auto.
Qed.

Lemma flungPhysics_start :
  Loop.rafRef flungPhysics = true /\
  idle flungPhysics /\
  x (Loop.velocityRef flungPhysics) = 10 /\
  y (Loop.velocityRef flungPhysics) = 0 /\
  tx (Loop.currentRef flungPhysics) <= tx (Loop.targetRef flungPhysics).
Proof.
  unfold flungPhysics, Physics.handleWindowMouseUp,
    Physics.handleWindowMouseMove, Physics.handleMouseDown, idle,
    Physics.orElse.
  simpl. assert (E : gtb 16 0 = true) by (apply gtb_true; lra).
  assert (N : eqb 1 0 = false) by (apply eqb_false; lra).
  rewrite E, N. simpl. repeat split; lra.
Qed.

(** C5, as stated: in the registry the velocity is never set to zero.  After
    the drag released at (10, 0) the momentum loop has stopped by frame 105,
    and at no frame is the horizontal velocity zero. *)
Lemma Registry_momentum_never_zeroes_velocity :
  Registry.rafRef (Registry.frames 105 flungRegistry) = false /\
  forall n, Registry.velocityRef (Registry.frames n flungRegistry)
            <> {| x := 0; y := 0 |}.
Proof.
  destruct flungRegistry_start as (Hraf & Hx & Hy).
  destruct (Registry_momentum_decay flungRegistry Hraf Hx Hy)
    as (_ & _ & Hstop & Hnz).
  split.
  - rewrite Hstop by lia. reflexivity.
  - intros n H. apply (Hnz n). rewrite H. reflexivity.
Qed.

(** C5, amended.  From velocity (10, 0) with friction 0.95, one reference
    frame interval per tick (timeScale 1), no gesture and no further input:
    for each of the first 104 ticks the loop reschedules itself, the target
    offset X (the state offset X in the registry) strictly increases and the
    speed strictly decreases, staying above the epsilon 0.05; after 104 ticks
    the speed is below the epsilon and the offset no longer changes.  The
    physics loop of the component then sets the velocity to exactly zero (at
    tick 105, the displayed transform never being ahead of the target when
    the coasting starts); the momentum loop of the registry instead returns
    at tick 105 without rescheduling and leaves the velocity below the
    epsilon, non-zero, in its ref. *)
Theorem momentum_decay (p : Loop.Component) (r : Registry.Component) :
  Loop.rafRef p = true ->
  idle p ->
  x (Loop.velocityRef p) = 10 ->
  y (Loop.velocityRef p) = 0 ->
  tx (Loop.currentRef p) <= tx (Loop.targetRef p) ->
  Registry.rafRef r = true ->
  x (Registry.velocityRef r) = 10 ->
  y (Registry.velocityRef r) = 0 ->
  let P n := Physics.frames referenceFrameInterval n p in
  let R n := Registry.frames n r in
  (forall n, (n < 104)%nat ->
     Loop.rafRef (P (S n)) = true /\
     tx (Loop.targetRef (P n)) < tx (Loop.targetRef (P (S n))) /\
     speed (Loop.velocityRef (P (S n))) < speed (Loop.velocityRef (P n)) /\
     0.05 < speed (Loop.velocityRef (P n))) /\
  speed (Loop.velocityRef (P 104%nat)) < 0.05 /\
  (forall n, (105 <= n)%nat ->
     Loop.velocityRef (P n) = {| x := 0; y := 0 |}) /\
  (forall n, (104 <= n)%nat ->
     tx (Loop.targetRef (P n)) = tx (Loop.targetRef (P 104%nat))) /\
  (forall n, (n < 104)%nat ->
     Registry.rafRef (R (S n)) = true /\
     translateX (Registry.zoomPan (R n)) <
       translateX (Registry.zoomPan (R (S n))) /\
     speed (Registry.velocityRef (R (S n))) <
       speed (Registry.velocityRef (R n)) /\
     0.05 < speed (Registry.velocityRef (R n))) /\
  speed (Registry.velocityRef (R 104%nat)) < 0.05 /\
  (forall n, (105 <= n)%nat ->
     Registry.rafRef (R n) = false /\
     Registry.zoomPan (R n) = Registry.zoomPan (R 104%nat) /\
     Registry.velocityRef (R n) = Registry.velocityRef (R 104%nat) /\
     x (Registry.velocityRef (R n)) <> 0).
Proof.
  intros Praf Pidle Px Py Plag Rraf Rx Ry P R.
  destruct (Physics_momentum_decay p Praf Pidle Px Py Plag)
    as (P1 & P2 & P3 & P4).
  destruct (Registry_momentum_decay r Rraf Rx Ry) as (R1 & R2 & R3 & R4).
  refine (conj P1 (conj P2 (conj P3 (conj P4 (conj R1 (conj R2 _)))))).
  intros n Hn. unfold R. rewrite (R3 n Hn). cbv beta.
  destruct (Registry_setRaf_projections false (Registry.frames 104 r))
    as (E1 & E2 & E3).
  rewrite E1, E2, E3.
  refine (conj eq_refl (conj eq_refl (conj eq_refl _))).
  exact (R4 104%nat).
Qed.

Lemma momentum_decay_witness :
  Loop.velocityRef (Physics.frames referenceFrameInterval 105 flungPhysics) =
    {| x := 0; y := 0 |} /\
  Registry.rafRef (Registry.frames 105 flungRegistry) = false.
Proof.
  destruct flungPhysics_start as (Praf & Pidle & Px & Py & Plag).
  destruct flungRegistry_start as (Rraf & Rx & Ry).
  destruct (momentum_decay flungPhysics flungRegistry
              Praf Pidle Px Py Plag Rraf Rx Ry)
    as (_ & _ & Hzero & _ & _ & _ & Hstop).
  split.
  - apply Hzero. lia.
  - apply (Hstop 105%nat). lia.
Defined.

(** ** Convergence and snap *)

(** exp(0.0005) exceeds 1 by a little more than 0.0005. *)
Lemma exp_small_bounds : 1.0005 < exp 0.0005 < 1.00051.
Proof.
  split.
  - pose proof (exp_ineq1 0.0005). lra.
  - assert (H : 1 + Ropp 0.0005 < exp (Ropp 0.0005))
      by (apply exp_ineq1; lra).
    rewrite exp_Ropp in H.
    assert (Hpos : 0 < exp 0.0005) by apply exp_pos.
    assert (Hinv : exp 0.0005 * / exp 0.0005 = 1) by (field; lra).
    assert (Hipos : 0 < / exp 0.0005) by now apply Rinv_0_lt_compat.
    nra.
Qed.

(** C4.  The first version of the component stops without snapping.  A light
    trackpad scroll (deltaY = -0.25) on the freshly mounted component sets
    the target scale to exp(0.0005); the next frame moves the displayed scale
    6% of the way, finds every delta within its tolerance and stops: it
    commits the displayed transform as it is, short of the target, and the
    effect on the committed state then overwrites the target with it. *)
Theorem Eased_loop_stops_without_snap :
  let c1 := Eased.onWheel defaultProps layout800x600 trackpadNudge
              (Loop.mount defaultProps) in
  let c2 := Eased.step c1 in
  let c3 := Eased.frame c1 in
  Loop.rafRef c1 = true /\
  tscale (Loop.targetRef c1) = exp 0.0005 /\
  Loop.rafRef c2 = false /\
  Loop.targetRef c2 = Loop.targetRef c1 /\
  tscale (Loop.currentRef c2) = 1 + (exp 0.0005 - 1) * 0.06 /\
  tscale (Loop.currentRef c2) < tscale (Loop.targetRef c2) /\
  Loop.currentRef c2 <> Loop.targetRef c2 /\
  stateTransform (Loop.zoomPan c2) = Loop.currentRef c2 /\
  Loop.rafRef c3 = false /\
  Loop.targetRef c3 = Loop.currentRef c2 /\
  tscale (Loop.targetRef c3) < tscale (Loop.targetRef c1).
Proof.
  pose proof exp_small_bounds as Hexp.
  assert (Hf : Eased.scaleFactor trackpadNudge = exp 0.0005).
  { unfold Eased.scaleFactor, Eased.wheelDelta, Eased.ZOOM_SENSITIVITY,
      Math_exp. simpl. f_equal. lra. }
  assert (Hc1 : Eased.onWheel defaultProps layout800x600 trackpadNudge
                  (Loop.mount defaultProps) =
                Loop.setRaf true
                  (Loop.setTarget {| tscale := exp 0.0005;
                                     tx := 0 - 0 - (0 - 0 - 0) * (exp 0.0005 / 1);
                                     ty := 0 - 0 - (0 - 0 - 0) * (exp 0.0005 / 1) |}
                     (Loop.mount defaultProps))).
  { assert (E : Math_min 5 (Math_max 0.1 (1 * exp 0.0005)) = exp 0.0005).
    { rewrite Rmult_1_l. apply (clamp_inactive defaultProps). simpl. lra. }
    unfold Eased.onWheel. rewrite Hf. simpl. rewrite E. reflexivity. }
  cbv zeta. unfold Eased.frame. rewrite Hc1.
  set (c1 := Loop.setRaf true _).
  assert (Hc2 : Eased.step c1 =
                Loop.commitToState
                  (Loop.setRaf false
                     (Loop.setCurrent
                        {| tscale := 1 + (exp 0.0005 - 1) * 0.06;
                           tx := 0 + (0 - 0 - (0 - 0 - 0) * (exp 0.0005 / 1) - 0) * 0.1;
                           ty := 0 + (0 - 0 - (0 - 0 - 0) * (exp 0.0005 / 1) - 0) * 0.1 |}
                        (Loop.setVelocity {| x := 0; y := 0 |} c1)))).
  { unfold Eased.step, c1. simpl.
    assert (Z1 : gtb (Math_abs 0) 0.01 = false) by (apply gtb_false; abs_lra).
    rewrite Z1. simpl.
    assert (Z2 : gtb (Math_abs (0 - 0 - (0 - 0 - 0) * (exp 0.0005 / 1) - 0)) 0.1
                 = false) by (apply gtb_false; abs_lra).
    assert (Z3 : gtb (Math_abs (exp 0.0005 - 1)) 0.001 = false)
      by (apply gtb_false; abs_lra).
    assert (Z4 : gtb (Math_abs 0) 0.1 = false) by (apply gtb_false; abs_lra).
    rewrite Z2, Z3, Z4. reflexivity. }
  rewrite Hc2. unfold c1. simpl.
  refine (conj eq_refl (conj eq_refl (conj eq_refl (conj eq_refl
            (conj eq_refl (conj _ (conj _ (conj eq_refl (conj eq_refl
               (conj eq_refl _)))))))))).
  - lra.
  - intros H. apply (f_equal tscale) in H. simpl in H. lra.
  - lra.
Qed.

(** The physics loop stops rescheduling only when no gesture is active and
    the position deltas, the scale delta and the velocity are all within
    their tolerances; when it stops, the displayed transform is set to the
    target and committed to the React state. *)
Lemma Physics_stop_condition dt c :
  let c' := Physics.step dt c in
  Loop.rafRef c' = false ->
  idle c /\ dt <= 100 /\
  Math_abs (tx (Loop.targetRef c') - tx (Loop.currentRef c)) <= 0.1 /\
  Math_abs (ty (Loop.targetRef c') - ty (Loop.currentRef c)) <= 0.1 /\
  Math_abs (tscale (Loop.targetRef c') - tscale (Loop.currentRef c)) <= 0.0001 /\
  Math_abs (x (Loop.velocityRef c')) <= 0.1 /\
  Math_abs (y (Loop.velocityRef c')) <= 0.1 /\
  Loop.currentRef c' = Loop.targetRef c' /\
  stateTransform (Loop.zoomPan c') = Loop.currentRef c'.
Proof.
  destruct c as [zp cur tgt dr pi ps tsr v li raf].
  cbv zeta. unfold Physics.step, idle.
  destruct (gtb dt 100) eqn:Hdt; [discriminate|].
  apply gtb_false in Hdt.
  cbn [Loop.isDragging Loop.isPinching Loop.velocityRef Loop.targetRef
       Loop.currentRef].
  destruct dr, pi; cbn [negb andb].
  1-3: cbv zeta; rewrite ?orb_false_r, ?orb_true_r; cbn; discriminate.
  destruct (gtb (Math_abs (x v)) 0.05 || gtb (Math_abs (y v)) 0.05);
    cbv zeta; cbn [orb tx ty tscale x y];
    match goal with
    | |- Loop.rafRef (if ?b || false || false then _ else _) = false -> _ =>
        destruct b eqn:Hmoving
    end; cbn; try discriminate; intros _; bool_hyps;
    unfold stateTransform; cbn; repeat split;
    try assumption; apply Transform_eta.
Qed.


Lemma Rabs_after_lerp (target current : R) :
  Math_abs (target - (current + (target - current) * 0.12)) =
  0.88 * Math_abs (target - current).
Proof.
  unfold Math_abs.
  replace (target - (current + (target - current) * 0.12))
    with (0.88 * (target - current)) by lra.
  rewrite Rabs_mult, (Rabs_right 0.88) by lra. reflexivity.
Qed.

(** With no gesture and no momentum left, the loop settles on its target
    within [n + 1] frames as soon as 0.88^n times each remaining delta is
    within the tolerance of that delta. *)
Lemma Physics_easing_settles n : forall c,
  Loop.rafRef c = true ->
  idle c ->
  Math_abs (x (Loop.velocityRef c)) <= 0.05 ->
  Math_abs (y (Loop.velocityRef c)) <= 0.05 ->
  Math_abs (tx (Loop.targetRef c) - tx (Loop.currentRef c)) * 0.88 ^ n <= 0.1 ->
  Math_abs (ty (Loop.targetRef c) - ty (Loop.currentRef c)) * 0.88 ^ n <= 0.1 ->
  Math_abs (tscale (Loop.targetRef c) - tscale (Loop.currentRef c)) * 0.88 ^ n
    <= 0.0001 ->
  settledAt (Loop.targetRef c) (Physics.frames referenceFrameInterval (S n) c).
Proof.
  induction n as [|n IH]; intros c Hraf Hidle Hvx Hvy Hdx Hdy Hds.
  - simpl in *. rewrite Rmult_1_r in Hdx, Hdy, Hds.
    destruct (Physics_frame_below_epsilon c Hraf Hidle Hvx Hvy)
      as (_ & _ & _ & _ & Hsettle).
    now apply Hsettle.
  - change (Physics.frames referenceFrameInterval (S (S n)) c)
      with (Physics.frames referenceFrameInterval (S n)
              (Physics.frame referenceFrameInterval c)).
    destruct (Physics_frame_below_epsilon c Hraf Hidle Hvx Hvy)
      as (Fidle & Fv & Ft & Fmove & Fsettle).
    set (dx := tx (Loop.targetRef c) - tx (Loop.currentRef c)) in *.
    set (dy := ty (Loop.targetRef c) - ty (Loop.currentRef c)) in *.
    set (ds := tscale (Loop.targetRef c) - tscale (Loop.currentRef c)) in *.
    destruct (Rgt_dec (Math_abs dx) 0.1) as [Mx|Mx];
      [|destruct (Rgt_dec (Math_abs dy) 0.1) as [My|My];
        [|destruct (Rgt_dec (Math_abs ds) 0.0001) as [Ms|Ms]]].
    4: { rewrite Physics_frames_stopped.
         - apply Fsettle; lra.
         - apply Fsettle; lra. }
    all: destruct Fmove as (Fraf & _ & Fcur); [tauto|];
      rewrite <- Ft; apply IH; try assumption;
      try (rewrite Fv; simpl; abs_lra);
      rewrite Ft, Fcur; cbn [tx ty tscale]; rewrite Rabs_after_lerp;
      fold dx dy ds; simpl pow in *; lra.
Qed.

(** After a button zoom with no gesture in progress and no momentum left,
    the loop settles on the new target within [n + 1] frames, [n] being
    large enough for the deltas the zoom has opened. *)
Lemma Physics_button_zoom_settles props delta point c n :
  idle c ->
  Loop.velocityRef c = {| x := 0; y := 0 |} ->
  let c0 := Physics.applyZoomToPoint props delta point c in
  Math_abs (tx (Loop.targetRef c0) - tx (Loop.currentRef c)) * 0.88 ^ n <= 0.1 ->
  Math_abs (ty (Loop.targetRef c0) - ty (Loop.currentRef c)) * 0.88 ^ n <= 0.1 ->
  Math_abs (tscale (Loop.targetRef c0) - tscale (Loop.currentRef c)) * 0.88 ^ n
    <= 0.0001 ->
  Loop.rafRef c0 = true /\
  forall m, (S n <= m)%nat ->
    settledAt (Loop.targetRef c0) (Physics.frames referenceFrameInterval m c0).
Proof.
  intros (Hdr & Hpi) Hv. cbv zeta.
  rewrite Physics_applyZoomToPoint_eq. cbv zeta.
  set (c0 := Loop.mkComponent _ _ _ _ _ _ _ _ _ _).
  cbn [Loop.targetRef].
  intros Hdx Hdy Hds. split; [reflexivity|].
  assert (Hs : settledAt (Loop.targetRef c0)
                 (Physics.frames referenceFrameInterval (S n) c0)).
  { apply Physics_easing_settles; try reflexivity.
    - split; assumption.
    - unfold c0. cbn. rewrite Hv. simpl. abs_lra.
    - unfold c0. cbn. rewrite Hv. simpl. abs_lra.
    - exact Hdx.
    - exact Hdy.
    - exact Hds. }
  intros m Hm. replace m with (S n + (m - S n))%nat by lia.
  rewrite Physics_frames_add, Physics_frames_stopped; [exact Hs|apply Hs].
Qed.

(** [zoomIn] on the freshly mounted physics version, in the 800 by 600
    container: the loop eases from (1, 0, 0) to the target (1.1, -40, -30)
    and has stopped, snapped and committed within 56 frames. *)
Lemma Physics_zoomIn_settles_within_56_frames :
  let c0 := Physics.zoomIn defaultProps (Some layout800x600)
              (Loop.mount defaultProps) in
  Loop.rafRef c0 = true /\
  Loop.currentRef c0 = {| tscale := 1; tx := 0; ty := 0 |} /\
  tscale (Loop.targetRef c0) = 1.1 /\
  tx (Loop.targetRef c0) = -40 /\
  ty (Loop.targetRef c0) = -30 /\
  forall m, (56 <= m)%nat ->
    settledAt (Loop.targetRef c0) (Physics.frames referenceFrameInterval m c0).
Proof.
  cbv zeta. unfold Physics.zoomIn.
  assert (Hidle : idle (Loop.mount defaultProps)) by (split; reflexivity).
  assert (Hs : clampScale defaultProps (1 + 0.1) = 1.1).
  { rewrite clampScale_id; simpl; lra. }
  assert (T : Loop.targetRef
                (Physics.applyZoomToPoint defaultProps (zoomStep defaultProps)
                   (Loop.getContainerCenter (Some layout800x600))
                   (Loop.mount defaultProps)) =
              {| tscale := 1.1;
                 tx := 800 / 2 - (800 / 2 - 0) * (1.1 / 1);
                 ty := 600 / 2 - (600 / 2 - 0) * (1.1 / 1) |}).
  { rewrite Physics_applyZoomToPoint_eq. simpl. simpl in Hs. rewrite Hs.
    reflexivity. }
  destruct (Physics_button_zoom_settles defaultProps (zoomStep defaultProps)
              (Loop.getContainerCenter (Some layout800x600))
              (Loop.mount defaultProps) 55 Hidle eq_refl) as (Hraf & Hsettle).
  - rewrite T. simpl tx. simpl Loop.currentRef.
    replace (800 / 2 - (800 / 2 - 0) * (1.1 / 1) - 0) with (- (40)) by lra.
    unfold Math_abs. rewrite Rabs_Ropp, Rabs_right by lra. lra.
  - rewrite T. simpl ty. simpl Loop.currentRef.
    replace (600 / 2 - (600 / 2 - 0) * (1.1 / 1) - 0) with (- (30)) by lra.
    unfold Math_abs. rewrite Rabs_Ropp, Rabs_right by lra. lra.
  - rewrite T. simpl tscale. simpl Loop.currentRef.
    replace (1.1 - 1) with 0.1 by lra.
    unfold Math_abs. rewrite Rabs_right by lra. lra.
  - split; [exact Hraf|]. split.
    + rewrite Physics_applyZoomToPoint_eq. reflexivity.
    + rewrite T in Hsettle |- *. cbn [tscale tx ty].
      refine (conj _ (conj _ (conj _ Hsettle))); lra.
Qed.

(** * Further properties of the registry component *)

(** ** Reset *)

(** X1.  [resetZoom] puts the state back to the mounted transform, cancels
    the momentum, and is idempotent; no later frame changes its result. *)
Theorem Registry_resetZoom_idempotent props c :
  Registry.zoomPan (Registry.resetZoom props c) =
    Registry.zoomPan (Registry.mount props) /\
  Registry.resetZoom props (Registry.resetZoom props c) =
    Registry.resetZoom props c /\
  forall n, Registry.frames n (Registry.resetZoom props c) =
            Registry.resetZoom props c.
Proof.
  split; [reflexivity|]. split; [reflexivity|].
  intros n. apply Registry_frames_stopped. reflexivity.
Qed.

(** ** Momentum is cancelled by every control and gesture start *)

(** The momentum loop is off: no frame pending, no velocity left. *)
Lemma Registry_still_frames n c :
  Registry.rafRef c = false -> Registry.frames n c = c.
Proof. apply Registry_frames_stopped. Qed.

(** X2.  The zoom buttons and [resetZoom] always, and, while the component
    is not loading, a wheel event, a touch start and a mouse press with the
    left or middle button, each leave no frame pending and a zero velocity,
    so that coasting does not continue under them; so does [centerView]
    whenever it fits the content.  While the component is loading, the
    wheel and touch listeners are not installed and the press is refused:
    these events change nothing, a fling in progress included. *)
Theorem Registry_controls_cancel_momentum props el (c : Registry.Component) :
  let still (d : Registry.Component) :=
    Registry.rafRef d = false /\
    Registry.velocityRef d = {| x := 0; y := 0 |} /\
    forall n, Registry.frames n d = d in
  (forall delta p, still (Registry.applyZoomToPoint props delta p c)) /\
  still (Registry.zoomIn props (Some el) c) /\
  still (Registry.zoomOut props (Some el) c) /\
  still (Registry.resetZoom props c) /\
  (forall e, isLoading props = false ->
     still (Registry.wheelEvent props el e c)) /\
  (forall e, isLoading props = false ->
     still (Registry.touchStartEvent props e c)) /\
  (forall b p, isLoading props = false -> (b = 0 \/ b = 1)%nat ->
     still (Registry.handleMouseDown props b p c)) /\
  (forall w h, Registry.firstElementChild el = Some (w, h) ->
     w <> 0 -> h <> 0 ->
     still (Registry.centerView props (Some el) c)) /\
  (isLoading props = true ->
     (forall e, Registry.wheelEvent props el e c = c) /\
     (forall e, Registry.touchStartEvent props e c = c) /\
     (forall b p, Registry.handleMouseDown props b p c = c)).
Proof.
  intros still.
  assert (S : forall d, Registry.rafRef d = false ->
                Registry.velocityRef d = {| x := 0; y := 0 |} -> still d).
  { intros d Hr Hv. repeat split; try assumption.
    intros n. now apply Registry_frames_stopped. }
  refine (conj _ (conj _ (conj _ (conj _ (conj _ (conj _ (conj _
            (conj _ _)))))))).
  - intros delta p. apply S; reflexivity.
  - apply S; reflexivity.
  - apply S; reflexivity.
  - apply S; reflexivity.
  - intros e Hl. unfold Registry.wheelEvent. rewrite Hl.
    apply S; reflexivity.
  - intros e Hl. unfold Registry.touchStartEvent. rewrite Hl.
    apply S; unfold Registry.onTouchStart;
      destruct e as [|t0 [|t1 [|t2 e]]]; reflexivity.
  - intros b p Hl Hb. unfold Registry.handleMouseDown. rewrite Hl.
    destruct Hb as [-> | ->]; apply S; reflexivity.
  - intros w h Hchild Hw Hh. unfold Registry.centerView. rewrite Hchild.
    apply eqb_false in Hw, Hh. rewrite Hw, Hh. apply S; reflexivity.
  - intros Hl. unfold Registry.wheelEvent, Registry.touchStartEvent,
      Registry.handleMouseDown. rewrite Hl. repeat split.
Qed.

Lemma Registry_controls_cancel_momentum_witness :
  Registry.rafRef flungRegistry = true /\
  x (Registry.velocityRef flungRegistry) = 10 /\
  Registry.rafRef
    (Registry.wheelEvent defaultProps container800x600 wheelIn100
       flungRegistry) = false /\
  Registry.velocityRef
    (Registry.wheelEvent defaultProps container800x600 wheelIn100
       flungRegistry) = {| x := 0; y := 0 |} /\
  Registry.rafRef
    (Registry.handleMouseDown defaultProps 0 origin flungRegistry) = false /\
  Registry.wheelEvent loadingProps container800x600 wheelIn100
    flungRegistry = flungRegistry.
Proof.
  destruct flungRegistry_start as (Hraf & Hvx & _).
  destruct (Registry_controls_cancel_momentum defaultProps container800x600
              flungRegistry) as (_ & _ & _ & _ & Hwheel & _ & Hdown & _).
  destruct (Registry_controls_cancel_momentum loadingProps container800x600
              flungRegistry) as (_ & _ & _ & _ & _ & _ & _ & _ & Hloading).
  destruct (Hwheel wheelIn100 eq_refl) as (Wraf & Wv & _).
  destruct (Hdown 0%nat origin eq_refl (or_introl eq_refl)) as (Draf & _).
  destruct (Hloading eq_refl) as (Lwheel & _).
  exact (conj Hraf (conj Hvx (conj Wraf (conj Wv (conj Draf
           (Lwheel wheelIn100)))))).
Defined.

(** ** Mouse dragging *)

(** X3.  While a drag that started at [p0] lasts, the offset is the offset
    at the press plus the displacement of the pointer from [p0], and the
    scale is the scale at the press: the position depends on the last
    pointer position only, whatever moves came before. *)
Theorem Registry_drag_follows_pointer props b p0 c :
  isLoading props = false ->
  (b = 0 \/ b = 1)%nat ->
  let pressed := Registry.handleMouseDown props b p0 c in
  (forall dt p mv,
     Registry.zoomPan (Registry.handleWindowMouseMove dt p mv pressed) =
     {| scale := scale (Registry.zoomPan c);
        translateX := translateX (Registry.zoomPan c) + (x p - x p0);
        translateY := translateY (Registry.zoomPan c) + (y p - y p0);
        isImmediate := true |}) /\
  (forall dt1 p1 mv1 dt2 p2 mv2,
     Registry.zoomPan
       (Registry.handleWindowMouseMove dt2 p2 mv2
          (Registry.handleWindowMouseMove dt1 p1 mv1 pressed)) =
     Registry.zoomPan (Registry.handleWindowMouseMove dt2 p2 mv2 pressed)).
Proof.
  intros Hl Hb. cbv zeta. unfold Registry.handleMouseDown. rewrite Hl.
  assert (E : negb (Nat.eqb b 0) && negb (Nat.eqb b 1) = false)
    by (destruct Hb as [-> | ->]; reflexivity).
  rewrite E. split.
  - intros dt p mv. unfold Registry.handleWindowMouseMove. simpl.
    destruct (gtb dt 0); reflexivity.
  - intros dt1 p1 mv1 dt2 p2 mv2. unfold Registry.handleWindowMouseMove.
    simpl. destruct (gtb dt1 0); simpl; destruct (gtb dt2 0); reflexivity.
Qed.

Lemma Registry_drag_follows_pointer_witness :
  translateX
    (Registry.zoomPan
       (Registry.handleWindowMouseMove 16 {| x := 11; y := 1 |}
          {| x := 10; y := 0 |}
          (Registry.handleMouseDown defaultProps 0 {| x := 1; y := 1 |}
             (Registry.mount defaultProps)))) = 0 + (11 - 1).
Proof.
  assert (Hl : isLoading defaultProps = false) by reflexivity.
  assert (Hb : (0 = 0 \/ 0 = 1)%nat) by (left; reflexivity).
  rewrite (proj1 (Registry_drag_follows_pointer defaultProps 0
                    {| x := 1; y := 1 |} (Registry.mount defaultProps) Hl Hb)).
  reflexivity.
Defined.

(** ** Events that are ignored *)

(** X4.  A mouse press while loading or with a button other than the left
    and middle ones, a mouse move or release outside a drag, and a touch
    move that does not fit the session (no session, as after any touch end;
    one finger on a two-finger session; two fingers on a session without a
    start distance; more than two fingers) change nothing. *)
Theorem Registry_ignored_events props el (c : Registry.Component) :
  (forall b p, isLoading props = true ->
     Registry.handleMouseDown props b p c = c) /\
  (forall b p, (2 <= b)%nat -> Registry.handleMouseDown props b p c = c) /\
  (Registry.isDragging c = false ->
     (forall dt p mv, Registry.handleWindowMouseMove dt p mv c = c) /\
     Registry.handleWindowMouseUp c = c) /\
  (Registry.touchStartRef c = None ->
     forall e, Registry.onTouchMove props el e c = c) /\
  (forall e d, Registry.onTouchMove props el e
                 (Registry.onTouchEnd d) = Registry.onTouchEnd d) /\
  (forall st t0 s0 s1 rest,
     Registry.touchStartRef c = Some st ->
     touches st = s0 :: s1 :: rest ->
     Registry.onTouchMove props el [t0] c = c) /\
  (forall st t0 t1,
     Registry.touchStartRef c = Some st ->
     distance st <= 0 ->
     Registry.onTouchMove props el [t0; t1] c = c) /\
  (forall t0 t1 t2 rest,
     Registry.onTouchMove props el (t0 :: t1 :: t2 :: rest) c = c).
Proof.
  refine (conj _ (conj _ (conj _ (conj _ (conj _ (conj _ (conj _ _))))))).
  - intros b p Hl. unfold Registry.handleMouseDown. now rewrite Hl.
  - intros b p Hb. unfold Registry.handleMouseDown.
    destruct (isLoading props); [reflexivity|].
    destruct b as [|[|b]]; [lia|lia|reflexivity].
  - intros Hd. split.
    + intros dt p mv. unfold Registry.handleWindowMouseMove. now rewrite Hd.
    + unfold Registry.handleWindowMouseUp. now rewrite Hd.
  - intros Hn e. unfold Registry.onTouchMove. now rewrite Hn.
  - intros e d. reflexivity.
  - intros st t0 s0 s1 rest Hst Ht. unfold Registry.onTouchMove.
    rewrite Hst, Ht. reflexivity.
  - intros st t0 t1 Hst Hd. unfold Registry.onTouchMove. rewrite Hst.
    apply gtb_false in Hd. rewrite Hd.
    destruct (touches st) as [|s0 [|s1 l]]; reflexivity.
  - intros t0 t1 t2 rest. unfold Registry.onTouchMove.
    destruct (Registry.touchStartRef c) as [st|]; [|reflexivity].
    destruct (touches st) as [|s0 [|s1 l]]; reflexivity.
Qed.

Lemma Registry_ignored_events_witness :
  Registry.handleMouseDown defaultProps 2 origin (Registry.mount defaultProps)
  = Registry.mount defaultProps.
Proof.
  apply (proj1 (proj2 (Registry_ignored_events defaultProps container800x600
                         (Registry.mount defaultProps)))).
  lia.
Defined.

(** ** Touch panning *)

(** X5.  A one-finger move shows the transform of the touch start shifted by
    the displacement of the finger; the scale is the scale of the touch
    start, so that a wheel zoom made during the touch is undone by the next
    move. *)
Theorem Registry_touch_pan props el t0 c :
  let started := Registry.onTouchStart [t0] c in
  (forall t1,
     Registry.zoomPan (Registry.onTouchMove props el [t1] started) =
     {| scale := scale (Registry.zoomPan c);
        translateX := translateX (Registry.zoomPan c) + (x t1 - x t0);
        translateY := translateY (Registry.zoomPan c) + (y t1 - y t0);
        isImmediate := true |}) /\
  (forall e t1,
     Registry.zoomPan
       (Registry.onTouchMove props el [t1]
          (Registry.onWheel props el e started)) =
     Registry.zoomPan (Registry.onTouchMove props el [t1] started)).
Proof.
  split; intros; reflexivity.
Qed.

(** X6.  A two-finger move that keeps the distance of the fingers, on a
    session whose scale is non-zero and within the bounds, keeps the scale
    and shifts the offset by the displacement of the midpoint. *)
Theorem Registry_two_finger_pan props el t0 t1 st c :
  Registry.touchStartRef c = Some st ->
  distance st > 0 ->
  getTouchDistance [t0; t1] = distance st ->
  startScale st <> 0 ->
  minScale props <= startScale st <= maxScale props ->
  let s := Registry.zoomPan (Registry.onTouchMove props el [t0; t1] c) in
  scale s = startScale st /\
  translateX s =
    startTranslateX st + (x (getTouchCenter [t0; t1]) - x (center st)) /\
  translateY s =
    startTranslateY st + (y (getTouchCenter [t0; t1]) - y (center st)).
Proof.
  intros Hst Hd Hsame Hnz Hb. cbv zeta.
  unfold Registry.onTouchMove. rewrite Hst.
  apply gtb_true in Hd. rewrite Hd. rewrite Hsame.
  cbn [Registry.zoomPan Registry.setZoomPan scale translateX translateY].
  apply gtb_true in Hd.
  replace (startScale st * (distance st / distance st)) with (startScale st)
    by (field; lra).
  rewrite (clamp_inactive props (startScale st) Hb).
  repeat split; field; assumption.
Qed.

Lemma Registry_two_finger_pan_witness :
  scale (Registry.zoomPan
           (Registry.onTouchMove defaultProps container800x600
              [ {| x := 360; y := 310 |}; {| x := 460; y := 310 |} ]
              pinchStart100)) = 1.
Proof.
  apply (Registry_two_finger_pan defaultProps container800x600
           {| x := 360; y := 310 |} {| x := 460; y := 310 |} _ pinchStart100
           pinchStart100_snapshot).
  - simpl. lra.
  - unfold getTouchDistance, Math_sqrt. simpl.
    replace ((360 - 460) * (360 - 460) + (310 - 310) * (310 - 310))
      with (100 * 100) by lra.
    apply sqrt_square. lra.
  - simpl. lra.
  - simpl. lra.
Defined.

(** ** How far and how long the content coasts *)

Lemma pow_095_unit (k : nat) : 0 <= 1 - 0.95 ^ k <= 1.
Proof.
  pose proof (pow_095_pos k). pose proof (pow_095_decreasing 0 k).
  simpl in *. assert (0.95 ^ k <= 1) by (apply H0; lia). lra.
Qed.

(** The state after [n] frames is the one after [k <= n] coasting steps. *)
Lemma Registry_frames_closed_form n : forall c,
  exists k, (k <= n)%nat /\
    let c' := Registry.frames n c in
    scale (Registry.zoomPan c') = scale (Registry.zoomPan c) /\
    translateX (Registry.zoomPan c') =
      translateX (Registry.zoomPan c) +
      20 * x (Registry.velocityRef c) * (1 - 0.95 ^ k) /\
    translateY (Registry.zoomPan c') =
      translateY (Registry.zoomPan c) +
      20 * y (Registry.velocityRef c) * (1 - 0.95 ^ k).
Proof.
  induction n as [|n IH]; intros c.
  - exists 0%nat. simpl. repeat split; try lia; lra.
  - change (Registry.frames (S n) c)
      with (Registry.frames n (Registry.frame c)).
    unfold Registry.frame. destruct (Registry.rafRef c) eqn:Hraf.
    + unfold Registry.step.
      destruct (ltb (Math_abs (x (Registry.velocityRef c))) 0.05 &&
                ltb (Math_abs (y (Registry.velocityRef c))) 0.05).
      * exists 0%nat. rewrite Registry_frames_stopped by reflexivity.
        simpl. repeat split; try lia; lra.
      * match goal with
        | |- context [Registry.frames n ?d] => destruct (IH d) as (k & Hk & Hs & Hx & Hy)
        end.
        exists (S k). split; [lia|]. cbv zeta.
        rewrite Hs, Hx, Hy. simpl. repeat split; lra.
    + destruct (IH c) as (k & Hk & H). exists k. split; [lia|exact H].
Qed.

(** X7.  Coasting never changes the scale and never carries the content
    farther than twenty times the release velocity, on either axis. *)
Theorem Registry_coasting_distance_bounded n c :
  let c' := Registry.frames n c in
  scale (Registry.zoomPan c') = scale (Registry.zoomPan c) /\
  Rabs (translateX (Registry.zoomPan c') - translateX (Registry.zoomPan c))
    <= 20 * Rabs (x (Registry.velocityRef c)) /\
  Rabs (translateY (Registry.zoomPan c') - translateY (Registry.zoomPan c))
    <= 20 * Rabs (y (Registry.velocityRef c)).
Proof.
  destruct (Registry_frames_closed_form n c) as (k & _ & Hs & Hx & Hy).
  cbv zeta. pose proof (pow_095_unit k) as Hu.
  split; [exact Hs|]. rewrite Hx, Hy.
  assert (B : forall v, Rabs (20 * v * (1 - 0.95 ^ k)) <= 20 * Rabs v).
  { intros v. rewrite !Rabs_mult, (Rabs_right 20) by lra.
    rewrite (Rabs_right (1 - 0.95 ^ k)) by lra.
    pose proof (Rabs_pos v). nra. }
  split.
  - replace (translateX (Registry.zoomPan c) +
             20 * x (Registry.velocityRef c) * (1 - 0.95 ^ k) -
             translateX (Registry.zoomPan c))
      with (20 * x (Registry.velocityRef c) * (1 - 0.95 ^ k)) by lra.
    apply B.
  - replace (translateY (Registry.zoomPan c) +
             20 * y (Registry.velocityRef c) * (1 - 0.95 ^ k) -
             translateY (Registry.zoomPan c))
      with (20 * y (Registry.velocityRef c) * (1 - 0.95 ^ k)) by lra.
    apply B.
Qed.

(** While the loop is still running after [n] frames, the velocity is the
    release velocity decayed [n] times. *)
Lemma Registry_running_velocity n : forall c,
  Registry.rafRef (Registry.frames n c) = true ->
  x (Registry.velocityRef (Registry.frames n c)) =
    x (Registry.velocityRef c) * 0.95 ^ n /\
  y (Registry.velocityRef (Registry.frames n c)) =
    y (Registry.velocityRef c) * 0.95 ^ n.
Proof.
  induction n as [|n IH]; intros c Hrun.
  - simpl. lra.
  - change (Registry.frames (S n) c)
      with (Registry.frames n (Registry.frame c)) in *.
    unfold Registry.frame in *. destruct (Registry.rafRef c) eqn:Hraf.
    + unfold Registry.step in *.
      destruct (ltb (Math_abs (x (Registry.velocityRef c))) 0.05 &&
                ltb (Math_abs (y (Registry.velocityRef c))) 0.05).
      * rewrite Registry_frames_stopped in Hrun by reflexivity.
        discriminate.
      * destruct (IH _ Hrun) as (Hx & Hy). rewrite Hx, Hy. simpl. lra.
    + rewrite Registry_frames_stopped in Hrun by assumption. congruence.
Qed.

(** X8.  The momentum loop always stops: whatever the release velocity,
    after some number of frames no frame is pending, and from then on
    nothing changes. *)
Theorem Registry_momentum_terminates c :
  exists N, forall n, (N <= n)%nat ->
    Registry.rafRef (Registry.frames n c) = false /\
    Registry.frames n c = Registry.frames N c.
Proof.
  set (vx := x (Registry.velocityRef c)).
  set (vy := y (Registry.velocityRef c)).
  assert (Hsmall : 0 < 0.05 / (Rabs vx + Rabs vy + 1)).
  { pose proof (Rabs_pos vx). pose proof (Rabs_pos vy).
    apply Rdiv_lt_0_compat; lra. }
  destruct (pow_lt_1_zero 0.95) with (y := 0.05 / (Rabs vx + Rabs vy + 1))
    as (M & HM).
  { rewrite Rabs_right; lra. }
  { exact Hsmall. }
  assert (Hstop : Registry.rafRef (Registry.frames (S M) c) = false).
  { rewrite Registry_frames_S.
    destruct (Registry.rafRef (Registry.frames M c)) eqn:Hrun.
    - destruct (Registry_running_velocity M c Hrun) as (Hx & Hy).
      fold vx in Hx. fold vy in Hy.
      assert (Hp : Rabs (0.95 ^ M) < 0.05 / (Rabs vx + Rabs vy + 1))
        by (apply HM; lia).
      rewrite Rabs_right in Hp by (pose proof (pow_095_pos M); lra).
      pose proof (pow_095_pos M) as Hpos.
      pose proof (Rabs_pos vx). pose proof (Rabs_pos vy).
      assert (Hq : 0.95 ^ M * (Rabs vx + Rabs vy + 1) < 0.05).
      { apply (Rmult_lt_compat_r (Rabs vx + Rabs vy + 1)) in Hp; [|lra].
        replace (0.05 / (Rabs vx + Rabs vy + 1) * (Rabs vx + Rabs vy + 1))
          with 0.05 in Hp by (field; lra).
        exact Hp. }
      rewrite Registry_frame_stops; [reflexivity|exact Hrun| |].
      + rewrite Hx. unfold Math_abs.
        rewrite Rabs_mult, (Rabs_right (0.95 ^ M)) by lra. nra.
      + rewrite Hy. unfold Math_abs.
        rewrite Rabs_mult, (Rabs_right (0.95 ^ M)) by lra. nra.
    - unfold Registry.frame. rewrite Hrun. exact Hrun. }
  exists (S M). intros n Hn.
  replace n with (S M + (n - S M))%nat by lia.
  rewrite Registry_frames_add, Registry_frames_stopped by exact Hstop.
  split; [exact Hstop|reflexivity].
Qed.

(** ** Wheel events add up *)

(** X9.  Two pixel-mode wheel events at the same mouse position, neither of
    which is clamped, leave the scale and the offsets that the single event
    with the sum of their deltas leaves. *)
Theorem Registry_wheel_events_add_up props el mx my d1 d2 c :
  let e d := {| clientX := mx; clientY := my; deltaY := d; deltaMode := 0 |} in
  let s := scale (Registry.zoomPan c) in
  0 < s ->
  minScale props <= s * Registry.scaleFactor (e d1) <= maxScale props ->
  minScale props <=
    s * Registry.scaleFactor (e d1) * Registry.scaleFactor (e d2)
    <= maxScale props ->
  let twice := Registry.zoomPan
                 (Registry.onWheel props el (e d2)
                    (Registry.onWheel props el (e d1) c)) in
  let once := Registry.zoomPan (Registry.onWheel props el (e (d1 + d2)) c) in
  scale twice = scale once /\
  translateX twice = translateX once /\
  translateY twice = translateY once.
Proof.
  intros e s Hs H1 H2.
  assert (F : forall d, Registry.scaleFactor (e d) =
                        exp (- d * Registry.ZOOM_SENSITIVITY)) by reflexivity.
  assert (Hadd : Registry.scaleFactor (e (d1 + d2)) =
                 Registry.scaleFactor (e d1) * Registry.scaleFactor (e d2)).
  { rewrite !F, <- exp_plus. f_equal. lra. }
  assert (P1 : 0 < Registry.scaleFactor (e d1)) by (rewrite F; apply exp_pos).
  assert (P2 : 0 < Registry.scaleFactor (e d2)) by (rewrite F; apply exp_pos).
  cbv zeta. unfold Registry.onWheel.
  cbn [Registry.zoomPan Registry.setZoomPan Registry.stopMomentum
       Registry.setVelocity Registry.setRaf scale translateX translateY
       clientX clientY].
  fold s. rewrite Hadd.
  set (f1 := Registry.scaleFactor (e d1)) in *.
  set (f2 := Registry.scaleFactor (e d2)) in *.
  rewrite (clamp_inactive props (s * f1) H1).
  rewrite (clamp_inactive props (s * f1 * f2) H2).
  replace (s * (f1 * f2)) with (s * f1 * f2) by ring.
  rewrite (clamp_inactive props (s * f1 * f2) H2).
  assert (s * f1 <> 0) by nra.
  assert (CX : forall d, clientX (e d) = mx) by reflexivity.
  assert (CY : forall d, clientY (e d) = my) by reflexivity.
  rewrite !CX, !CY.
  refine (conj eq_refl (conj _ _)); field; repeat split; lra.
Qed.

Lemma Registry_wheel_events_add_up_witness :
  let e d := {| clientX := 400; clientY := 300; deltaY := d; deltaMode := 0 |} in
  let twice := Registry.zoomPan
                 (Registry.onWheel defaultProps container800x600 (e (-100))
                    (Registry.onWheel defaultProps container800x600 (e (-100))
                       (Registry.mount defaultProps))) in
  let once := Registry.zoomPan
                (Registry.onWheel defaultProps container800x600
                   (e (-100 + -100)) (Registry.mount defaultProps)) in
  1.221 < Registry.scaleFactor (e (-100)) < 1.222 /\
  scale twice = scale once /\
  translateX twice = translateX once /\
  translateY twice = translateY once.
Proof.
  cbv zeta.
  assert (F : Registry.scaleFactor
                {| clientX := 400; clientY := 300; deltaY := -100;
                   deltaMode := 0 |} = exp 0.2).
  { unfold Registry.scaleFactor, Registry.wheelDelta,
      Registry.ZOOM_SENSITIVITY, Math_exp. simpl. f_equal. lra. }
  pose proof exp_one_fifth_bounds as B.
  split; [rewrite F; exact B|].
  apply (Registry_wheel_events_add_up defaultProps container800x600
           400 300 (-100) (-100) (Registry.mount defaultProps)).
  - simpl. lra.
  - rewrite F. simpl. lra.
  - rewrite F. simpl. nra.
Defined.

(** ** The fitted content lies inside the container *)

(** X10.  When the fit scale is not clamped, [centerView] places the content
    of positive size inside the container with a margin of at least 20
    pixels on every side, centred on both axes. *)
Theorem Registry_centerView_content_inside props el w h c :
  Registry.firstElementChild el = Some (w, h) ->
  0 < w -> 0 < h ->
  let fit := Math_min ((Registry.clientWidth el - 40) / w)
                      ((Registry.clientHeight el - 40) / h) in
  minScale props <= fit <= maxScale props ->
  let s := Registry.zoomPan (Registry.centerView props (Some el) c) in
  scale s = fit /\
  20 <= translateX s /\
  translateX s + w * scale s <= Registry.clientWidth el - 20 /\
  20 <= translateY s /\
  translateY s + h * scale s <= Registry.clientHeight el - 20 /\
  translateX s + w * scale s / 2 = Registry.clientWidth el / 2 /\
  translateY s + h * scale s / 2 = Registry.clientHeight el / 2.
Proof.
  intros Hchild Hw Hh fit Hfit.
  rewrite (Registry_centerView_fit props el w h c Hchild) by lra.
  cbv zeta. cbn [scale translateX translateY].
  change (Math_min ((Registry.clientWidth el - 40) / w)
            ((Registry.clientHeight el - 40) / h)) with fit.
  rewrite (clampScale_id props fit Hfit).
  assert (Hx : w * fit <= Registry.clientWidth el - 40).
  { assert (fit <= (Registry.clientWidth el - 40) / w) by apply Rmin_l.
    apply (Rmult_le_compat_l w) in H; [|lra].
    replace (w * ((Registry.clientWidth el - 40) / w))
      with (Registry.clientWidth el - 40) in H by (field; lra).
    exact H. }
  assert (Hy : h * fit <= Registry.clientHeight el - 40).
  { assert (fit <= (Registry.clientHeight el - 40) / h) by apply Rmin_r.
    apply (Rmult_le_compat_l h) in H; [|lra].
    replace (h * ((Registry.clientHeight el - 40) / h))
      with (Registry.clientHeight el - 40) in H by (field; lra).
    exact H. }
  repeat split; lra.
Qed.

Lemma Registry_centerView_content_inside_witness :
  20 <= translateX
          (Registry.zoomPan
             (Registry.centerView defaultProps (Some container800x600)
                (Registry.mount defaultProps))).
Proof.
  apply (Registry_centerView_content_inside defaultProps container800x600
           1000 500 (Registry.mount defaultProps)).
  - reflexivity.
  - lra.
  - lra.
  - simpl. cases_lra.
Defined.

(** * The standalone hook *)

(** X11.  The zoom buttons of [useZoomPan] never touch the offsets, and from
    a scale within [0.1, 5] every sequence of them keeps the scale there;
    [zoomIn] alone caps the scale at 5 and [zoomOut] alone floors it at
    0.1. *)
Theorem Hook_zoom_keeps_offsets_and_bounds :
  (forall s, scale (Hook.zoomIn s) <= 5 /\ 0.1 <= scale (Hook.zoomOut s)) /\
  (forall bs s,
     translateX (Hook.pressAll bs s) = translateX s /\
     translateY (Hook.pressAll bs s) = translateY s) /\
  (forall bs s, 0.1 <= scale s <= 5 ->
     0.1 <= scale (Hook.pressAll bs s) <= 5).
Proof.
  split; [|split].
  - intros s. unfold Hook.zoomIn, Hook.zoomOut. simpl. split; cases_lra.
  - induction bs as [|b bs IH]; intros s; simpl.
    + auto.
    + destruct (IH (Hook.press b s)) as (Hx & Hy). rewrite Hx, Hy.
      destruct b; auto.
  - induction bs as [|b bs IH]; intros s Hs; simpl.
    + exact Hs.
    + apply IH. destruct b; simpl; cases_lra.
Qed.

Lemma Hook_zoom_keeps_offsets_and_bounds_witness :
  0.1 <= scale (Hook.pressAll [Hook.ZoomIn; Hook.ZoomOut] (Hook.initial 1))
      <= 5.
Proof.
  apply (proj2 (proj2 Hook_zoom_keeps_offsets_and_bounds)).
  simpl. lra.
Defined.

(** X12.  In the hook, [zoomIn] followed by [zoomOut] gives back the state's
    scale and offsets whenever the scale is at least 0.1 and at most 4.9;
    at the upper bound it does not: from scale 5 the pair ends at 4.9. *)
Theorem Hook_zoomIn_zoomOut :
  (forall s, 0.1 <= scale s <= 4.9 ->
     scale (Hook.zoomOut (Hook.zoomIn s)) = scale s /\
     translateX (Hook.zoomOut (Hook.zoomIn s)) = translateX s /\
     translateY (Hook.zoomOut (Hook.zoomIn s)) = translateY s) /\
  (forall s, scale s = 5 -> scale (Hook.zoomOut (Hook.zoomIn s)) = 4.9).
Proof.
  split.
  - intros s Hs. unfold Hook.zoomOut, Hook.zoomIn. simpl.
    repeat split. cases_lra.
  - intros s Hs. unfold Hook.zoomOut, Hook.zoomIn. simpl. rewrite Hs.
    cases_lra.
Qed.

Lemma Hook_zoomIn_zoomOut_witness :
  scale (Hook.zoomOut (Hook.zoomIn (Hook.initial 1))) = 1.
Proof.
  apply (proj1 Hook_zoomIn_zoomOut (Hook.initial 1)). simpl. lra.
Defined.

(** * The zoom percentage *)

Lemma Math_round_spec (a : R) :
  IZR (Math_round a) <= a + 0.5 < IZR (Math_round a) + 1.
Proof.
  unfold Math_round. rewrite minus_IZR.
  destruct (archimed (a + 0.5)) as (Hgt & Hle). lra.
Qed.

(** X13.  The displayed percentage is within half a point of a hundred
    times the scale, grows with the scale, and stays between 10 and 500
    while the scale is within the default bounds. *)
Theorem scalePercent_bounds :
  (forall s, Rabs (IZR (scalePercent s) - s * 100) <= 0.5) /\
  (forall s t, s <= t -> (scalePercent s <= scalePercent t)%Z) /\
  (forall s, minScale defaultProps <= s <= maxScale defaultProps ->
     (10 <= scalePercent s <= 500)%Z).
Proof.
  assert (Hmono : forall a b, a <= b -> (Math_round a <= Math_round b)%Z).
  { intros a b Hab.
    pose proof (Math_round_spec a) as Ha. pose proof (Math_round_spec b) as Hb.
    assert (H : IZR (Math_round a) < IZR (Math_round b) + 1) by lra.
    rewrite <- plus_IZR in H. apply lt_IZR in H. lia. }
  assert (Hint : forall z : Z, Math_round (IZR z) = z).
  { intros z. pose proof (Math_round_spec (IZR z)) as H.
    assert (H1 : IZR (Math_round (IZR z)) < IZR z + 1) by lra.
    assert (H2 : IZR z < IZR (Math_round (IZR z)) + 1) by lra.
    rewrite <- plus_IZR in H1, H2. apply lt_IZR in H1, H2. lia. }
  split; [|split].
  - intros s. unfold scalePercent.
    pose proof (Math_round_spec (s * 100)) as H.
    apply Rabs_le. lra.
  - intros s t Hst. unfold scalePercent. apply Hmono. lra.
  - intros s Hs. simpl in Hs. unfold scalePercent. split.
    + rewrite <- (Hint 10%Z). apply Hmono. lra.
    + rewrite <- (Hint 500%Z). apply Hmono. lra.
Qed.

Lemma scalePercent_bounds_witness :
  (10 <= scalePercent 1 <= 500)%Z.
Proof.
  apply (proj2 (proj2 scalePercent_bounds)). simpl. lra.
Defined.

(** * Further properties of the physics version *)

(** ** Frames while a gesture is active *)

(** X14.  While a drag or a pinch is active, a frame never stops the loop
    and never touches the target, the velocity or the React state, whatever
    the deltas and the frame time: momentum is not applied and nothing is
    committed under the user's fingers. *)
Theorem Physics_frame_during_gesture dt c :
  Loop.isDragging c = true \/ Loop.isPinching c = true ->
  let c' := Physics.step dt c in
  Loop.rafRef c' = true /\
  Loop.targetRef c' = Loop.targetRef c /\
  Loop.velocityRef c' = Loop.velocityRef c /\
  Loop.zoomPan c' = Loop.zoomPan c /\
  Loop.isDragging c' = Loop.isDragging c /\
  Loop.isPinching c' = Loop.isPinching c.
Proof.
  destruct c as [zp cur tgt dr pi ps tsr v li raf]. cbn.
  intros Hg. unfold Physics.step.
  destruct (gtb dt 100); [cbn; auto 10|].
  cbn [Loop.isDragging Loop.isPinching Loop.velocityRef Loop.targetRef
       Loop.currentRef].
  destruct dr, pi; cbn [negb andb]; cbv zeta;
    try (destruct Hg; discriminate);
    rewrite ?orb_false_r, ?orb_true_r; cbn; auto 10.
Qed.

Lemma Physics_frame_during_gesture_witness :
  Loop.rafRef
    (Physics.step referenceFrameInterval
       (Physics.handleMouseDown defaultProps 0 origin
          (Loop.mount defaultProps))) = true.
Proof.
  apply (Physics_frame_during_gesture referenceFrameInterval
           (Physics.handleMouseDown defaultProps 0 origin
              (Loop.mount defaultProps))).
  left. reflexivity.
Defined.

(** ** Easing at any frame rate *)

Lemma Rpower_unit (b t : R) : 0 < b < 1 -> 0 <= t -> 0 < Rpower b t <= 1.
Proof.
  intros Hb Ht. unfold Rpower. split; [apply exp_pos|].
  assert (Hln : ln b < 0).
  { rewrite <- ln_1. apply ln_increasing; lra. }
  destruct (Req_dec_T t 0) as [->|Hne].
  - rewrite Rmult_0_l, exp_0. lra.
  - left. rewrite <- exp_0. apply exp_increasing. nra.
Qed.

Lemma lerp_no_overshoot (goal before q : R) :
  0 < q <= 1 ->
  noOvershoot goal before (before + (goal - before) * (1 - q)).
Proof.
  intros Hq. unfold noOvershoot.
  replace (goal - (before + (goal - before) * (1 - q)))
    with ((goal - before) * q) by ring.
  split.
  - pose proof (Rle_0_sqr (goal - before)) as Hsq. unfold Rsqr in Hsq.
    replace ((goal - before) * q * (goal - before))
      with (q * ((goal - before) * (goal - before))) by ring.
    apply Rmult_le_pos; lra.
  - rewrite Rabs_mult, (Rabs_right q) by lra.
    pose proof (Rabs_pos (goal - before)) as Hpos.
    rewrite <- (Rmult_1_r (Rabs (goal - before))) at 2.
    apply Rmult_le_compat_l; lra.
Qed.

Lemma noOvershoot_snap (goal before : R) : noOvershoot goal before goal.
Proof.
  unfold noOvershoot. replace (goal - goal) with 0 by ring.
  rewrite Rabs_R0, Rmult_0_l. split; [lra|apply Rabs_pos].
Qed.

Lemma noOvershoot_stay (goal before : R) : noOvershoot goal before before.
Proof.
  unfold noOvershoot. split; [|lra].
  pose proof (Rle_0_sqr (goal - before)) as Hsq. exact Hsq.
Qed.

(** X15.  Whatever the frame time (not negative), a frame moves every
    displayed coordinate towards the target of that frame without passing
    it: the remaining delta keeps its sign and does not grow. *)
Theorem Physics_frame_never_overshoots dt c :
  0 <= dt ->
  let c' := Physics.step dt c in
  noOvershoot (tx (Loop.targetRef c')) (tx (Loop.currentRef c))
    (tx (Loop.currentRef c')) /\
  noOvershoot (ty (Loop.targetRef c')) (ty (Loop.currentRef c))
    (ty (Loop.currentRef c')) /\
  noOvershoot (tscale (Loop.targetRef c')) (tscale (Loop.currentRef c))
    (tscale (Loop.currentRef c')).
Proof.
  intros Hdt.
  assert (Hq : 0 < Math_pow (1 - 0.12) (dt / 16.667) <= 1).
  { apply Rpower_unit; [lra|]. unfold Rdiv.
    apply Rmult_le_pos; [lra|]. left. apply Rinv_0_lt_compat. lra. }
  destruct c as [zp cur tgt dr pi ps tsr v li raf].
  cbv zeta. unfold Physics.step.
  destruct (gtb dt 100).
  { cbn. repeat split; apply noOvershoot_stay. }
  cbn [Loop.isDragging Loop.isPinching Loop.velocityRef Loop.targetRef
       Loop.currentRef].
  set (q := Math_pow (1 - 0.12) (dt / 16.667)) in *.
  destruct (negb dr && negb pi);
    [destruct (gtb (Math_abs (x v)) 0.05 || gtb (Math_abs (y v)) 0.05)|];
    cbv zeta; cbn [tx ty tscale x y];
    match goal with
    | |- context [if ?b then Loop.setRaf true _ else _] => destruct b
    end; cbn;
    repeat split;
    first [apply lerp_no_overshoot; exact Hq | apply noOvershoot_snap].
Qed.

Lemma Physics_frame_never_overshoots_witness :
  noOvershoot
    (tx (Loop.targetRef (Physics.step referenceFrameInterval flungPhysics)))
    (tx (Loop.currentRef flungPhysics))
    (tx (Loop.currentRef (Physics.step referenceFrameInterval flungPhysics))).
Proof.
  apply (Physics_frame_never_overshoots referenceFrameInterval flungPhysics).
  unfold referenceFrameInterval. lra.
Defined.

(** A frame of any duration up to the stall threshold while nothing moves
    the target: either the displayed transform is eased by the factor of
    that duration and the loop goes on, or the loop settles on the target. *)
Lemma Physics_step_at_rest dt c :
  dt <= 100 ->
  idle c ->
  Loop.velocityRef c = {| x := 0; y := 0 |} ->
  let q := Math_pow 0.88 (dt / 16.667) in
  let c' := Physics.step dt c in
  Loop.targetRef c' = Loop.targetRef c /\
  Loop.velocityRef c' = {| x := 0; y := 0 |} /\
  idle c' /\
  (Loop.rafRef c' = true ->
   tx (Loop.targetRef c) - tx (Loop.currentRef c') =
     (tx (Loop.targetRef c) - tx (Loop.currentRef c)) * q /\
   ty (Loop.targetRef c) - ty (Loop.currentRef c') =
     (ty (Loop.targetRef c) - ty (Loop.currentRef c)) * q /\
   tscale (Loop.targetRef c) - tscale (Loop.currentRef c') =
     (tscale (Loop.targetRef c) - tscale (Loop.currentRef c)) * q) /\
  (Loop.rafRef c' = false -> Loop.currentRef c' = Loop.targetRef c).
Proof.
  destruct c as [zp cur tgt dr pi ps tsr v li raf].
  intros Hdt (Hdr & Hpi) Hv. cbn in Hdr, Hpi, Hv. subst dr pi v.
  cbv zeta. unfold Physics.step, idle.
  apply gtb_false in Hdt. rewrite Hdt.
  cbn [Loop.isDragging Loop.isPinching Loop.velocityRef Loop.targetRef
       Loop.currentRef negb andb x y].
  assert (Hz : gtb (Math_abs 0) 0.05 = false) by (apply gtb_false; abs_lra).
  rewrite Hz. cbn [orb]. cbv zeta.
  replace (1 - 0.12) with 0.88 by lra.
  set (q := Math_pow 0.88 (dt / 16.667)).
  match goal with
  | |- context [if ?b then Loop.setRaf true _ else _] => destruct b
  end; cbn.
  - refine (conj eq_refl (conj eq_refl (conj (conj eq_refl eq_refl)
              (conj (fun _ => _) (fun H => _))))); [|discriminate].
    repeat split; ring.
  - refine (conj eq_refl (conj eq_refl (conj (conj eq_refl eq_refl)
              (conj (fun H => _) (fun _ => eq_refl))))).
    discriminate.
Qed.

(** While nothing moves the target and the scale is further than the zoom
    tolerance from it, a frame keeps the loop running. *)
Lemma Physics_step_keeps_running dt c :
  dt <= 100 ->
  idle c ->
  Loop.velocityRef c = {| x := 0; y := 0 |} ->
  0.0001 < Math_abs (tscale (Loop.targetRef c) - tscale (Loop.currentRef c)) ->
  Loop.rafRef (Physics.step dt c) = true.
Proof.
  intros Hdt Hi Hv Hs.
  destruct (Physics_step_at_rest dt c Hdt Hi Hv) as (T & _).
  destruct (Loop.rafRef (Physics.step dt c)) eqn:R; [reflexivity|exfalso].
  pose proof (Physics_stop_condition dt c) as S. cbv zeta in S.
  destruct (S R) as (_ & _ & _ & _ & Hle & _).
  rewrite T in Hle. lra.
Qed.

(** At rest, whether a frame keeps the loop running depends on the
    distances before the frame only, not on the frame's duration. *)
Lemma Physics_step_at_rest_raf dt dt' c :
  dt <= 100 -> dt' <= 100 ->
  idle c ->
  Loop.velocityRef c = {| x := 0; y := 0 |} ->
  Loop.rafRef (Physics.step dt c) = Loop.rafRef (Physics.step dt' c).
Proof.
  destruct c as [zp cur tgt dr pi ps tsr v li raf].
  intros Hdt Hdt' (Hdr & Hpi) Hv. cbn in Hdr, Hpi, Hv. subst dr pi v.
  unfold Physics.step.
  apply gtb_false in Hdt, Hdt'. rewrite Hdt, Hdt'.
  cbn [Loop.isDragging Loop.isPinching Loop.velocityRef Loop.targetRef
       Loop.currentRef negb andb x y].
  assert (Hz : gtb (Math_abs 0) 0.05 = false) by (apply gtb_false; abs_lra).
  rewrite Hz. cbn [orb]. cbv zeta.
  match goal with
  | |- context [if ?b then Loop.setRaf true _ else _] => destruct b
  end; reflexivity.
Qed.

(** X16.  Easing does not depend on the frame rate: when nothing moves the
    target and the loop is still running after two frames of [dt1] and
    [dt2] milliseconds, the remaining deltas are the initial ones times
    0.88^((dt1 + dt2) / 16.667).  When [dt1 + dt2] is at most 100, one
    frame of [dt1 + dt2] milliseconds keeps the loop running too and
    leaves the very same displayed transform and target.  A single frame
    of more than 100 milliseconds is skipped instead and eases nothing. *)
Theorem Physics_easing_frame_rate_independent dt1 dt2 c :
  dt1 <= 100 -> dt2 <= 100 ->
  idle c ->
  Loop.velocityRef c = {| x := 0; y := 0 |} ->
  let c1 := Physics.step dt1 c in
  let c2 := Physics.step dt2 c1 in
  Loop.rafRef c1 = true ->
  Loop.rafRef c2 = true ->
  let q := Math_pow 0.88 ((dt1 + dt2) / 16.667) in
  let single := Physics.step (dt1 + dt2) c in
  Loop.targetRef c2 = Loop.targetRef c /\
  tx (Loop.targetRef c) - tx (Loop.currentRef c2) =
    (tx (Loop.targetRef c) - tx (Loop.currentRef c)) * q /\
  ty (Loop.targetRef c) - ty (Loop.currentRef c2) =
    (ty (Loop.targetRef c) - ty (Loop.currentRef c)) * q /\
  tscale (Loop.targetRef c) - tscale (Loop.currentRef c2) =
    (tscale (Loop.targetRef c) - tscale (Loop.currentRef c)) * q /\
  (dt1 + dt2 <= 100 ->
   Loop.rafRef single = true /\
   Loop.currentRef single = Loop.currentRef c2 /\
   Loop.targetRef single = Loop.targetRef c2) /\
  (dt1 + dt2 > 100 ->
   Loop.currentRef single = Loop.currentRef c /\
   Loop.targetRef single = Loop.targetRef c).
Proof.
  intros H1 H2 Hidle Hv c1 c2 R1 R2 q single.
  destruct (Physics_step_at_rest dt1 c H1 Hidle Hv)
    as (T1 & V1 & I1 & E1 & _).
  fold c1 in T1, V1, I1, E1.
  destruct (Physics_step_at_rest dt2 c1 H2 I1 V1)
    as (T2 & _ & _ & E2 & _).
  fold c2 in T2, E2.
  destruct (E1 R1) as (X1 & Y1 & S1).
  destruct (E2 R2) as (X2 & Y2 & S2).
  rewrite T1 in X2, Y2, S2.
  assert (Q : q = Math_pow 0.88 (dt1 / 16.667) * Math_pow 0.88 (dt2 / 16.667)).
  { unfold q, Math_pow. rewrite <- Rpower_plus. f_equal. lra. }
  assert (Hx : tx (Loop.targetRef c) - tx (Loop.currentRef c2) =
               (tx (Loop.targetRef c) - tx (Loop.currentRef c)) * q)
    by (rewrite X2, X1, Q; ring).
  assert (Hy : ty (Loop.targetRef c) - ty (Loop.currentRef c2) =
               (ty (Loop.targetRef c) - ty (Loop.currentRef c)) * q)
    by (rewrite Y2, Y1, Q; ring).
  assert (Hs : tscale (Loop.targetRef c) - tscale (Loop.currentRef c2) =
               (tscale (Loop.targetRef c) - tscale (Loop.currentRef c)) * q)
    by (rewrite S2, S1, Q; ring).
  refine (conj _ (conj Hx (conj Hy (conj Hs (conj _ _))))).
  - now rewrite T2, T1.
  - intros H12.
    assert (Rs : Loop.rafRef single = true).
    { unfold single.
      rewrite (Physics_step_at_rest_raf (dt1 + dt2) dt1 c) by assumption.
      exact R1. }
    destruct (Physics_step_at_rest (dt1 + dt2) c H12 Hidle Hv)
      as (Ts & _ & _ & Es & _).
    fold single in Ts, Es. fold q in Es.
    destruct (Es Rs) as (Xs & Ys & Ss).
    refine (conj Rs (conj _ _)).
    + destruct (Loop.currentRef single) as [s0 x0 y0],
               (Loop.currentRef c2) as [s2 x2 y2].
      cbn [tx ty tscale] in *. f_equal; lra.
    + now rewrite Ts, T2, T1.
  - intros H12. unfold single, Physics.step.
    apply gtb_true in H12. rewrite H12. split; reflexivity.
Qed.

Lemma Physics_easing_frame_rate_independent_witness :
  let c := Physics.zoomIn defaultProps (Some layout800x600)
             (Loop.mount defaultProps) in
  let c2 := Physics.step 16.667 (Physics.step 16.667 c) in
  tscale (Loop.targetRef c) - tscale (Loop.currentRef c) = 0.1 /\
  tscale (Loop.targetRef c) - tscale (Loop.currentRef c2) =
    (tscale (Loop.targetRef c) - tscale (Loop.currentRef c)) *
    Math_pow 0.88 ((16.667 + 16.667) / 16.667) /\
  Loop.rafRef (Physics.step (16.667 + 16.667) c) = true /\
  Loop.currentRef (Physics.step (16.667 + 16.667) c) = Loop.currentRef c2.
Proof.
  cbv zeta.
  set (c := Physics.zoomIn defaultProps (Some layout800x600)
              (Loop.mount defaultProps)).
  assert (Hdt : 16.667 <= 100) by lra.
  assert (Hc : idle c /\ Loop.velocityRef c = {| x := 0; y := 0 |} /\
               tscale (Loop.targetRef c) - tscale (Loop.currentRef c) = 0.1).
  { unfold c, Physics.zoomIn. rewrite Physics_applyZoomToPoint_eq.
    cbn. rewrite (clampScale_id defaultProps (1 + 0.1)) by (simpl; lra).
    repeat split. lra. }
  destruct Hc as (Hi & Hv & Hs).
  assert (R1 : Loop.rafRef (Physics.step 16.667 c) = true).
  { apply Physics_step_keeps_running; try assumption.
    rewrite Hs. abs_lra. }
  destruct (Physics_step_at_rest 16.667 c Hdt Hi Hv)
    as (T1 & V1 & I1 & E1 & _).
  destruct (E1 R1) as (_ & _ & S1).
  assert (Q : Math_pow 0.88 (16.667 / 16.667) = 0.88).
  { replace (16.667 / 16.667) with 1 by lra.
    unfold Math_pow. apply Rpower_1. lra. }
  rewrite Q, Hs in S1.
  assert (R2 : Loop.rafRef (Physics.step 16.667 (Physics.step 16.667 c))
               = true).
  { apply Physics_step_keeps_running; try assumption.
    rewrite T1, S1. abs_lra. }
  assert (H12 : 16.667 + 16.667 <= 100) by lra.
  destruct (Physics_easing_frame_rate_independent 16.667 16.667 c Hdt Hdt
              Hi Hv R1 R2) as (_ & _ & _ & Es & Hsingle & _).
  destruct (Hsingle H12) as (Rs & Cs & _).
  exact (conj Hs (conj Es (conj Rs Cs))).
Defined.

(** [resetZoom] of the physics version: the target and the state are the
    initial transform, a frame is pending, everything else is kept. *)
Lemma Physics_resetZoom_eq props c :
  Physics.resetZoom props c =
  Loop.mkComponent
    {| scale := initialScale props; translateX := 0; translateY := 0;
       isImmediate := false |}
    (Loop.currentRef c)
    {| tscale := initialScale props; tx := 0; ty := 0 |}
    (Loop.isDragging c) (Loop.isPinching c) (Loop.panStartRef c)
    (Loop.targetStartRef c) (Loop.velocityRef c)
    (Loop.lastInteractionTimeRef c) true.
Proof. destruct c as [zp cur tgt dr pi ps tsr v li raf]. now destruct raf. Qed.

(** X17.  [resetZoom] of the physics version, pressed while nothing else
    moves the view: the loop eases the displayed transform to the initial
    one and, once 0.88^n times each distance is within its tolerance, has
    stopped on exactly (initialScale, 0, 0) after [n + 1] frames and stays
    there; pressing it twice is the same as pressing it once. *)
Theorem Physics_resetZoom_settles props n c :
  idle c ->
  Math_abs (x (Loop.velocityRef c)) <= 0.05 ->
  Math_abs (y (Loop.velocityRef c)) <= 0.05 ->
  Math_abs (0 - tx (Loop.currentRef c)) * 0.88 ^ n <= 0.1 ->
  Math_abs (0 - ty (Loop.currentRef c)) * 0.88 ^ n <= 0.1 ->
  Math_abs (initialScale props - tscale (Loop.currentRef c)) * 0.88 ^ n
    <= 0.0001 ->
  let home := {| tscale := initialScale props; tx := 0; ty := 0 |} in
  Physics.resetZoom props (Physics.resetZoom props c) =
    Physics.resetZoom props c /\
  forall m, (S n <= m)%nat ->
    settledAt home
      (Physics.frames referenceFrameInterval m (Physics.resetZoom props c)).
Proof.
  intros Hidle Hvx Hvy Hdx Hdy Hds home.
  split; [now rewrite !Physics_resetZoom_eq|].
  assert (Hs : settledAt home
                 (Physics.frames referenceFrameInterval (S n)
                    (Physics.resetZoom props c))).
  { rewrite Physics_resetZoom_eq.
    apply (Physics_easing_settles n); try assumption; reflexivity. }
  intros m Hm. replace m with (S n + (m - S n))%nat by lia.
  rewrite Physics_frames_add, Physics_frames_stopped; [exact Hs|apply Hs].
Qed.

Lemma Physics_resetZoom_settles_witness :
  let c := Physics.frame referenceFrameInterval
             (Physics.zoomIn defaultProps (Some layout800x600)
                (Loop.mount defaultProps)) in
  Loop.currentRef c = {| tscale := 1 + (1.1 - 1) * 0.12;
                         tx := 0 + (-40 - 0) * 0.12;
                         ty := 0 + (-30 - 0) * 0.12 |} /\
  settledAt {| tscale := 1; tx := 0; ty := 0 |}
    (Physics.frames referenceFrameInterval 41
       (Physics.resetZoom defaultProps c)).
Proof.
  cbv zeta.
  destruct Physics_zoomIn_settles_within_56_frames
    as (Hraf & Hcur & Ts & Tx & Ty & _).
  set (c0 := Physics.zoomIn defaultProps (Some layout800x600)
               (Loop.mount defaultProps)) in *.
  assert (Hc0 : idle c0 /\ Loop.velocityRef c0 = {| x := 0; y := 0 |}).
  { unfold c0, Physics.zoomIn. rewrite Physics_applyZoomToPoint_eq.
    repeat split. }
  destruct Hc0 as (Hi0 & Hv0).
  destruct (Physics_frame_below_epsilon c0 Hraf Hi0) as (Hi & Hv & _ & Hmove & _).
  { rewrite Hv0. simpl. abs_lra. }
  { rewrite Hv0. simpl. abs_lra. }
  destruct Hmove as (_ & _ & Hc).
  { right. right. rewrite Ts, Hcur. simpl. abs_lra. }
  rewrite Ts, Tx, Ty, Hcur in Hc. cbn [tscale tx ty] in Hc.
  split; [exact Hc|].
  refine (proj2 (Physics_resetZoom_settles defaultProps 40 _ Hi _ _ _ _ _)
            41%nat (le_n 41)); rewrite ?Hv, ?Hc; cbn [x y tscale tx ty];
    try (simpl initialScale); abs_lra.
Defined.

(** A frame of a running loop leaves the target and the velocity as its
    callback left them: the commit and the effect after a stop rewrite the
    target with its own value. *)
Lemma Physics_frame_target dt c :
  Loop.rafRef c = true ->
  Loop.targetRef (Physics.frame dt c) = Loop.targetRef (Physics.step dt c) /\
  Loop.velocityRef (Physics.frame dt c) =
    Loop.velocityRef (Physics.step dt c).
Proof.
  intros Hraf. unfold Physics.frame. rewrite Hraf. cbv zeta.
  destruct (Loop.rafRef (Physics.step dt c)) eqn:R; [now split|].
  destruct (Physics_stop_condition dt c R) as (_ & _ & _ & _ & _ & _ & _ &
                                               Hsnap & Hstate).
  unfold Physics.zoomPanEffect. rewrite R. cbn [negb].
  destruct (isImmediate (Loop.zoomPan (Loop.setTarget _ _))); cbn.
  - split; [|reflexivity]. now rewrite Hstate, Hsnap.
  - split; [|reflexivity]. now rewrite Hstate, Hsnap.
Qed.

(** A frame while the view coasts: the target advances by the velocity
    scaled to the frame's duration, and the velocity decays. *)
Lemma Physics_step_coasting dt c :
  dt <= 100 ->
  idle c ->
  Math_abs (x (Loop.velocityRef c)) > 0.05 \/
  Math_abs (y (Loop.velocityRef c)) > 0.05 ->
  Loop.targetRef (Physics.step dt c) =
    {| tscale := tscale (Loop.targetRef c);
       tx := tx (Loop.targetRef c) + x (Loop.velocityRef c) * (dt / 16.667);
       ty := ty (Loop.targetRef c) + y (Loop.velocityRef c) * (dt / 16.667) |} /\
  Loop.velocityRef (Physics.step dt c) =
    {| x := x (Loop.velocityRef c) * Math_pow 0.95 (dt / 16.667);
       y := y (Loop.velocityRef c) * Math_pow 0.95 (dt / 16.667) |}.
Proof.
  destruct c as [zp cur tgt dr pi ps tsr v li raf].
  intros Hdt (Hdr & Hpi) Hv. cbn in Hdr, Hpi, Hv. subst dr pi.
  unfold Physics.step. apply gtb_false in Hdt. rewrite Hdt.
  cbn [Loop.isDragging Loop.isPinching Loop.velocityRef Loop.targetRef
       Loop.currentRef negb andb].
  assert (Hm : gtb (Math_abs (x v)) 0.05 || gtb (Math_abs (y v)) 0.05 = true).
  { apply orb_true_iff. destruct Hv as [H|H]; [left|right];
      now apply gtb_true. }
  rewrite Hm. cbv zeta.
  match goal with
  | |- context [if ?b then Loop.setRaf true _ else _] => destruct b
  end; cbn; split; reflexivity.
Qed.

(** X18.  The controls of the physics version do not cancel a fling: the
    zoom buttons, reset, fit-to-view and the wheel leave the velocity as it
    is, so after [resetZoom] on a coasting view the next frame moves the
    target off the initial transform by the velocity scaled to the frame's
    duration. *)
Theorem Physics_controls_keep_momentum props dom l e dt c :
  dt <= 100 ->
  idle c ->
  Math_abs (x (Loop.velocityRef c)) > 0.05 \/
  Math_abs (y (Loop.velocityRef c)) > 0.05 ->
  let v := Loop.velocityRef c in
  Loop.velocityRef (Physics.zoomIn props dom c) = v /\
  Loop.velocityRef (Physics.zoomOut props dom c) = v /\
  Loop.velocityRef (Physics.resetZoom props c) = v /\
  Loop.velocityRef (Physics.centerView props dom c) = v /\
  Loop.velocityRef (Physics.onWheel props l e c) = v /\
  Loop.targetRef (Physics.frame dt (Physics.resetZoom props c)) =
    {| tscale := initialScale props;
       tx := 0 + x v * (dt / 16.667);
       ty := 0 + y v * (dt / 16.667) |}.
Proof.
  intros Hdt Hidle Hv v.
  assert (Hz : forall d p, Loop.velocityRef
                 (Physics.applyZoomToPoint props d p c) = v).
  { intros d p. now rewrite Physics_applyZoomToPoint_eq. }
  refine (conj (Hz _ _) (conj (Hz _ _) (conj _ (conj _ (conj _ _))))).
  - now rewrite Physics_resetZoom_eq.
  - unfold Physics.centerView. destruct dom as [ly|]; [|reflexivity].
    destruct (eqb _ 0 || eqb _ 0); [reflexivity|].
    destruct c as [zp cur tgt dr pi ps tsr v0 li raf]. now destruct raf.
  - destruct c as [zp cur tgt dr pi ps tsr v0 li raf]. now destruct raf.
  - destruct (Physics_frame_target dt (Physics.resetZoom props c)) as (T & _).
    { now rewrite Physics_resetZoom_eq. }
    rewrite T.
    destruct (Physics_step_coasting dt (Physics.resetZoom props c))
      as (T' & _).
    + exact Hdt.
    + rewrite Physics_resetZoom_eq. exact Hidle.
    + rewrite Physics_resetZoom_eq. exact Hv.
    + rewrite T', Physics_resetZoom_eq. reflexivity.
Qed.

Lemma Physics_controls_keep_momentum_witness :
  Loop.targetRef
    (Physics.frame 16.667 (Physics.resetZoom defaultProps flungPhysics)) =
  {| tscale := 1;
     tx := 0 + x (Loop.velocityRef flungPhysics) * (16.667 / 16.667);
     ty := 0 + y (Loop.velocityRef flungPhysics) * (16.667 / 16.667) |}.
Proof.
  destruct flungPhysics_start as (Hraf & (Hdr & Hpi) & Hx & Hy & _).
  refine (proj2 (proj2 (proj2 (proj2 (proj2
    (Physics_controls_keep_momentum defaultProps None layout800x600
       wheelIn100 16.667 flungPhysics _ (conj Hdr Hpi) _)))))).
  - lra.
  - left. rewrite Hx. simpl. abs_lra.
Defined.

(** X19.  A mouse drag in the physics version: after a press at [p0] and
    moves to [p1] and then [p2], the target is the one at the press shifted
    by [p2 - p0], at the same scale, and a frame is pending.  The velocity
    left for the fling is half the last pointer movement on each axis,
    except that an axis on which the previous pointer coordinate was 0
    gets velocity 0; a move in the same millisecond as the previous event
    leaves the velocity as it was.  After the release further moves are
    ignored. *)
Theorem Physics_drag_follows_pointer props button p0 dt1 p1 dt2 p2 c :
  isLoading props = false ->
  button = 0%nat \/ button = 1%nat ->
  Loop.isPinching c = false ->
  let c1 := Physics.handleMouseDown props button p0 c in
  let c2 := Physics.handleWindowMouseMove dt1 p1 c1 in
  let c3 := Physics.handleWindowMouseMove dt2 p2 c2 in
  let c4 := Physics.handleWindowMouseUp c3 in
  Loop.targetRef c3 =
    {| tscale := tscale (Loop.targetRef c);
       tx := tx (Loop.targetRef c) + (x p2 - x p0);
       ty := ty (Loop.targetRef c) + (y p2 - y p0) |} /\
  Loop.rafRef c3 = true /\
  Loop.velocityRef c1 = {| x := 0; y := 0 |} /\
  (dt2 > 0 -> x p1 <> 0 ->
   x (Loop.velocityRef c3) = (x p2 - x p1) * 0.5) /\
  (dt2 > 0 -> y p1 <> 0 ->
   y (Loop.velocityRef c3) = (y p2 - y p1) * 0.5) /\
  (dt2 > 0 -> x p1 = 0 -> x (Loop.velocityRef c3) = 0) /\
  (dt2 > 0 -> y p1 = 0 -> y (Loop.velocityRef c3) = 0) /\
  (dt2 <= 0 -> Loop.velocityRef c3 = Loop.velocityRef c2) /\
  Loop.isDragging c4 = false /\
  Loop.velocityRef c4 = Loop.velocityRef c3 /\
  (forall dt p, Physics.handleWindowMouseMove dt p c4 = c4).
Proof.
  intros Hload Hbutton Hpi.
  destruct c as [zp cur tgt dr pi ps tsr v li raf]. cbn in Hpi. subst pi.
  assert (Hb : negb (Nat.eqb button 0) && negb (Nat.eqb button 1) = false)
    by (destruct Hbutton; subst button; reflexivity).
  cbv zeta. unfold Physics.handleMouseDown. rewrite Hload, Hb. cbn [orb].
  cbv zeta.
  assert (M : forall dt p zp cur tgt ps tsr v li raf,
    Physics.handleWindowMouseMove dt p
      (Loop.mkComponent zp cur tgt true false ps tsr v li raf) =
    Loop.mkComponent zp cur
      {| tscale := tscale tgt; tx := x tsr + (x p - x ps);
         ty := y tsr + (y p - y ps) |}
      true false ps tsr
      (if gtb dt 0
       then {| x := (x p - Physics.orElse (x li) (x p)) * 0.5;
               y := (y p - Physics.orElse (y li) (y p)) * 0.5 |}
       else v)
      p true).
  { intros. unfold Physics.handleWindowMouseMove. cbn [Loop.isDragging
      Loop.isPinching negb orb]. cbv zeta.
    destruct (gtb dt 0), raf0; reflexivity. }
  assert (D : Loop.startAnimation
                (Loop.setLastInteraction p0
                   (Loop.setPanStart p0
                      {| x := tx (Loop.targetRef
                                    (Loop.setVelocity {| x := 0; y := 0 |}
                                       (Loop.setDragging true
                                          (Loop.mkComponent zp cur tgt dr
                                             false ps tsr v li raf))));
                         y := ty (Loop.targetRef
                                    (Loop.setVelocity {| x := 0; y := 0 |}
                                       (Loop.setDragging true
                                          (Loop.mkComponent zp cur tgt dr
                                             false ps tsr v li raf)))) |}
                      (Loop.setVelocity {| x := 0; y := 0 |}
                         (Loop.setDragging true
                            (Loop.mkComponent zp cur tgt dr false ps tsr v
                               li raf))))) =
              Loop.mkComponent zp cur tgt true false p0
                {| x := tx tgt; y := ty tgt |} {| x := 0; y := 0 |} p0 true).
  { destruct raf; reflexivity. }
  rewrite D, !M. cbn [Loop.targetRef Loop.rafRef Loop.velocityRef tscale x y].
  refine (conj eq_refl (conj eq_refl (conj eq_refl
            (conj _ (conj _ (conj _ (conj _ (conj _ _)))))))).
  - intros Hdt Hx. apply gtb_true in Hdt. rewrite Hdt. cbn [x].
    unfold Physics.orElse. apply eqb_false in Hx. now rewrite Hx.
  - intros Hdt Hy. apply gtb_true in Hdt. rewrite Hdt. cbn [y].
    unfold Physics.orElse. apply eqb_false in Hy. now rewrite Hy.
  - intros Hdt Hx. apply gtb_true in Hdt. rewrite Hdt. cbn [x].
    unfold Physics.orElse. apply eqb_true in Hx. rewrite Hx. lra.
  - intros Hdt Hy. apply gtb_true in Hdt. rewrite Hdt. cbn [y].
    unfold Physics.orElse. apply eqb_true in Hy. rewrite Hy. lra.
  - intros Hdt. apply gtb_false in Hdt. now rewrite Hdt.
  - unfold Physics.handleWindowMouseUp. cbn.
    refine (conj eq_refl (conj eq_refl _)). reflexivity.
Qed.

Lemma Physics_drag_follows_pointer_witness :
  Loop.targetRef
    (Physics.handleWindowMouseMove 16 {| x := 11; y := 1 |}
       (Physics.handleWindowMouseMove 16 {| x := 5; y := 1 |}
          (Physics.handleMouseDown defaultProps 0 {| x := 1; y := 1 |}
             (Loop.mount defaultProps)))) =
  {| tscale := 1; tx := 0 + (11 - 1); ty := 0 + (1 - 1) |}.
Proof.
  exact (proj1 (Physics_drag_follows_pointer defaultProps 0
                  {| x := 1; y := 1 |} 16 {| x := 5; y := 1 |}
                  16 {| x := 11; y := 1 |} (Loop.mount defaultProps)
                  eq_refl (or_introl eq_refl) eq_refl)).
Defined.

(** X20.  Fit-to-view of the physics version measures the content while it
    is displayed at the current scale and divides that scale out: whatever
    non-zero scale is on screen, mid-animation or not, the target is the
    fit of the unscaled content, centred in the container, and a frame is
    pending.  Content of no width or height leaves the component as it
    is. *)
Theorem Physics_centerView_natural_size props l c w0 h0 :
  tscale (Loop.currentRef c) <> 0 ->
  width (Loop.contentRect l) = w0 * tscale (Loop.currentRef c) ->
  height (Loop.contentRect l) = h0 * tscale (Loop.currentRef c) ->
  let fit := clampScale props
               (Math_min ((Loop.clientWidth l - 40) / w0)
                         ((Loop.clientHeight l - 40) / h0)) in
  let t := {| tscale := fit;
              tx := (Loop.clientWidth l - w0 * fit) / 2;
              ty := (Loop.clientHeight l - h0 * fit) / 2 |} in
  let c' := Physics.centerView props (Some l) c in
  (w0 = 0 \/ h0 = 0 -> c' = c) /\
  (w0 <> 0 -> h0 <> 0 ->
   Loop.targetRef c' = t /\
   stateTransform (Loop.zoomPan c') = t /\
   Loop.currentRef c' = Loop.currentRef c /\
   Loop.rafRef c' = true).
Proof.
  intros Hs Hw Hh. cbv zeta. unfold Physics.centerView. cbv zeta.
  assert (W : width (Loop.contentRect l) / tscale (Loop.currentRef c) = w0)
    by (rewrite Hw; field; exact Hs).
  assert (H : height (Loop.contentRect l) / tscale (Loop.currentRef c) = h0)
    by (rewrite Hh; field; exact Hs).
  rewrite W, H. split.
  - intros [Z|Z]; apply eqb_true in Z; rewrite Z;
      rewrite ?orb_true_r; reflexivity.
  - intros Hw0 Hh0. apply eqb_false in Hw0, Hh0. rewrite Hw0, Hh0.
    cbn [orb]. destruct c as [zp cur tgt dr pi ps tsr v li raf].
    destruct raf; repeat split.
Qed.

Lemma Physics_centerView_natural_size_witness :
  let c' := Physics.centerView defaultProps (Some layout800x600)
              (Loop.mount defaultProps) in
  Loop.targetRef c' =
    {| tscale := clampScale defaultProps
                   (Math_min ((800 - 40) / 1000) ((600 - 40) / 500));
       tx := (800 - 1000 * clampScale defaultProps
                (Math_min ((800 - 40) / 1000) ((600 - 40) / 500))) / 2;
       ty := (600 - 500 * clampScale defaultProps
                (Math_min ((800 - 40) / 1000) ((600 - 40) / 500))) / 2 |}.
Proof.
  assert (Hs : tscale (Loop.currentRef (Loop.mount defaultProps)) <> 0)
    by (simpl; lra).
  assert (Hw : width (Loop.contentRect layout800x600) =
               1000 * tscale (Loop.currentRef (Loop.mount defaultProps)))
    by (simpl; lra).
  assert (Hh : height (Loop.contentRect layout800x600) =
               500 * tscale (Loop.currentRef (Loop.mount defaultProps)))
    by (simpl; lra).
  assert (Hw0 : 1000 <> 0) by lra.
  assert (Hh0 : 500 <> 0) by lra.
  exact (proj1 (proj2 (Physics_centerView_natural_size defaultProps
                         layout800x600 (Loop.mount defaultProps) 1000 500
                         Hs Hw Hh) Hw0 Hh0)).
Defined.

(** X21.  The buttons of the first version act on the committed React
    state, not on the target of the loop: a wheel zoom that the loop has
    not yet committed is dropped by [zoomIn], [zoomOut] and [resetZoom],
    which end with the displayed transform, the target and the state all
    equal to the transform computed from the state before the wheel. *)
Theorem Eased_buttons_drop_uncommitted_wheel props dom l e c :
  let wheeled := Eased.onWheel props l e c in
  (forall delta p,
     let pressed := Eased.applyZoomToPoint props delta p wheeled in
     let direct := Eased.applyZoomToPoint props delta p c in
     Loop.zoomPan pressed = Loop.zoomPan direct /\
     Loop.targetRef pressed = Loop.targetRef direct /\
     Loop.currentRef pressed = Loop.targetRef pressed /\
     stateTransform (Loop.zoomPan pressed) = Loop.targetRef pressed) /\
  Loop.targetRef (Eased.zoomIn props dom wheeled) =
    Loop.targetRef (Eased.zoomIn props dom c) /\
  Loop.targetRef (Eased.zoomOut props dom wheeled) =
    Loop.targetRef (Eased.zoomOut props dom c) /\
  Loop.currentRef (Eased.resetZoom props wheeled) =
    {| tscale := initialScale props; tx := 0; ty := 0 |} /\
  Loop.targetRef (Eased.resetZoom props wheeled) =
    {| tscale := initialScale props; tx := 0; ty := 0 |}.
Proof.
  destruct c as [zp cur tgt dr pi ps tsr v li raf].
  cbv zeta. unfold Eased.zoomIn, Eased.zoomOut.
  destruct raf; repeat split.
Qed.

(** X22.  Whenever the loop of the first version stops, it stops short: the
    displayed transform it commits is the eased one, up to 0.09 pixels per
    axis and 0.00094 in scale away from the target of that frame, and the
    effect on the committed state then replaces the target by it. *)
Theorem Eased_stop_residual c :
  Loop.rafRef c = true ->
  isImmediate (Loop.zoomPan c) = false ->
  let c1 := Eased.step c in
  let c' := Eased.frame c in
  Loop.rafRef c' = false ->
  idle c /\
  Math_abs (tx (Loop.targetRef c1) - tx (Loop.currentRef c')) <= 0.09 /\
  Math_abs (ty (Loop.targetRef c1) - ty (Loop.currentRef c')) <= 0.09 /\
  Math_abs (tscale (Loop.targetRef c1) - tscale (Loop.currentRef c'))
    <= 0.00094 /\
  Loop.currentRef c' = Loop.currentRef c1 /\
  Loop.targetRef c' = Loop.currentRef c' /\
  stateTransform (Loop.zoomPan c') = Loop.currentRef c'.
Proof.
  destruct c as [zp cur tgt dr pi ps tsr v li raf].
  intros Hraf Himm. destruct zp as [s0 x0 y0 imm].
  cbn in Hraf, Himm. subst raf imm.
  cbv zeta. unfold Eased.frame, idle.
  cbn [Loop.rafRef Loop.isDragging Loop.isPinching].
  unfold Eased.step.
  cbn [Loop.isDragging Loop.isPinching Loop.velocityRef Loop.targetRef
       Loop.currentRef].
  destruct dr, pi; cbn [negb andb].
  1-3: cbv zeta; rewrite ?orb_false_r, ?orb_true_r; cbn; discriminate.
  destruct (gtb (Math_abs (x v)) 0.01 || gtb (Math_abs (y v)) 0.01);
    cbv zeta; cbn [orb tx ty tscale x y];
    match goal with
    | |- context [if ?b || false || false then _ else _] =>
        destruct b eqn:Hmoving
    end; cbn; try discriminate; intros _; bool_hyps;
    unfold stateTransform; cbn;
    (split; [split; reflexivity|]);
    refine (conj _ (conj _ (conj _ (conj eq_refl (conj eq_refl eq_refl)))));
    abs_lra.
Qed.

Lemma Eased_stop_residual_witness :
  let c := Loop.startAnimation
             (Loop.setTarget {| tscale := 1.0005; tx := 0.05; ty := 0 |}
                (Loop.mount defaultProps)) in
  Loop.rafRef (Eased.frame c) = false /\
  Math_abs (tscale (Loop.targetRef (Eased.step c)) -
            tscale (Loop.currentRef (Eased.frame c))) <= 0.00094.
Proof.
  cbv zeta.
  set (c := Loop.startAnimation _).
  assert (Hstop : Loop.rafRef (Eased.frame c) = false).
  { unfold Eased.frame, Eased.step, c. cbn.
    repeat (match goal with
            | |- context [gtb ?a ?b] =>
                replace (gtb a b) with false
                  by (symmetry; apply gtb_false; abs_lra)
            end; cbn).
    reflexivity. }
  split; [exact Hstop|].
  exact (proj1 (proj2 (proj2 (proj2
    (Eased_stop_residual c eq_refl eq_refl Hstop))))).
Defined.








(** X24.  Aliasing of the two refs in the canvas version.  The [onload]
    handler of an image of positive width and height, when the canvas has
    a size, stores one transform object in both refs.  From then on, and until a drag, [resetZoom] or
    [centerView] gives the target an object of its own, a button zoom
    writes the displayed transform directly: it jumps to the new target at
    once and the first frame of the smooth loop stops without easing.
    After a mouse press the target is a copy, and a button zoom leaves the
    displayed transform where it is for the loop to ease. *)
Theorem Canvas_zoom_after_load_is_instant props cv img r delta p c0 :
  0 < Canvas.imageWidth img ->
  0 < Canvas.imageHeight img ->
  Canvas.clientWidth cv > 0 ->
  Canvas.clientHeight cv > 0 ->
  let c := Canvas.onImageLoad (Some cv) img c0 in
  let c' := Canvas.applyZoom props (Some r) delta c in
  let pressed := Canvas.handleMouseUp (Canvas.handleMouseDown 0 p c) in
  Canvas.targetRef c = Canvas.Shared /\
  Canvas.targetRef c' = Canvas.Shared /\
  tscale (Canvas.currentRef c') =
    clampScale props (tscale (Canvas.currentRef c) + delta) /\
  Canvas.currentRef c' = Canvas.target c' /\
  Canvas.currentRef (Canvas.frame c') = Canvas.currentRef c' /\
  Canvas.rafRef (Canvas.frame c') = Canvas.NoFrame /\
  Canvas.targetRef pressed = Canvas.Own (Canvas.currentRef c) /\
  Canvas.currentRef (Canvas.applyZoom props (Some r) delta pressed) =
    Canvas.currentRef c.
Proof.
  intros _ _ Hw Hh. apply gtb_true in Hw, Hh.
  destruct c0 as [cur tgt dr pi ps tsr raf hc im].
  cbv zeta. unfold Canvas.onImageLoad. rewrite Hw, Hh. cbn [andb].
  cbv zeta.
  cbn [Canvas.isDragging Canvas.isPinching Canvas.panStartRef
       Canvas.targetStartRef Canvas.rafRef].
  set (t := {| tscale := _; tx := _; ty := _ |}).
  refine (conj eq_refl (conj eq_refl (conj eq_refl (conj eq_refl _)))).
  unfold Canvas.applyZoom, Canvas.updateSmooth, Canvas.writeTarget,
    Canvas.frame, Canvas.loop, Canvas.target.
  cbn [Canvas.targetRef Canvas.currentRef Canvas.rafRef Canvas.setRaf
       Canvas.isDragging Canvas.isPinching Canvas.panStartRef
       Canvas.targetStartRef Canvas.hasCentered Canvas.imageRef
       tx ty tscale].
  cbv zeta.
  assert (Z : forall a tol, 0 < tol -> ltb (Math_abs (a - a)) tol = true).
  { intros a tol Htol. apply ltb_true. abs_lra. }
  rewrite !Z by lra. cbn. repeat split.
Qed.

Lemma Canvas_zoom_after_load_is_instant_witness :
  let c := Canvas.onImageLoad (Some canvas800x600) hugeImage
             (Canvas.mount defaultProps) in
  Canvas.currentRef (Canvas.zoomIn defaultProps
                       (Some (Canvas.rect canvas800x600)) c) =
  Canvas.target (Canvas.zoomIn defaultProps
                   (Some (Canvas.rect canvas800x600)) c).
Proof.
  assert (Iw : 0 < Canvas.imageWidth hugeImage) by (simpl; lra).
  assert (Ih : 0 < Canvas.imageHeight hugeImage) by (simpl; lra).
  assert (Hw : Canvas.clientWidth canvas800x600 > 0) by (simpl; lra).
  assert (Hh : Canvas.clientHeight canvas800x600 > 0) by (simpl; lra).
  exact (proj1 (proj2 (proj2 (proj2
    (Canvas_zoom_after_load_is_instant defaultProps canvas800x600 hugeImage
       (Canvas.rect canvas800x600) (zoomStep defaultProps)
       {| x := 0; y := 0 |} (Canvas.mount defaultProps) Iw Ih Hw Hh))))).
Defined.

(** X25.  Wheel events of the canvas version are computed from the
    displayed transform, which only the next frame updates: of two wheel
    events between two frames, on a target object of its own, the second
    replaces the first; the frame then shows exactly the target and
    leaves no frame pending. *)
Theorem Canvas_wheel_last_event_wins props cv e1 e2 c t :
  Canvas.targetRef c = Canvas.Own t ->
  Canvas.onWheel props cv e2 (Canvas.onWheel props cv e1 c) =
    Canvas.onWheel props cv e2 c /\
  Canvas.currentRef (Canvas.onWheel props cv e1 c) = Canvas.currentRef c /\
  Canvas.currentRef (Canvas.frame (Canvas.onWheel props cv e1 c)) =
    Canvas.target (Canvas.onWheel props cv e1 c) /\
  Canvas.rafRef (Canvas.frame (Canvas.onWheel props cv e1 c)) =
    Canvas.NoFrame.
Proof.
  destruct c as [cur tgt dr pi ps tsr raf hc im].
  intros Ht. cbn in Ht. subst tgt. repeat split.
Qed.

Lemma Canvas_wheel_last_event_wins_witness :
  Canvas.onWheel defaultProps canvas800x600 pageDown
    (Canvas.onWheel defaultProps canvas800x600 wheelIn100
       (Canvas.mount defaultProps)) =
  Canvas.onWheel defaultProps canvas800x600 pageDown
    (Canvas.mount defaultProps).
Proof.
  exact (proj1 (Canvas_wheel_last_event_wins defaultProps canvas800x600
                  wheelIn100 pageDown (Canvas.mount defaultProps)
                  {| tscale := 1; tx := 0; ty := 0 |} eq_refl)).
Defined.

(** X26.  The centred fit of the canvas version: for an image of positive
    size in a canvas of non-negative size, the image at the computed scale
    takes at most 90% of the canvas on each axis and exactly 90% on one of
    them, and it is centred, with margins of at least 5% of the canvas on
    every side.  Without a canvas or an image there is no transform. *)
Theorem Canvas_getCenterTransform_fits cv img :
  0 < Canvas.imageWidth img ->
  0 < Canvas.imageHeight img ->
  0 <= Canvas.clientWidth cv ->
  0 <= Canvas.clientHeight cv ->
  Canvas.getCenterTransform None (Some img) = None /\
  Canvas.getCenterTransform (Some cv) None = None /\
  exists t,
    Canvas.getCenterTransform (Some cv) (Some img) = Some t /\
    0 <= tscale t /\
    Canvas.imageWidth img * tscale t <= 0.9 * Canvas.clientWidth cv /\
    Canvas.imageHeight img * tscale t <= 0.9 * Canvas.clientHeight cv /\
    (Canvas.imageWidth img * tscale t = 0.9 * Canvas.clientWidth cv \/
     Canvas.imageHeight img * tscale t = 0.9 * Canvas.clientHeight cv) /\
    tx t + Canvas.imageWidth img * tscale t + tx t = Canvas.clientWidth cv /\
    ty t + Canvas.imageHeight img * tscale t + ty t = Canvas.clientHeight cv /\
    0.05 * Canvas.clientWidth cv <= tx t /\
    0.05 * Canvas.clientHeight cv <= ty t.
Proof.
  destruct cv as [r W H], img as [w h]. cbn [Canvas.imageWidth
    Canvas.imageHeight Canvas.clientWidth Canvas.clientHeight].
  intros Hw Hh HW HH.
  refine (conj eq_refl (conj eq_refl _)).
  eexists. split; [reflexivity|]. cbn [tscale tx ty Canvas.imageWidth
    Canvas.imageHeight Canvas.clientWidth Canvas.clientHeight].
  set (s := Math_min (W / w) (H / h)).
  assert (Ew : w * (W / w) = W) by (field; lra).
  assert (Eh : h * (H / h) = H) by (field; lra).
  assert (Pw : 0 <= W / w).
  { unfold Rdiv. apply Rmult_le_pos; [lra|]. left.
    now apply Rinv_0_lt_compat. }
  assert (Ph : 0 <= H / h).
  { unfold Rdiv. apply Rmult_le_pos; [lra|]. left.
    now apply Rinv_0_lt_compat. }
  assert (Hs : 0 <= s /\ w * s <= W /\ h * s <= H /\
               (w * s = W \/ h * s = H)).
  { unfold s, Math_min, Rmin. destruct (Rle_dec (W / w) (H / h)) as [L|L].
    - refine (conj Pw (conj _ (conj _ (or_introl Ew)))); [lra|].
      rewrite <- Eh. apply Rmult_le_compat_l; lra.
    - refine (conj Ph (conj _ (conj _ (or_intror Eh)))); [|lra].
      rewrite <- Ew. apply Rmult_le_compat_l; lra. }
  destruct Hs as (S0 & Sw & Sh & Se).
  replace (w * (s * 0.9)) with (0.9 * (w * s)) by ring.
  replace (h * (s * 0.9)) with (0.9 * (h * s)) by ring.
  repeat split; lra.
Qed.

Lemma Canvas_getCenterTransform_fits_witness :
  exists t,
    Canvas.getCenterTransform (Some canvas800x600) (Some hugeImage) = Some t /\
    Canvas.imageWidth hugeImage * tscale t <= 0.9 * 800 /\
    Canvas.imageHeight hugeImage * tscale t <= 0.9 * 600.
Proof.
  assert (Hw : 0 < Canvas.imageWidth hugeImage) by (simpl; lra).
  assert (Hh : 0 < Canvas.imageHeight hugeImage) by (simpl; lra).
  assert (HW : 0 <= Canvas.clientWidth canvas800x600) by (simpl; lra).
  assert (HH : 0 <= Canvas.clientHeight canvas800x600) by (simpl; lra).
  destruct (Canvas_getCenterTransform_fits canvas800x600 hugeImage
              Hw Hh HW HH) as (_ & _ & t & E & _ & Fw & Fh & _).
  exists t. exact (conj E (conj Fw Fh)).
Defined.

(** X27.  A mouse drag on the canvas: a press of the primary button stops
    a running smooth animation where it is (the target becomes a copy of
    the displayed transform); after moves to [p1] and then [p2], the next
    frame shows the transform of the press shifted by [p2 - p0] at the
    same scale and leaves no frame pending.  Other buttons do not start a
    drag, and moves outside a drag are ignored. *)
Theorem Canvas_drag_follows_pointer button p0 p1 p2 c :
  let c1 := Canvas.handleMouseDown 0 p0 c in
  let c3 := Canvas.handleMouseMove p2 (Canvas.handleMouseMove p1 c1) in
  let c4 := Canvas.handleMouseUp (Canvas.frame c3) in
  Canvas.target c1 = Canvas.currentRef c /\
  Canvas.currentRef (Canvas.frame c1) = Canvas.currentRef c /\
  Canvas.rafRef (Canvas.frame c1) = Canvas.NoFrame /\
  Canvas.currentRef (Canvas.frame c3) =
    {| tscale := tscale (Canvas.currentRef c);
       tx := tx (Canvas.currentRef c) + (x p2 - x p0);
       ty := ty (Canvas.currentRef c) + (y p2 - y p0) |} /\
  Canvas.rafRef (Canvas.frame c3) = Canvas.NoFrame /\
  Canvas.handleMouseMove p1 c4 = c4 /\
  (button <> 0%nat -> Canvas.handleMouseDown button p0 c = c) /\
  (Canvas.isDragging c = false -> Canvas.handleMouseMove p1 c = c).
Proof.
  destruct c as [cur tgt dr pi ps tsr raf hc im]. cbv zeta.
  refine (conj eq_refl (conj _ (conj eq_refl (conj eq_refl (conj eq_refl
            (conj eq_refl (conj _ _))))))).
  - reflexivity.
  - intros Hb. unfold Canvas.handleMouseDown.
    apply Nat.eqb_neq in Hb. now rewrite Hb.
  - cbn. intros Hd. subst dr. reflexivity.
Qed.

Lemma Canvas_drag_follows_pointer_witness :
  Canvas.handleMouseDown 2 {| x := 1; y := 1 |} (Canvas.mount defaultProps) =
  Canvas.mount defaultProps.
Proof.
  refine (proj1 (proj2 (proj2 (proj2 (proj2 (proj2 (proj2
    (Canvas_drag_follows_pointer 2 {| x := 1; y := 1 |} {| x := 5; y := 1 |}
       {| x := 11; y := 1 |} (Canvas.mount defaultProps)))))))) _).
  discriminate.
Defined.

(** X28.  The canvas centres the image once.  When the image loads before
    the canvas is there, the first resize with a positive size puts the
    centred fit in both refs, as one object, and marks the view as centred;
    a resize of no width or height does nothing, and once the view is
    centred no later resize moves it. *)
Theorem Canvas_initial_centering_once cv img w h c0 :
  Canvas.hasCentered c0 = false ->
  w > 0 -> h > 0 ->
  let loaded := Canvas.onImageLoad None img c0 in
  let c1 := Canvas.onResize (Some cv) w h loaded in
  Canvas.getCenterTransform (Some cv) (Some img) =
    Some (Canvas.currentRef c1) /\
  Canvas.targetRef c1 = Canvas.Shared /\
  Canvas.hasCentered c1 = true /\
  Canvas.currentRef loaded = Canvas.currentRef c0 /\
  (forall w0 h0, w0 <= 0 \/ h0 <= 0 ->
     Canvas.onResize (Some cv) w0 h0 loaded = loaded) /\
  (forall w' h' c, Canvas.hasCentered c = true ->
     Canvas.onResize (Some cv) w' h' c = c) /\
  (forall w' h', Canvas.onResize (Some cv) w' h' c1 = c1).
Proof.
  destruct c0 as [cur tgt dr pi ps tsr raf hc im].
  intros Hc Hw Hh. cbn in Hc. subst hc.
  apply gtb_true in Hw, Hh. cbv zeta.
  unfold Canvas.onImageLoad, Canvas.onResize.
  cbn [Canvas.hasCentered Canvas.imageRef negb andb].
  rewrite Hw, Hh.
  cbn [Canvas.getCenterTransform Canvas.currentRef Canvas.targetRef
       Canvas.hasCentered andb negb].
  refine (conj eq_refl (conj eq_refl (conj eq_refl (conj eq_refl
            (conj _ (conj _ _)))))).
  - intros w0 h0 [Z|Z]; apply gtb_false in Z; rewrite Z;
      rewrite ?andb_false_r; reflexivity.
  - intros w' h' c Hcen. now rewrite Hcen.
  - intros w' h'. reflexivity.
Qed.

Lemma Canvas_initial_centering_once_witness :
  Canvas.targetRef
    (Canvas.onResize (Some canvas800x600) 800 600
       (Canvas.onImageLoad None hugeImage (Canvas.mount defaultProps))) =
  Canvas.Shared.
Proof.
  assert (Hw : 800 > 0) by lra.
  assert (Hh : 600 > 0) by lra.
  exact (proj1 (proj2
    (Canvas_initial_centering_once canvas800x600 hugeImage 800 600
       (Canvas.mount defaultProps) eq_refl Hw Hh))).
Defined.
